(** * SAP Note search server: credential and session lifecycle

    A shallow embedding of the TypeScript sources of the SAP Note MCP
    server: the authenticator ([auth.ts]), the notes API client
    ([sap-notes-api.ts]) and the tool registration of the official server
    ([mcp-server-official.ts]).
    The direct token extraction ([coveo-token-direct.ts]) comes last.

    Conventions of the embedding.
    - A JavaScript string is a [string]; each character is one code unit
      (code units below 256 are covered).
    - A JavaScript number that the code uses as an instant, a status or a
      count is a [Z].
    - A call that may throw returns an [Outcome]; the value thrown is a
      [Thrown].
    - The answers of the outside world (file system, browser automation,
      network) are read from an environment record passed to the function
      that asks for them.
    - Logging is left out, except where building the log line can throw. *)

From Stdlib Require Import ZArith String Ascii List Bool Lia.
From Stdlib Require Import Numbers.DecimalString.
From stdpp Require Import base list gmap strings.
Import ListNotations.
Open Scope string_scope.
Open Scope Z_scope.

(* ===================================================================== *)
(** ** JavaScript values thrown and returned *)
(* ===================================================================== *)

(** The classes an [instanceof] test of the sources can tell apart. *)
Inductive ErrorClass :=
| ClsError                       (* new Error(...) *)
| ClsBrowserNotFoundError
| ClsCertificateLoadError
| ClsAuthenticationTimeoutError
| ClsAuthenticationError
| ClsLibraryError.               (* a subclass raised by the runtime or a library *)

(** A thrown value: an [Error] object, or any other value (shown by
    [String(v)]). *)
Inductive Thrown :=
| Exn (cls : ErrorClass) (message : string)
| ExnWith (cls : ErrorClass) (message : string) (originalError : Thrown)
| NonError (shown : string).

Inductive Outcome (A : Type) :=
| Returns (a : A)
| Throws (t : Thrown).
Arguments Returns {A} a.
Arguments Throws {A} t.

(** [error instanceof Error ? error.message : String(error)] *)
Definition errorMessage (t : Thrown) : string :=
  match t with
  | Exn _ m | ExnWith _ m _ => m
  | NonError s => s
  end.

(** [error.message] read in a template literal, without the [instanceof]
    test: a value that is not an object with a message prints as
    [undefined]. *)
Definition dotMessage (t : Thrown) : string :=
  match t with
  | Exn _ m | ExnWith _ m _ => m
  | NonError _ => "undefined"
  end.

Definition error_class_eqb (a b : ErrorClass) : bool :=
  match a, b with
  | ClsError, ClsError
  | ClsBrowserNotFoundError, ClsBrowserNotFoundError
  | ClsCertificateLoadError, ClsCertificateLoadError
  | ClsAuthenticationTimeoutError, ClsAuthenticationTimeoutError
  | ClsAuthenticationError, ClsAuthenticationError
  | ClsLibraryError, ClsLibraryError => true
  | _, _ => false
  end.

(** [error instanceof C] for one of the four classes of [auth.ts]. *)
Definition instanceOf (c : ErrorClass) (t : Thrown) : bool :=
  match t with
  | Exn c' _ | ExnWith c' _ _ => error_class_eqb c c'
  | NonError _ => false
  end.

(* ===================================================================== *)
(** ** String helpers of the JavaScript library *)
(* ===================================================================== *)

Fixpoint startsWith (p s : string) : bool :=
  match p, s with
  | EmptyString, _ => true
  | String a p', String b s' => Ascii.eqb a b && startsWith p' s'
  | String _ _, EmptyString => false
  end.

(** [s.includes(p)] *)
Fixpoint includes (p s : string) : bool :=
  startsWith p s ||
  match s with
  | EmptyString => false
  | String _ s' => includes p s'
  end.

(** [Number.prototype.toString] on an integer. *)
Definition Z_to_string (z : Z) : string :=
  NilZero.string_of_int (Z.to_int z).

(** [array.join(sep)] *)
Fixpoint join (sep : string) (l : list string) : string :=
  match l with
  | [] => ""
  | [x] => x
  | x :: rest => x ++ sep ++ join sep rest
  end.

(** The string of one double quote. *)
Definition doubleQuote : string := String (ascii_of_nat 34) "".

(** [s.substring(0, n)] *)
Fixpoint substring0 (n : nat) (s : string) : string :=
  match n, s with
  | O, _ => ""
  | S n', String c s' => String c (substring0 n' s')
  | S _, EmptyString => ""
  end.

(** [s.substring(n)] *)
Fixpoint dropChars (n : nat) (s : string) : string :=
  match n, s with
  | O, _ => s
  | S n', String _ s' => dropChars n' s'
  | S _, EmptyString => ""
  end.

Definition isDigit (c : ascii) : bool :=
  let n := nat_of_ascii c in (48 <=? n)%nat && (n <=? 57)%nat.

(** Line terminators and white space among the code units below 256. *)
Definition isLineTerminator (c : ascii) : bool :=
  let n := nat_of_ascii c in (n =? 10)%nat || (n =? 13)%nat.

Definition isWhiteSpace (c : ascii) : bool :=
  let n := nat_of_ascii c in
  (n =? 9)%nat || (n =? 10)%nat || (n =? 11)%nat || (n =? 12)%nat
  || (n =? 13)%nat || (n =? 32)%nat || (n =? 160)%nat.

(** Lower case of an ASCII letter; other code units are left alone. *)
Definition toLowerAscii (c : ascii) : ascii :=
  let n := nat_of_ascii c in
  if (65 <=? n)%nat && (n <=? 90)%nat then ascii_of_nat (n + 32) else c.

(** [p] matches at the start of [s] under the [i] flag, for a pattern [p]
    of ASCII characters. *)
Fixpoint startsWithCI (p s : string) : bool :=
  match p, s with
  | EmptyString, _ => true
  | String a p', String b s' =>
      Ascii.eqb (toLowerAscii a) (toLowerAscii b) && startsWithCI p' s'
  | String _ _, EmptyString => false
  end.

Fixpoint trimStart (s : string) : string :=
  match s with
  | String c s' => if isWhiteSpace c then trimStart s' else s
  | EmptyString => ""
  end.

Fixpoint trimEnd (s : string) : string :=
  match s with
  | String c s' =>
      match trimEnd s' with
      | EmptyString => if isWhiteSpace c then "" else String c ""
      | r => String c r
      end
  | EmptyString => ""
  end.

(** [s.trim()] *)
Definition trim (s : string) : string := trimEnd (trimStart s).

(** Every character of [s] passes the test [P]. *)
Fixpoint allChars (P : ascii -> bool) (s : string) : bool :=
  match s with
  | EmptyString => true
  | String c s' => P c && allChars P s'
  end.

Definition notOpening (c : ascii) : bool := negb (Ascii.eqb c "<").

(** Text that can stand between the tags of a title on one line. *)
Definition titleChar (c : ascii) : bool :=
  notOpening c && negb (isLineTerminator c).

(* ===================================================================== *)
(** ** JavaScript values read from JSON *)
(* ===================================================================== *)

#[local] Set Warnings "-register-all".

(** A value as [JSON.parse] builds it, and [undefined] for what is not
    there. Numbers are the integral ones. *)
Inductive JsVal :=
| JUndefined
| JNull
| JBool (b : bool)
| JNum (n : Z)
| JStr (s : string)
| JArr (elements : list JsVal)
| JObj (fields : list (string * JsVal)).

Definition truthy (v : JsVal) : bool :=
  match v with
  | JUndefined | JNull => false
  | JBool b => b
  | JNum n => negb (n =? 0)
  | JStr s => negb (String.eqb s "")
  | JArr _ | JObj _ => true
  end.

(** [a || b] *)
Definition jor (a b : JsVal) : JsVal := if truthy a then a else b.
Infix "<||>" := jor (at level 51, left associativity).

Fixpoint lookupField (k : string) (fields : list (string * JsVal)) : JsVal :=
  match fields with
  | [] => JUndefined
  | (k', v) :: rest => if String.eqb k k' then v else lookupField k rest
  end.

(** [v.k] for a key [k] that no prototype defines, on a [v] that is
    neither [null] nor [undefined]. *)
Definition prop (k : string) (v : JsVal) : JsVal :=
  match v with
  | JObj fields => lookupField k fields
  | _ => JUndefined
  end.

Definition nullish (v : JsVal) : bool :=
  match v with
  | JUndefined | JNull => true
  | _ => false
  end.

(** [v?.k] *)
Definition optProp (k : string) (v : JsVal) : JsVal :=
  if nullish v then JUndefined else prop k v.

(** [Array.isArray(v)] *)
Definition isArray (v : JsVal) : bool :=
  match v with
  | JArr _ => true
  | _ => false
  end.

(** [a[0]] on an array. *)
Definition first (v : JsVal) : JsVal :=
  match v with
  | JArr (x :: _) => x
  | _ => JUndefined
  end.

(* ===================================================================== *)
(** ** Dates and numbers printed by the JavaScript library *)
(* ===================================================================== *)

Definition msPerDay : Z := 86400000.

(** Year, month and day of the day that is [days] days after 1970-01-01,
    in the proleptic Gregorian calendar. *)
Definition civilFromDays (days : Z) : Z * Z * Z :=
  let z := days + 719468 in
  let era := z / 146097 in
  let doe := z - era * 146097 in
  let yoe := (doe - doe / 1460 + doe / 36524 - doe / 146096) / 365 in
  let doy := doe - (365 * yoe + yoe / 4 - yoe / 100) in
  let mp := (5 * doy + 2) / 153 in
  let d := doy - (153 * mp + 2) / 5 + 1 in
  let m := if mp <? 10 then mp + 3 else mp - 9 in
  let y := yoe + era * 400 + (if m <=? 2 then 1 else 0) in
  (y, m, d).

Fixpoint zeros (n : nat) : string :=
  match n with
  | O => ""
  | S n' => String "0" (zeros n')
  end.

(** [s.padStart(width, '0')] *)
Definition padLeft (width : nat) (s : string) : string :=
  zeros (width - String.length s) ++ s.

(** The year as [toISOString] prints it: four digits, or a sign and six. *)
Definition isoYear (y : Z) : string :=
  if (0 <=? y) && (y <=? 9999) then padLeft 4 (Z_to_string y)
  else if y <? 0 then "-" ++ padLeft 6 (Z_to_string (- y))
  else "+" ++ padLeft 6 (Z_to_string y).

(** [new Date(t).toISOString().split('T')[0]] for a time value [t] in
    range. *)
Definition isoDate (t : Z) : string :=
  let '(y, m, d) := civilFromDays (t / msPerDay) in
  isoYear y ++ "-" ++ padLeft 2 (Z_to_string m) ++ "-" ++ padLeft 2 (Z_to_string d).

Definition maxTimeValue : Z := 8640000000000000.

(** [String(v)] *)
Fixpoint toStr (v : JsVal) : string :=
  match v with
  | JUndefined => "undefined"
  | JNull => "null"
  | JBool true => "true"
  | JBool false => "false"
  | JNum n => Z_to_string n
  | JStr s => s
  | JArr l =>
      join "," (map (fun x => match x with
                              | JUndefined | JNull => ""
                              | _ => toStr x
                              end) l)
  | JObj _ => "[object Object]"
  end.

Definition TypeError (message : string) : Thrown := Exn ClsLibraryError message.
Definition RangeError (message : string) : Thrown := Exn ClsLibraryError message.

(** The leading digits of [s]. *)
Fixpoint digitRun (s : string) : string :=
  match s with
  | String c s' => if isDigit c then String c (digitRun s') else ""
  | EmptyString => ""
  end.

(** [s.match(/\d{6,8}/)?.[0]] *)
Fixpoint matchDigits (s : string) : option string :=
  let run := digitRun s in
  if (6 <=? String.length run)%nat then Some (substring0 8 run)
  else match s with
       | String _ s' => matchDigits s'
       | EmptyString => None
       end.

(** [/^\d{6,8}$/.test(s)] *)
Definition isNoteNumber (s : string) : bool :=
  String.eqb (digitRun s) s
  && (6 <=? String.length s)%nat && (String.length s <=? 8)%nat.

(* ===================================================================== *)
(** ** Code that changes a state and returns or throws *)
(* ===================================================================== *)

Section Effects.
Context {S : Type}.

Definition Eff (A : Type) : Type := S -> Outcome A * S.

Definition ret {A} (a : A) : Eff A := fun w => (Returns a, w).
Definition throw {A} (t : Thrown) : Eff A := fun w => (Throws t, w).
Definition bind {A B} (m : Eff A) (k : A -> Eff B) : Eff B :=
  fun w => match m w with
           | (Returns a, w') => k a w'
           | (Throws t, w') => (Throws t, w')
           end.
Definition modify (f : S -> S) : Eff unit := fun w => (Returns tt, f w).

(** The answer of the outside world to a call that may throw. *)
Definition ask {A} (o : Outcome A) : Eff A := fun w => (o, w).

(** [try { body } catch (error) { handler error }] *)
Definition tryCatch {A} (body : Eff A) (handler : Thrown -> Eff A) : Eff A :=
  fun w => match body w with
           | (Returns a, w') => (Returns a, w')
           | (Throws t, w') => handler t w'
           end.

(** [try { body } finally { fin }]: a [fin] that throws replaces the
    result of [body]. *)
Definition finally {A} (body : Eff A) (fin : Eff unit) : Eff A :=
  fun w => match body w with
           | (r, w') => match fin w' with
                        | (Returns _, w'') => (r, w'')
                        | (Throws t, w'') => (Throws t, w'')
                        end
           end.
End Effects.
Arguments Eff S A : clear implicits.

Notation "'let!' x ':=' m 'in' k" := (bind m (fun x => k))
  (at level 10, x name, m at level 200, k at level 200).
Notation "'run!' m 'in' k" := (bind m (fun _ => k))
  (at level 10, m at level 200, k at level 200).

(* ===================================================================== *)
(** ** The authenticator ([SapAuthenticator]) *)
(* ===================================================================== *)

Module Auth.

(** A cookie of the browser context. [expires = -1] marks a session
    cookie. *)
Record Cookie := {
  cookie_name : string;
  cookie_value : string;
  cookie_domain : string;
  cookie_path : string;
  cookie_expires : Z
}.

(** [AuthState] of [types.ts]: [token] and [expiresAt] are optional. *)
Record AuthState := {
  token : option string;
  expiresAt : option Z;
  isAuthenticated : bool
}.

Definition signedOut : AuthState :=
  {| token := None; expiresAt := None; isAuthenticated := false |}.

(** The record that [saveCachedToken] writes to [token-cache.json]. *)
Record CachedToken := {
  access_token : string;
  cookies : list Cookie;
  cached_expiresAt : Z
}.

Record ServerConfig := {
  pfxPath : string;
  pfxPassphrase : string;
  maxJwtAgeH : Z
}.

(** What the authenticator does to the outside world. *)
Inductive Event :=
| EvAuthenticate (p : nat)       (* authenticate() entered; p is its promise *)
| EvLoginFlow (p : nat)          (* the certificate login of p started *)
| EvBrowserLaunch
| EvNavigate (url : string)
| EvBrowserClose
| EvWriteCache.

Inductive PromiseState :=
| Pending
| Fulfilled
| Rejected (t : Thrown).

(** A promise returned by [authenticate()], with the callers suspended on
    it in the order in which they reached their [await]. *)
Record PromiseCell := {
  settled : PromiseState;
  reactions : list nat
}.

(** One invocation of [ensureAuthenticated()]. *)
Inductive CallState :=
| Running                        (* on the stack, not suspended *)
| AwaitingInFlight (p : nat)     (* suspended in the single-flight guard *)
| AwaitingOwn (p : nat)          (* suspended on the operation it started *)
| Resolved (tok : string)
| RejectedWith (t : Thrown).

(** The authenticator object, the cache file, the clock, and the part of
    the event loop that its promises need. *)
Record World := {
  config : ServerConfig;
  authState : AuthState;
  authPromise : option nat;
  browser : option nat;
  context : option nat;
  page : option nat;
  tokenCacheFile : option CachedToken;
  now : Z;
  promises : list PromiseCell;
  calls : list CallState;
  microtasks : list nat;
  events : list Event
}.

Definition set_authState (s : AuthState) (w : World) : World :=
  {| config := config w; authState := s; authPromise := authPromise w;
     browser := browser w; context := context w; page := page w;
     tokenCacheFile := tokenCacheFile w; now := now w;
     promises := promises w; calls := calls w;
     microtasks := microtasks w; events := events w |}.

Definition set_authPromise (p : option nat) (w : World) : World :=
  {| config := config w; authState := authState w; authPromise := p;
     browser := browser w; context := context w; page := page w;
     tokenCacheFile := tokenCacheFile w; now := now w;
     promises := promises w; calls := calls w;
     microtasks := microtasks w; events := events w |}.

Definition set_handles (b c pg : option nat) (w : World) : World :=
  {| config := config w; authState := authState w;
     authPromise := authPromise w;
     browser := b; context := c; page := pg;
     tokenCacheFile := tokenCacheFile w; now := now w;
     promises := promises w; calls := calls w;
     microtasks := microtasks w; events := events w |}.

Definition set_tokenCacheFile (f : option CachedToken) (w : World) : World :=
  {| config := config w; authState := authState w;
     authPromise := authPromise w;
     browser := browser w; context := context w; page := page w;
     tokenCacheFile := f; now := now w;
     promises := promises w; calls := calls w;
     microtasks := microtasks w; events := events w |}.

Definition set_now (t : Z) (w : World) : World :=
  {| config := config w; authState := authState w;
     authPromise := authPromise w;
     browser := browser w; context := context w; page := page w;
     tokenCacheFile := tokenCacheFile w; now := t;
     promises := promises w; calls := calls w;
     microtasks := microtasks w; events := events w |}.

Definition set_promises (ps : list PromiseCell) (w : World) : World :=
  {| config := config w; authState := authState w;
     authPromise := authPromise w;
     browser := browser w; context := context w; page := page w;
     tokenCacheFile := tokenCacheFile w; now := now w;
     promises := ps; calls := calls w;
     microtasks := microtasks w; events := events w |}.

Definition set_calls (cs : list CallState) (w : World) : World :=
  {| config := config w; authState := authState w;
     authPromise := authPromise w;
     browser := browser w; context := context w; page := page w;
     tokenCacheFile := tokenCacheFile w; now := now w;
     promises := promises w; calls := cs;
     microtasks := microtasks w; events := events w |}.

Definition set_microtasks (q : list nat) (w : World) : World :=
  {| config := config w; authState := authState w;
     authPromise := authPromise w;
     browser := browser w; context := context w; page := page w;
     tokenCacheFile := tokenCacheFile w; now := now w;
     promises := promises w; calls := calls w;
     microtasks := q; events := events w |}.

Definition emit (e : Event) (w : World) : World :=
  {| config := config w; authState := authState w;
     authPromise := authPromise w;
     browser := browser w; context := context w; page := page w;
     tokenCacheFile := tokenCacheFile w; now := now w;
     promises := promises w; calls := calls w;
     microtasks := microtasks w; events := events w ++ [e] |}.

(** *** Validity of a session *)

Definition bufferMs : Z := 5 * 60 * 1000.

(** [!this.authState.token]: absent or the empty string. *)
Definition tokenMissing (t : option string) : bool :=
  match t with
  | None => true
  | Some s => String.eqb s ""
  end.

(** [!this.authState.expiresAt]: absent or zero. *)
Definition expiryMissing (e : option Z) : bool :=
  match e with
  | None => true
  | Some z => z =? 0
  end.

Definition isTokenValid (w : World) : bool :=
  if tokenMissing (token (authState w)) || expiryMissing (expiresAt (authState w))
  then false
  else match expiresAt (authState w) with
       | Some e => now w <? e - bufferMs
       | None => false
       end.

Definition loadCachedToken (w : World) : option CachedToken :=
  tokenCacheFile w.

Definition isTokenValidFromCache (w : World) (cachedToken : CachedToken) : bool :=
  if String.eqb (access_token cachedToken) "" || (cached_expiresAt cachedToken =? 0)
  then false
  else now w <? cached_expiresAt cachedToken - bufferMs.

(** *** The login flow of [authenticate()] *)

(** Code of the authenticator runs on its world. *)
Definition M : Type -> Type := Eff World.

(** How the race between [page.goto] and the 30 s timer ends. *)
Inductive RaceOutcome :=
| Navigated
| NavigationThrew (t : Thrown)
| TimerFirst.

(** The answers of the file system and of the browser during one login. *)
Record LoginEnv := {
  env_certExists : bool;               (* existsSync(pfxPath) *)
  env_certRead : Outcome Z;            (* readFileSync(pfxPath).length *)
  env_browserType : string;            (* PLAYWRIGHT_BROWSER_TYPE || 'chromium' *)
  env_executablePath : Outcome unit;   (* browser.executablePath() *)
  env_launch : Outcome nat;
  env_newContext : Outcome nat;
  env_newPage : Outcome nat;
  env_race : RaceOutcome;
  env_title : Outcome string;
  env_waitForTimeout : Outcome unit;
  env_cookies : Outcome (list Cookie);
  env_writeFile : Outcome unit;
  env_close : Outcome unit
}.

Definition CertificateLoadError (certPath : string) (originalError : Thrown) : Thrown :=
  Exn ClsCertificateLoadError
    ("Failed to load certificate from " ++ certPath ++ ": " ++ dotMessage originalError).

Definition BrowserNotFoundError (browserType : string) : Thrown :=
  Exn ClsBrowserNotFoundError ("Browser " ++ browserType ++ " not found").

Definition AuthenticationTimeoutError (timeoutMs : Z) : Thrown :=
  Exn ClsAuthenticationTimeoutError
    ("Authentication timed out after " ++ Z_to_string timeoutMs ++ "ms").

Definition AuthenticationError (message : string) (originalError : Thrown) : Thrown :=
  ExnWith ClsAuthenticationError message originalError.

Definition validateCertificate (env : LoginEnv) (pfx : string) : M bool :=
  tryCatch
    (if negb (env_certExists env)
     then throw (Exn ClsError ("Certificate file not found: " ++ pfx))
     else
       let! len := ask (env_certRead env) in
       if len =? 0 then throw (Exn ClsError "Certificate file is empty")
       else ret true)
    (fun error => throw (CertificateLoadError pfx error)).

Definition knownBrowser (browserType : string) : bool :=
  String.eqb browserType "chromium" || String.eqb browserType "firefox"
  || String.eqb browserType "webkit".

Definition getBrowserLauncher (env : LoginEnv) : M unit :=
  if knownBrowser (env_browserType env) then ret tt
  else throw (BrowserNotFoundError (env_browserType env)).

Definition checkBrowserAvailable (env : LoginEnv) : M bool :=
  tryCatch
    (if knownBrowser (env_browserType env)
     then run! ask (env_executablePath env) in ret true
     else ret false)
    (fun _ => ret false).

Definition prepareClientCertificate (env : LoginEnv) (pfx : string) : M unit :=
  tryCatch
    (if negb (env_certExists env)
     then throw (Exn ClsError ("PFX file not found: " ++ pfx))
     else run! ask (env_certRead env) in ret tt)
    (fun error => throw (CertificateLoadError pfx error)).

Definition cookieString (allCookies : list Cookie) : string :=
  join "; " (map (fun c => cookie_name c ++ "=" ++ cookie_value c) allCookies).

Definition saveCachedToken (env : LoginEnv) (tokenData : CachedToken) : M unit :=
  tryCatch
    (run! ask (env_writeFile env) in
     modify (fun w => emit EvWriteCache (set_tokenCacheFile (Some tokenData) w)))
    (fun _ => ret tt).

Definition cleanup (close : Outcome unit) : M unit :=
  fun w =>
    match browser w with
    | Some _ =>
        finally
          (tryCatch (run! modify (emit EvBrowserClose) in ask close)
                    (fun _ => ret tt))
          (modify (set_handles None None None)) w
    | None => (Returns tt, w)
    end.

Definition authUrl : string := "https://me.sap.com/home".

(** The body of the [try] block of [authenticate()], after the cache
    check. *)
Definition loginSteps (env : LoginEnv) : M unit :=
  fun w0 =>
  (run! validateCertificate env (pfxPath (config w0)) in
   run! getBrowserLauncher env in
   let! available := checkBrowserAvailable env in
   run! (if negb available then throw (BrowserNotFoundError (env_browserType env))
         else ret tt) in
   run! prepareClientCertificate env (pfxPath (config w0)) in
   run! modify (emit EvBrowserLaunch) in
   let! b := ask (env_launch env) in
   run! modify (fun w => set_handles (Some b) (context w) (page w) w) in
   let! c := ask (env_newContext env) in
   run! modify (fun w => set_handles (browser w) (Some c) (page w) w) in
   let! pg := ask (env_newPage env) in
   run! modify (fun w => set_handles (browser w) (context w) (Some pg) w) in
   run! modify (emit (EvNavigate authUrl)) in
   run! match env_race env with
        | Navigated => ret tt
        | NavigationThrew t => throw t
        | TimerFirst => throw (AuthenticationTimeoutError 30000)
        end in
   run! ask (env_title env) in
   run! ask (env_waitForTimeout env) in
   let! allCookies := ask (env_cookies env) in
   fun w =>
     let expires := now w + maxJwtAgeH (config w) * 60 * 60 * 1000 in
     (run! modify (set_authState
                {| token := Some (cookieString allCookies);
                   expiresAt := Some expires;
                   isAuthenticated := true |}) in
      saveCachedToken env
        {| access_token := cookieString allCookies;
           cookies := allCookies;
           cached_expiresAt := expires |}) w) w0.

(** [authenticate()] from the point where the cache was found unusable:
    the [try] / [catch] / [finally] around the login. *)
Definition authenticate_login (env : LoginEnv) : M unit :=
  finally
    (tryCatch (loginSteps env)
       (fun error =>
          run! modify (set_authState signedOut) in
          if instanceOf ClsAuthenticationTimeoutError error
             || instanceOf ClsCertificateLoadError error
             || instanceOf ClsBrowserNotFoundError error
          then throw error
          else throw (AuthenticationError "Authentication process failed" error)))
    (cleanup (env_close env)).

(** [destroy()]: the cache file is looked at and left alone. *)
Definition destroy (close : Outcome unit) : M unit :=
  run! modify (set_authState signedOut) in
  run! cleanup close in
  ret tt.

(** *** [ensureAuthenticated()] on the event loop *)

Definition promiseState (p : nat) (w : World) : PromiseState :=
  match promises w !! p with
  | Some cell => settled cell
  | None => Pending
  end.

Definition setCall (c : nat) (s : CallState) (w : World) : World :=
  set_calls (<[c := s]> (calls w)) w.

(** [await p] in call [c]: the continuation is queued at once when [p] is
    settled, and registered on [p] otherwise. *)
Definition await (c p : nat) (w : World) : World :=
  match promises w !! p with
  | Some cell =>
      match settled cell with
      | Pending =>
          set_promises
            (<[p := {| settled := Pending; reactions := reactions cell ++ [c] |}]>
               (promises w)) w
      | _ => set_microtasks (microtasks w ++ [c]) w
      end
  | None => w
  end.

(** [authenticate()] up to its first suspension. A usable cache file ends
    the operation at once; otherwise the login flow is left pending. The
    result is the promise of the operation. *)
Definition authenticate (w : World) : nat * World :=
  let p := length (promises w) in
  let w1 := emit (EvAuthenticate p) w in
  match loadCachedToken w1 with
  | Some cachedToken =>
      if isTokenValidFromCache w1 cachedToken then
        (p, set_promises (promises w1 ++ [{| settled := Fulfilled; reactions := [] |}])
              (set_authState
                 {| token := Some (access_token cachedToken);
                    expiresAt := Some (cached_expiresAt cachedToken);
                    isAuthenticated := true |} w1))
      else
        (p, set_promises (promises w1 ++ [{| settled := Pending; reactions := [] |}])
              (emit (EvLoginFlow p) w1))
  | None =>
      (p, set_promises (promises w1 ++ [{| settled := Pending; reactions := [] |}])
            (emit (EvLoginFlow p) w1))
  end.

(** [ensureAuthenticated()] from the validity check on (after the guard). *)
Definition ensureAuthenticated_check (c : nat) (w : World) : World :=
  if isTokenValid w then
    match token (authState w) with
    | Some tok => setCall c (Resolved tok) w
    | None => w
    end
  else
    let '(p, w1) := authenticate w in
    await c p (setCall c (AwaitingOwn p) (set_authPromise (Some p) w1)).

(** A new invocation of [ensureAuthenticated()], run to its first
    suspension or to its return. *)
Definition ensureAuthenticated (w : World) : World :=
  let c := length (calls w) in
  match authPromise w with
  | Some p =>
      await c p (set_calls (calls w ++ [AwaitingInFlight p]) w)
  | None =>
      ensureAuthenticated_check c (set_calls (calls w ++ [Running]) w)
  end.

(** The continuation of call [c] after its [await]. *)
Definition resume (c : nat) (w : World) : World :=
  match calls w !! c with
  | Some (AwaitingInFlight p) =>
      match promiseState p w with
      | Fulfilled => ensureAuthenticated_check c w
      | Rejected t => setCall c (RejectedWith t) w
      | Pending => w
      end
  | Some (AwaitingOwn p) =>
      match promiseState p w with
      | Fulfilled =>
          let w1 := set_authPromise None w in
          if tokenMissing (token (authState w1)) then
            setCall c (RejectedWith (Exn ClsError "Authentication failed - no token received")) w1
          else
            match token (authState w1) with
            | Some tok => setCall c (Resolved tok) w1
            | None => w1
            end
      | Rejected t => setCall c (RejectedWith t) w
      | Pending => w
      end
  | _ => w
  end.

(** The pending login of promise [p] runs to its end in environment
    [env]; the promise settles and its reactions are queued in order. *)
Definition settle (p : nat) (env : LoginEnv) (w : World) : World :=
  match promises w !! p with
  | Some cell =>
      match settled cell with
      | Pending =>
          let '(r, w1) := authenticate_login env w in
          let st := match r with
                    | Returns _ => Fulfilled
                    | Throws t => Rejected t
                    end in
          set_microtasks (microtasks w1 ++ reactions cell)
            (set_promises (<[p := {| settled := st; reactions := [] |}]> (promises w1)) w1)
      | _ => w
      end
  | None => w
  end.

(** One microtask. *)
Definition tick (w : World) : World :=
  match microtasks w with
  | c :: rest => resume c (set_microtasks rest w)
  | [] => w
  end.

Inductive Step :=
| Invoke                              (* a caller enters ensureAuthenticated() *)
| Settle (p : nat) (env : LoginEnv)   (* the login of p finishes *)
| Tick                                (* the next microtask runs *)
| Clock (t : Z)                       (* the clock reads t from now on *)
| Destroy (close : Outcome unit).     (* destroy() *)

Definition step (w : World) (s : Step) : World :=
  match s with
  | Invoke => ensureAuthenticated w
  | Settle p env => settle p env w
  | Tick => tick w
  | Clock t => set_now t w
  | Destroy close => snd (destroy close w)
  end.

Definition run (w : World) (schedule : list Step) : World :=
  fold_left step schedule w.

(** The operations that are in flight: the pending promises. *)
Definition inFlight (w : World) : list nat :=
  List.filter (fun p => match promiseState p w with Pending => true | _ => false end)
              (seq 0 (length (promises w))).

(** The logins started so far. *)
Definition loginsStarted (w : World) : list nat :=
  omap (fun e => match e with EvLoginFlow p => Some p | _ => None end) (events w).

Definition authenticateCalls (w : World) : list nat :=
  omap (fun e => match e with EvAuthenticate p => Some p | _ => None end) (events w).

(** A fresh authenticator in a process that starts with cache file [f]. *)
Definition start (cfg : ServerConfig) (f : option CachedToken) (t : Z) : World :=
  {| config := cfg; authState := signedOut; authPromise := None;
     browser := None; context := None; page := None;
     tokenCacheFile := f; now := t;
     promises := []; calls := []; microtasks := []; events := [] |}.

(** Contacts with the vendor: browser launches and navigations. *)
Definition vendorContacts (w : World) : list Event :=
  List.filter (fun e => match e with
                        | EvBrowserLaunch | EvNavigate _ => true
                        | _ => false
                        end) (events w).

(** Nothing of the authenticator is running. *)
Definition quiescent (w : World) : Prop :=
  authPromise w = None /\ microtasks w = [].

(** A lone call of [ensureAuthenticated()] returns [tok] and neither
    starts a login nor contacts the vendor. *)
Definition servedFromCache (w : World) (tok : string) : Prop :=
  let w' := run w [Invoke; Tick] in
  calls w' !! length (calls w) = Some (Resolved tok)
  /\ loginsStarted w' = loginsStarted w
  /\ vendorContacts w' = vendorContacts w.

(** A call of [ensureAuthenticated()] starts the login flow. *)
Definition startsLogin (w : World) : Prop :=
  loginsStarted (run w [Invoke]) = (loginsStarted w ++ [length (promises w)])%list.

(** The session record held in memory, and the one in the cache file. *)
Definition memoryRecord (w : World) (tok : string) (e : Z) : Prop :=
  token (authState w) = Some tok /\ expiresAt (authState w) = Some e.

Definition diskRecord (w : World) (tok : string) (e : Z) : Prop :=
  exists c, tokenCacheFile w = Some c /\ access_token c = tok /\ cached_expiresAt c = e.

(** A record is usable at instant [t]: it carries session material and
    [t] is more than the buffer before its expiry. *)
Definition usable (tok : string) (e t : Z) : Prop :=
  tok <> "" /\ t < e - bufferMs.

(** The record that a call would serve: the one in memory when usable,
    else the one on disk when usable. *)
Definition cachedUsable (w : World) (tok : string) : Prop :=
  (exists e, memoryRecord w tok e /\ usable tok e (now w))
  \/ ((forall tok' e', memoryRecord w tok' e' -> ~ usable tok' e' (now w))
      /\ exists e, diskRecord w tok e /\ usable tok e (now w)).

(** *** What the login flow leaves alone *)

(** The login flow touches neither the event loop nor the in-flight
    handle, and starts no operation of its own. *)
Record sameLoop (w w' : World) : Prop := {
  same_config : config w' = config w;
  same_authPromise : authPromise w' = authPromise w;
  same_now : now w' = now w;
  same_promises : promises w' = promises w;
  same_calls : calls w' = calls w;
  same_microtasks : microtasks w' = microtasks w;
  same_logins : loginsStarted w' = loginsStarted w;
  same_authenticate : authenticateCalls w' = authenticateCalls w
}.

Definition keepsLoop {A} (m : M A) : Prop := forall w, sameLoop w (snd (m w)).

(** The errors [authenticate()] lets out are of its four classes. *)
Definition typedError (t : Thrown) : bool :=
  instanceOf ClsAuthenticationTimeoutError t
  || instanceOf ClsCertificateLoadError t
  || instanceOf ClsBrowserNotFoundError t
  || instanceOf ClsAuthenticationError t.

(** *** Callers that arrive together *)

(** The world in which [S n] callers of a fresh process without cache
    file have entered [ensureAuthenticated()] at instant [t]: the first
    started the login and waits for it, the others wait in the guard. *)
Definition waitingWorld (cfg : ServerConfig) (t : Z) (n : nat) : World :=
  {| config := cfg; authState := signedOut; authPromise := Some 0%nat;
     browser := None; context := None; page := None;
     tokenCacheFile := None; now := t;
     promises := [{| settled := Pending; reactions := seq 0 (Datatypes.S n) |}];
     calls := AwaitingOwn 0 :: repeat (AwaitingInFlight 0) n;
     microtasks := [];
     events := [EvAuthenticate 0; EvLoginFlow 0] |}.

(** [S n] callers enter before any resolves; the login ends at instant
    [t1] in environment [env]; then the continuations run. *)
Definition arriveTogether (n : nat) (t1 : Z) (env : LoginEnv) : list Step :=
  (repeat Invoke (Datatypes.S n) ++ [Clock t1; Settle 0 env]
   ++ repeat Tick (Datatypes.S n))%list.

(** The login gets as far as navigating: the certificate is there and
    not empty, the browser is known and installed, and browser, context
    and page are created. *)
Definition reachesNavigation (env : LoginEnv) : Prop :=
  env_certExists env = true
  /\ (exists len, env_certRead env = Returns len /\ len <> 0)
  /\ knownBrowser (env_browserType env) = true
  /\ env_executablePath env = Returns tt
  /\ (exists b, env_launch env = Returns b)
  /\ (exists c, env_newContext env = Returns c)
  /\ (exists pg, env_newPage env = Returns pg).

(** The certificate file is missing, empty or unreadable. *)
Definition certificateUnusable (env : LoginEnv) : Prop :=
  env_certExists env = false
  \/ (env_certExists env = true
      /\ (env_certRead env = Returns 0 \/ exists t, env_certRead env = Throws t)).



(** *** Scenarios *)

Definition sessionCookie : Cookie :=
  {| cookie_name := "a"; cookie_value := "b"; cookie_domain := ".sap.com";
     cookie_path := "/"; cookie_expires := -1 |}.

(** A login in which every step succeeds and the browser holds the
    cookies [cs]. *)
Definition loginSucceeds (cs : list Cookie) : LoginEnv :=
  {| env_certExists := true; env_certRead := Returns 2048;
     env_browserType := "chromium"; env_executablePath := Returns tt;
     env_launch := Returns 1%nat; env_newContext := Returns 2%nat;
     env_newPage := Returns 3%nat; env_race := Navigated;
     env_title := Returns "Home"; env_waitForTimeout := Returns tt;
     env_cookies := Returns cs; env_writeFile := Returns tt;
     env_close := Returns tt |}.

(** A login that finds no certificate file. *)
Definition certificateMissing : LoginEnv :=
  {| env_certExists := false; env_certRead := Returns 0;
     env_browserType := "chromium"; env_executablePath := Returns tt;
     env_launch := Returns 1%nat; env_newContext := Returns 2%nat;
     env_newPage := Returns 3%nat; env_race := Navigated;
     env_title := Returns "Home"; env_waitForTimeout := Returns tt;
     env_cookies := Returns []; env_writeFile := Returns tt;
     env_close := Returns tt |}.

(** A login in which every step succeeds but the cache file cannot be
    written. *)
Definition diskFull : LoginEnv :=
  {| env_certExists := true; env_certRead := Returns 2048;
     env_browserType := "chromium"; env_executablePath := Returns tt;
     env_launch := Returns 1%nat; env_newContext := Returns 2%nat;
     env_newPage := Returns 3%nat; env_race := Navigated;
     env_title := Returns "Home"; env_waitForTimeout := Returns tt;
     env_cookies := Returns [sessionCookie];
     env_writeFile := Throws (Exn ClsLibraryError "ENOSPC: no space left on device");
     env_close := Returns tt |}.

(** A login whose navigation is still going when the timer fires. *)
Definition navigationHangs : LoginEnv :=
  {| env_certExists := true; env_certRead := Returns 2048;
     env_browserType := "chromium"; env_executablePath := Returns tt;
     env_launch := Returns 1%nat; env_newContext := Returns 2%nat;
     env_newPage := Returns 3%nat; env_race := TimerFirst;
     env_title := Returns "Home"; env_waitForTimeout := Returns tt;
     env_cookies := Returns [sessionCookie]; env_writeFile := Returns tt;
     env_close := Returns tt |}.


(** What that login throws. *)
Definition certificateMissingError : Thrown :=
  CertificateLoadError "sap.pfx" (Exn ClsError "Certificate file not found: sap.pfx").

Definition configWithAge (hours : Z) : ServerConfig :=
  {| pfxPath := "sap.pfx"; pfxPassphrase := "secret"; maxJwtAgeH := hours |}.

(** A signed-in authenticator whose record in memory is [(tok, e)]. *)
Definition holding (tok : string) (e t : Z) : World :=
  {| config := configWithAge 12;
     authState := {| token := Some tok; expiresAt := Some e; isAuthenticated := true |};
     authPromise := None;
     browser := None; context := None; page := None;
     tokenCacheFile := None; now := t;
     promises := []; calls := []; microtasks := []; events := [] |}.

End Auth.

(* ===================================================================== *)
(** ** The notes API client ([SapNotesApiClient]) *)
(* ===================================================================== *)

Module Notes.

Record SapNoteResult := {
  result_id : JsVal;
  result_title : JsVal;
  result_summary : JsVal;
  result_language : JsVal;
  result_releaseDate : JsVal;
  result_component : JsVal;
  result_url : JsVal
}.

Record SapNoteSearchResponse := {
  results : list SapNoteResult;
  totalResults : JsVal;
  query : string
}.

Record SapNoteDetail := {
  detail_id : JsVal;
  detail_title : JsVal;
  detail_summary : JsVal;
  detail_content : JsVal;
  detail_language : JsVal;
  detail_releaseDate : JsVal;
  detail_component : JsVal;
  detail_priority : JsVal;
  detail_category : JsVal;
  detail_url : JsVal
}.

(** What [fetch] resolves to. *)
Record Response := {
  status : Z;
  text : Outcome string;      (* response.text() *)
  json : Outcome JsVal        (* response.json() *)
}.

(** [response.ok] *)
Definition ok (r : Response) : bool := (200 <=? status r) && (status r <=? 299).

Definition noteUrl (noteId : string) : string :=
  "https://launchpad.support.sap.com/#/notes/" ++ noteId.

(** *** Normalizing the answers of the vendor *)

Section Parsers.
(** [JSON.parse]: [None] when it throws a [SyntaxError]. *)
Variable JSON_parse : string -> option JsVal.
(** [Date.parse]: [None] for a string that is not a date. *)
Variable Date_parse : string -> option Z.

(** [new Date(v).toISOString().split('T')[0]] *)
Definition toISODate (v : JsVal) : Outcome string :=
  let timeValue :=
    match v with
    | JNum n => if (- maxTimeValue <=? n) && (n <=? maxTimeValue) then Some n else None
    | JBool b => Some (if b then 1 else 0)
    | JNull => Some 0
    | JUndefined => None
    | JStr s => Date_parse s
    | JArr _ | JObj _ => Date_parse (toStr v)
    end in
  match timeValue with
  | Some t => Returns (isoDate t)
  | None => Throws (RangeError "Invalid time value")
  end.

(** [v?.match(/\d{6,8}/)?.[0]] *)
Definition optMatchDigits (v : JsVal) : Outcome JsVal :=
  match v with
  | JUndefined | JNull => Returns JUndefined
  | JStr s => Returns (match matchDigits s with
                       | Some m => JStr m
                       | None => JUndefined
                       end)
  | _ => Throws (TypeError "match is not a function")
  end.

(** [v?.substring(0, 60)], evaluated for the log line. *)
Definition optSubstring (v : JsVal) : Outcome unit :=
  match v with
  | JUndefined | JNull | JStr _ => Returns tt
  | _ => Throws (TypeError "substring is not a function")
  end.

(** The body of the loop of [parseCoveoResponse] for one hit. *)
Definition parseCoveoItem (item : JsVal) : Outcome SapNoteResult :=
  if nullish item then Throws (TypeError "Cannot read properties of null (reading 'raw')")
  else
    let raw := prop "raw" item in
    let noteIdOutcome :=
      if truthy (optProp "mh_id" raw) then Returns (optProp "mh_id" raw)
      else match optMatchDigits (optProp "permanentid" raw) with
           | Throws t => Throws t
           | Returns m1 =>
               if truthy m1 then Returns m1
               else match optMatchDigits (prop "title" item) with
                    | Throws t => Throws t
                    | Returns m2 => Returns (m2 <||> JStr "unknown")
                    end
           end in
    match noteIdOutcome with
    | Throws t => Throws t
    | Returns noteId =>
        let languageArray :=
          optProp "language" raw <||> optProp "syslanguage" raw <||> JArr [] in
        let language :=
          if isArray languageArray then first languageArray
          else languageArray <||> JStr "EN" in
        let componentArray :=
          optProp "mh_app_component" raw
          <||> optProp "mh_all_hierarchical_component" raw <||> JArr [] in
        let component :=
          if isArray componentArray then first componentArray else componentArray in
        let releaseDateOutcome :=
          if truthy (optProp "date" raw) then toISODate (prop "date" raw)
          else Returns "Unknown" in
        match releaseDateOutcome with
        | Throws t => Throws t
        | Returns releaseDate =>
            let result :=
              {| result_id := noteId;
                 result_title := prop "title" item <||> JStr "Unknown Title";
                 result_summary :=
                   prop "excerpt" item <||> optProp "mh_description" raw
                   <||> JStr "No summary available";
                 result_language := language;
                 result_releaseDate := JStr releaseDate;
                 result_component := component;
                 result_url :=
                   optProp "mh_alt_url" raw <||> prop "clickUri" item
                   <||> JStr (noteUrl (toStr noteId)) |} in
            match optSubstring (prop "title" item) with
            | Throws t => Throws t
            | Returns _ => Returns result
            end
        end
    end.

(** [parseCoveoResponse(data)]: a hit that throws is skipped. *)
Definition parseCoveoResponse (data : JsVal) : Outcome (list SapNoteResult) :=
  if nullish data
  then Throws (TypeError "Cannot read properties of null (reading 'results')")
  else
    match prop "results" data with
    | JArr items =>
        Returns (omap (fun item => match parseCoveoItem item with
                                   | Returns r => Some r
                                   | Throws _ => None
                                   end) items)
    | _ => Returns []
    end.

(** The first match of [/<title>(.*?)<\/title>/i]: its group. *)
Fixpoint lazyUntilClose (s : string) : option string :=
  if startsWithCI "</title>" s then Some ""
  else match s with
       | String c s' =>
           if isLineTerminator c then None
           else match lazyUntilClose s' with
                | Some cap => Some (String c cap)
                | None => None
                end
       | EmptyString => None
       end.

Fixpoint matchTitle (html : string) : option string :=
  let here :=
    if startsWithCI "<title>" html then lazyUntilClose (dropChars 7 html) else None in
  match here with
  | Some cap => Some cap
  | None => match html with
            | String _ rest => matchTitle rest
            | EmptyString => None
            end
  end.

(** What [/SAP\s*-?\s*/i] consumes after the three letters. *)
Definition afterSap (s : string) : string :=
  let s1 := trimStart s in
  let s2 := match s1 with
            | String "-" r => r
            | _ => s1
            end in
  trimStart s2.

(** [s.replace(/SAP\s*-?\s*/i, '')] *)
Fixpoint replaceSap (s : string) : string :=
  if startsWithCI "sap" s then afterSap (dropChars 3 s)
  else match s with
       | String c r => String c (replaceSap r)
       | EmptyString => ""
       end.

Definition parseHtmlForNoteDetail (html noteId : string) : option SapNoteDetail :=
  let title :=
    match matchTitle html with
    | Some group => trim (replaceSap group)
    | None => "SAP Note " ++ noteId
    end in
  Some {| detail_id := JStr noteId;
          detail_title := JStr title;
          detail_summary := JStr "SAP Note details available at the provided URL";
          detail_content := JStr "Please visit the URL for complete note content";
          detail_language := JStr "EN";
          detail_releaseDate := JStr "Unknown";
          detail_component := JUndefined;
          detail_priority := JUndefined;
          detail_category := JUndefined;
          detail_url := JStr (noteUrl noteId) |}.

Definition mapToSapNoteDetail (item : JsVal) (noteId : string) : SapNoteDetail :=
  {| detail_id := prop "SapNote" item <||> prop "Id" item <||> prop "id" item
                  <||> JStr noteId;
     detail_title := prop "Title" item <||> prop "title" item <||> JStr "Unknown Title";
     detail_summary := prop "Summary" item <||> prop "summary" item
                       <||> prop "Description" item <||> JStr "No summary available";
     detail_content := prop "Content" item <||> prop "content" item <||> prop "Text" item
                       <||> prop "summary" item <||> JStr "Content not available";
     detail_language := prop "Language" item <||> prop "language" item <||> JStr "EN";
     detail_releaseDate := prop "ReleaseDate" item <||> prop "releaseDate" item
                           <||> prop "CreationDate" item <||> JStr "Unknown";
     detail_component := prop "Component" item <||> prop "component" item;
     detail_priority := prop "Priority" item <||> prop "priority" item;
     detail_category := prop "Category" item <||> prop "category" item;
     detail_url := JStr (noteUrl noteId) |}.

(** [parseNoteResponse(response, noteId)] *)
Definition parseNoteResponse (response : Response) (noteId : string)
  : Outcome (option SapNoteDetail) :=
  match text response with
  | Throws t => Throws t
  | Returns responseText =>
      match JSON_parse responseText with
      | Some jsonData =>
          (* jsonData.d on null throws inside the try and is caught *)
          if negb (nullish jsonData) && truthy (prop "d" jsonData)
          then Returns (Some (mapToSapNoteDetail (prop "d" jsonData) noteId))
          else Returns (parseHtmlForNoteDetail responseText noteId)
      | None => Returns (parseHtmlForNoteDetail responseText noteId)
      end
  end.

Definition redirectNotice (noteId : string) : string :=
  "This SAP Note exists but its content requires browser navigation to access."
  ++ String (ascii_of_nat 10) (String (ascii_of_nat 10)
  ("To view the complete note content:" ++ String (ascii_of_nat 10)
  ("1. Visit: https://launchpad.support.sap.com/#/notes/" ++ noteId
  ++ String (ascii_of_nat 10)
  ("2. Or access through: https://me.sap.com with your SAP credentials"
  ++ String (ascii_of_nat 10) (String (ascii_of_nat 10)
  "The note was successfully located but content extraction requires additional authentication steps."))))).

(** [parseRawNoteDetail(response, noteId)] *)
Definition parseRawNoteDetail (response : Response) (noteId : string)
  : Outcome (option SapNoteDetail) :=
  match text response with
  | Throws t => Throws t
  | Returns responseText =>
      let fromJson :=
        match JSON_parse responseText with
        | Some jsonData =>
            if truthy jsonData
               && truthy (prop "SapNote" jsonData <||> prop "id" jsonData
                          <||> prop "noteId" jsonData)
            then Some
              {| detail_id := prop "SapNote" jsonData <||> prop "id" jsonData
                              <||> prop "noteId" jsonData <||> JStr noteId;
                 detail_title := prop "Title" jsonData <||> prop "title" jsonData
                                 <||> prop "ShortText" jsonData
                                 <||> JStr ("SAP Note " ++ noteId);
                 detail_summary := prop "Summary" jsonData <||> prop "summary" jsonData
                                   <||> prop "Abstract" jsonData
                                   <||> prop "abstract" jsonData
                                   <||> JStr "SAP Note details";
                 detail_content := prop "Content" jsonData <||> prop "content" jsonData
                                   <||> prop "Text" jsonData <||> prop "LongText" jsonData
                                   <||> prop "Html" jsonData
                                   <||> JStr "Note content available at URL";
                 detail_language := prop "Language" jsonData <||> prop "language" jsonData
                                    <||> JStr "EN";
                 detail_releaseDate := prop "ReleaseDate" jsonData
                                       <||> prop "releaseDate" jsonData
                                       <||> prop "CreationDate" jsonData
                                       <||> JStr "Unknown";
                 detail_component := prop "Component" jsonData <||> prop "component" jsonData;
                 detail_priority := prop "Priority" jsonData <||> prop "priority" jsonData;
                 detail_category := prop "Category" jsonData <||> prop "category" jsonData
                                    <||> prop "Type" jsonData;
                 detail_url := JStr (noteUrl noteId) |}
            else None
        | None => None
        end in
      match fromJson with
      | Some note => Returns (Some note)
      | None =>
          if (includes "fragmentAfterLogin" responseText
              || includes "document.cookie" responseText)
             && negb (String.eqb noteId "") && isNoteNumber noteId
          then Returns (Some
            {| detail_id := JStr noteId;
               detail_title := JStr ("SAP Note " ++ noteId);
               detail_summary :=
                 JStr "Note found via raw API - full content requires browser access";
               detail_content := JStr (redirectNotice noteId);
               detail_language := JStr "EN";
               detail_releaseDate := JStr "Unknown";
               detail_component := JUndefined;
               detail_priority := JUndefined;
               detail_category := JUndefined;
               detail_url := JStr (noteUrl noteId) |})
          else Returns (parseHtmlForNoteDetail responseText noteId)
      end
  end.

End Parsers.

(** *** The pooled browser and the requests *)

Inductive Event :=
| EvLaunch (b : nat)
| EvNewContext (b c : nat)
| EvAddCookies (c : nat)
| EvNewPage (c pg : nat)
| EvGoto (pg : nat) (url : string)
| EvClosePage (pg : nat)
| EvCloseBrowser (b : nat)
| EvSearchRequest (bearer q : string) (numberOfResults : Z)
| EvDetailBrowser                      (* the transient browser of strategy 1 *)
| EvFetch (url : string).

(** The fields of the client, the local variable [page] of the running
    [getCoveoToken], the next unused handle, and what was done so far. *)
Record World := {
  browser : option nat;
  browserContext : option nat;
  browserLastUsed : Z;
  page : option nat;
  nextHandle : nat;
  events : list Event
}.

Definition M : Type -> Type := Eff World.

Definition set_pool (b c : option nat) (w : World) : World :=
  {| browser := b; browserContext := c; browserLastUsed := browserLastUsed w;
     page := page w; nextHandle := nextHandle w; events := events w |}.

Definition set_browserLastUsed (t : Z) (w : World) : World :=
  {| browser := browser w; browserContext := browserContext w; browserLastUsed := t;
     page := page w; nextHandle := nextHandle w; events := events w |}.

Definition set_page (pg : option nat) (w : World) : World :=
  {| browser := browser w; browserContext := browserContext w;
     browserLastUsed := browserLastUsed w;
     page := pg; nextHandle := nextHandle w; events := events w |}.

Definition emit (e : Event) (w : World) : World :=
  {| browser := browser w; browserContext := browserContext w;
     browserLastUsed := browserLastUsed w;
     page := page w; nextHandle := nextHandle w; events := (events w ++ [e])%list |}.

(** A handle that no earlier object has. *)
Definition fresh : M nat :=
  fun w => (Returns (nextHandle w),
            {| browser := browser w; browserContext := browserContext w;
               browserLastUsed := browserLastUsed w;
               page := page w; nextHandle := Datatypes.S (nextHandle w);
               events := events w |}).

Definition BROWSER_IDLE_TIMEOUT : Z := 5 * 60 * 1000.

Definition rawNotesUrl : string := "https://me.sap.com/backend/raw/sapnotes".
Definition baseUrl : string := "https://launchpad.support.sap.com".
Definition coveoSearchUrl : string :=
  "https://sapamericaproductiontyfzmfz0.org.coveo.com/rest/search/v2".
Definition coveoOrgId : string := "sapamericaproductiontyfzmfz0".
Definition homeUrl : string := "https://me.sap.com/home".
Definition searchPageUrl : string :=
  "https://me.sap.com/knowledge/search/%7B%22q%22%3A%22test%22%2C%22tab%22%3A%22Support%22%2C%22f%22%3A%7B%22documenttype%22%3A%5B%22SAP%20Note%22%5D%7D%7D".

Record ParsedCookie := {
  pc_name : string;
  pc_value : string;
  pc_domain : string;
  pc_path : string
}.

(** [s.split(sep)] for a separator of one character. *)
Fixpoint splitOn (sep : ascii) (s : string) : list string :=
  match s with
  | EmptyString => [""]
  | String c s' =>
      if Ascii.eqb c sep then "" :: splitOn sep s'
      else match splitOn sep s' with
           | piece :: rest => String c piece :: rest
           | [] => [String c ""]
           end
  end.

(** The parts of [s] before and after its first [sep], when it has one. *)
Fixpoint cutAt (sep : ascii) (s : string) : option (string * string) :=
  match s with
  | EmptyString => None
  | String c s' =>
      if Ascii.eqb c sep then Some ("", s')
      else match cutAt sep s' with
           | Some (before, after) => Some (String c before, after)
           | None => None
           end
  end.

Fixpoint endsWithChar (c : ascii) (s : string) : bool :=
  match s with
  | EmptyString => false
  | String a EmptyString => Ascii.eqb a c
  | String _ s' => endsWithChar c s'
  end.

(** [s.slice(0, -1)] *)
Fixpoint dropLast (s : string) : string :=
  match s with
  | EmptyString => ""
  | String _ EmptyString => ""
  | String a s' => String a (dropLast s')
  end.

Fixpoint lowerAscii (s : string) : string :=
  match s with
  | EmptyString => ""
  | String c s' => String (toLowerAscii c) (lowerAscii s')
  end.

Definition cookieAttributes : list string :=
  ["path"; "domain"; "secure"; "httponly"; "samesite"; "max-age"; "expires"].

Definition parseCookiePair (pair : string) : option ParsedCookie :=
  let trimmed := trim pair in
  match cutAt "=" trimmed with
  | Some (before, after) =>
      let name := trim before in
      let value0 := trim after in
      let value :=
        if startsWith doubleQuote value0 && endsWithChar (ascii_of_nat 34) value0
        then dropLast (dropChars 1 value0) else value0 in
      if negb (String.eqb name "") && negb (String.eqb value "")
         && negb (existsb (String.eqb (lowerAscii name)) cookieAttributes)
      then Some {| pc_name := name; pc_value := value;
                   pc_domain := ".sap.com"; pc_path := "/" |}
      else None
  | None => None
  end.

Definition parseCookiesFromToken (token : string) : list ParsedCookie :=
  omap parseCookiePair (splitOn ";" token).

Definition noSemicolon (c : ascii) : bool := negb (Ascii.eqb c ";").
Definition noEquals (c : ascii) : bool := negb (Ascii.eqb c "=").
Definition noSpace (c : ascii) : bool := negb (isWhiteSpace c).

(** A character that can stand in the value of a cookie as it is: no
    white space, no semicolon and no double quote. *)
Definition valueChar (c : ascii) : bool :=
  noSpace c && noSemicolon c && negb (Ascii.eqb c (ascii_of_nat 34)).

(** The same for its name, which has no equals sign either. *)
Definition nameChar (c : ascii) : bool := valueChar c && noEquals c.

(** A cookie of the browser whose name and value pass through the
    [Cookie] header unchanged. *)
Definition headerSafe (c : Auth.Cookie) : Prop :=
  Auth.cookie_name c <> "" /\ allChars nameChar (Auth.cookie_name c) = true
  /\ Auth.cookie_value c <> "" /\ allChars valueChar (Auth.cookie_value c) = true
  /\ existsb (String.eqb (lowerAscii (Auth.cookie_name c))) cookieAttributes = false.

(** What [parseCookiesFromToken] keeps of a cookie. *)
Definition reparsed (c : Auth.Cookie) : ParsedCookie :=
  {| pc_name := Auth.cookie_name c; pc_value := Auth.cookie_value c;
     pc_domain := ".sap.com"; pc_path := "/" |}.

(** The answers of the browser during one [getCoveoToken]. *)
Record TokenEnv := {
  tk_now : Z;                              (* Date.now() *)
  tk_isConnected : bool;                   (* this.browser.isConnected() *)
  tk_launch : Outcome unit;                (* chromium.launch *)
  tk_newContext : Outcome unit;
  tk_cachedCookies : nat;                  (* getCachedCookies().length *)
  tk_addCookies : Outcome unit;
  tk_newPage : Outcome bool;               (* false: a falsy page *)
  tk_homeGoto : Outcome unit;
  tk_wasRedirectedToLogin : bool;          (* set by the response listener *)
  tk_currentUrl : string;                  (* page.url() after the home page *)
  tk_wait1 : Outcome unit;                 (* waitForTimeout(1000) *)
  tk_searchGoto : Outcome unit;
  tk_wait2 : Outcome unit;                 (* waitForTimeout(2000) *)
  tk_captured : option string;             (* set by the request listener *)
  tk_evaluate : Outcome (option string)    (* tokenData.token *)
}.

Definition isErrorObject (t : Thrown) : bool :=
  match t with
  | NonError _ => false
  | _ => true
  end.

(** A string that is there and not empty. *)
Definition truthyString (o : option string) : option string :=
  match o with
  | Some s => if String.eqb s "" then None else Some s
  | None => None
  end.

Definition sessionExpiredMessage : string :=
  "Session expired - authentication required. Run test:auth to refresh credentials.".

(** [await this.browser.close().catch(() => {}); this.browser = null;
    this.browserContext = null] on a browser that is held. *)
Definition dropPool : M unit :=
  fun w => match browser w with
           | Some b => (Returns tt, set_pool None None (emit (EvCloseBrowser b) w))
           | None => (Returns tt, w)
           end.

(** The branch of [getCoveoToken] that launches the browser to keep. *)
Definition launchPersistentBrowser (env : TokenEnv) (sapToken : string) : M unit :=
  run! ask (tk_launch env) in
  let! b := fresh in
  run! modify (fun w => emit (EvLaunch b) (set_pool (Some b) (browserContext w) w)) in
  run! ask (tk_newContext env) in
  let! c := fresh in
  run! modify (fun w => emit (EvNewContext b c) (set_pool (browser w) (Some c) w)) in
  if (0 <? tk_cachedCookies env)%nat
  then run! modify (emit (EvAddCookies c)) in ask (tk_addCookies env)
  else match parseCookiesFromToken sapToken with
       | [] => ret tt
       | _ => run! modify (emit (EvAddCookies c)) in ask (tk_addCookies env)
       end.

(** The [try] block of [getCoveoToken]. *)
Definition deriveToken (env : TokenEnv) (sapToken : string) : M string :=
  run! (fun w =>
          if BROWSER_IDLE_TIMEOUT <? tk_now env - browserLastUsed w
          then dropPool w else (Returns tt, w)) in
  run! (fun w =>
          match browser w with
          | Some _ =>
              if tk_isConnected env then (Returns tt, w)
              else launchPersistentBrowser env sapToken w
          | None => launchPersistentBrowser env sapToken w
          end) in
  run! modify (set_browserLastUsed (tk_now env)) in
  let! pg := (fun w =>
                match browserContext w with
                | Some c =>
                    (let! created := ask (tk_newPage env) in
                     if created then
                       let! pg := fresh in
                       run! modify (fun w => emit (EvNewPage c pg) (set_page (Some pg) w)) in
                       ret pg
                     else throw (Exn ClsError "Failed to create browser page")) w
                | None =>
                    (Throws (TypeError "Cannot read properties of null (reading 'newPage')"), w)
                end) in
  run! modify (emit (EvGoto pg homeUrl)) in
  run! tryCatch (ask (tk_homeGoto env)) (fun _ => ret tt) in
  if tk_wasRedirectedToLogin env
     || includes "authentication." (tk_currentUrl env)
     || includes "saml/login" (tk_currentUrl env)
  then throw (Exn ClsError sessionExpiredMessage)
  else
    run! ask (tk_wait1 env) in
    run! modify (emit (EvGoto pg searchPageUrl)) in
    run! tryCatch (ask (tk_searchGoto env))
           (fun searchGotoError =>
              throw (Exn ClsError
                ("Failed to load SAP search page: "
                 ++ (if isErrorObject searchGotoError
                     then errorMessage searchGotoError else "Navigation timeout")))) in
    run! ask (tk_wait2 env) in
    let! coveoToken :=
      match truthyString (tk_captured env) with
      | Some tok => ret (Some tok)
      | None => let! found := ask (tk_evaluate env) in ret (truthyString found)
      end in
    match coveoToken with
    | Some tok => ret tok
    | None => throw (Exn ClsError "Unable to extract Coveo token from SAP search page")
    end.

Definition SESSION_EXPIRED : Thrown := Exn ClsError "SESSION_EXPIRED".

(** [getCoveoToken(sapToken)] *)
Definition getCoveoToken (env : TokenEnv) (sapToken : string) : M string :=
  run! modify (set_page None) in
  finally
    (tryCatch (deriveToken env sapToken)
       (fun error =>
          if isErrorObject error && includes "Session expired" (errorMessage error)
          then run! dropPool in throw SESSION_EXPIRED
          else throw (Exn ClsError
                 ("Failed to get Coveo bearer token: "
                  ++ (if isErrorObject error then errorMessage error else "Unknown error")))))
    (fun w => match page w with
              | Some pg => (Returns tt, emit (EvClosePage pg) w)
              | None => (Returns tt, w)
              end).

(** What [searchNotes] throws when the derivation ends in [SESSION_EXPIRED]. *)
Definition searchFailedSessionExpired : Thrown :=
  Exn ClsError "SAP Notes search failed: SESSION_EXPIRED".

(** [cleanup()] of the client. *)
Definition cleanup : M unit := dropPool.

(** *** Search *)

Record SearchEnv := {
  se_token : TokenEnv;
  se_fetch : Outcome Response          (* the POST to the search API *)
}.

Section Pipeline.
Variable JSON_parse : string -> option JsVal.
Variable Date_parse : string -> option Z.

(** [searchNotes(query, token, maxResults)] *)
Definition searchNotes (env : SearchEnv) (query token : string) (maxResults : Z)
  : M SapNoteSearchResponse :=
  tryCatch
    (let! coveoToken := getCoveoToken (se_token env) token in
     run! modify (emit (EvSearchRequest coveoToken query maxResults)) in
     let! response := ask (se_fetch env) in
     run! (if negb (ok response) then
             let! errorText := ask (text response) in
             throw (Exn ClsError
                      ("Coveo API returned " ++ Z_to_string (status response) ++ ": "
                       ++ substring0 100 errorText))
           else ret tt) in
     let! data := ask (json response) in
     run! (if nullish data
           then throw (TypeError "Cannot read properties of null (reading 'totalCount')")
           else ret tt) in
     let! found := ask (parseCoveoResponse Date_parse data) in
     ret {| results := found;
            totalResults := prop "totalCount" data <||> JNum (Z.of_nat (length found));
            query := query |})
    (fun error =>
       throw (Exn ClsError ("SAP Notes search failed: " ++ errorMessage error))).

(** *** Detail retrieval *)

Record NoteEnv := {
  ne_playwright : Outcome (option SapNoteDetail);  (* the try block of getNoteWithPlaywright *)
  ne_fetch : string -> Outcome Response            (* fetch(url), by URL *)
}.

(** [getNoteWithPlaywright]: a transient browser; whatever its [try]
    block throws is thrown again under a prefix. *)
Definition getNoteWithPlaywright (env : NoteEnv) (noteId token : string)
  : M (option SapNoteDetail) :=
  run! modify (emit EvDetailBrowser) in
  tryCatch (ask (ne_playwright env))
    (fun error =>
       throw (Exn ClsError ("Playwright extraction failed: " ++ errorMessage error))).

Definition httpError (response : Response) : M Response :=
  let! errorText := ask (text response) in
  throw (Exn ClsError ("HTTP " ++ Z_to_string (status response) ++ ": "
                       ++ substring0 200 errorText)).

(** [makeRawRequest(endpoint, token)] *)
Definition makeRawRequest (env : NoteEnv) (endpoint token : string) : M Response :=
  run! modify (emit (EvFetch (rawNotesUrl ++ endpoint))) in
  let! response := ask (ne_fetch env (rawNotesUrl ++ endpoint)) in
  if negb (ok response) && negb (status response =? 404)
     && negb (status response =? 302) && negb (status response =? 301)
  then httpError response
  else ret response.

(** [makeRequest(endpoint, token)] *)
Definition makeRequest (env : NoteEnv) (endpoint token : string) : M Response :=
  run! modify (emit (EvFetch (baseUrl ++ endpoint))) in
  let! response := ask (ne_fetch env (baseUrl ++ endpoint)) in
  if negb (ok response) && negb (status response =? 404)
  then httpError response
  else ret response.

(** [healthCheck(token)] *)
Definition healthCheck (env : NoteEnv) (token : string) : M bool :=
  tryCatch
    (let! response := makeRequest env "/services/odata/svt/snogwscorr/$metadata" token in
     ret (ok response))
    (fun _ => ret false).

Definition rawEndpoint (noteId : string) : string :=
  "/Detail?q=" ++ noteId ++ "&t=E&isVTEnabled=false".

Definition fallbackEndpoints (noteId : string) : list string :=
  [ "/services/odata/svt/snogwscorr/Notes('" ++ noteId ++ "')?$format=json";
    "/services/odata/svt/snogwscorr/KnowledgeBaseEntries?$filter=SapNote eq '"
      ++ noteId ++ "'&$format=json";
    "/support/notes/" ++ noteId ].

(** Strategy 1, inside its [try]: the browser-driven raw endpoint. *)
Definition browserStrategy (env : NoteEnv) (noteId token : string)
  : M (option SapNoteDetail) :=
  getNoteWithPlaywright env noteId token.

(** Strategy 2, inside its [try]: the raw endpoint over plain HTTP. *)
Definition rawHttpStrategy (env : NoteEnv) (noteId token : string)
  : M (option SapNoteDetail) :=
  let! rawResponse := makeRawRequest env (rawEndpoint noteId) token in
  if ok rawResponse
  then ask (parseRawNoteDetail JSON_parse rawResponse noteId)
  else ret None.

(** Strategy 3, inside the [try] of one turn of its loop. *)
Definition fallbackStrategy (env : NoteEnv) (endpoint noteId token : string)
  : M (option SapNoteDetail) :=
  let! response := makeRequest env endpoint token in
  ask (parseNoteResponse JSON_parse response noteId).

(** [try { s } catch { }]: a strategy that throws yields nothing. *)
Definition swallowing (s : M (option SapNoteDetail)) : M (option SapNoteDetail) :=
  tryCatch s (fun _ => ret None).

(** The [for] loop over the fallback endpoints. *)
Fixpoint tryFallbacks (env : NoteEnv) (endpoints : list string) (noteId token : string)
  : M (option SapNoteDetail) :=
  match endpoints with
  | [] => ret None
  | endpoint :: rest =>
      let! note := swallowing (fallbackStrategy env endpoint noteId token) in
      match note with
      | Some n => ret (Some n)
      | None => tryFallbacks env rest noteId token
      end
  end.

(** [getNote(noteId, token)] *)
Definition getNote (env : NoteEnv) (noteId token : string) : M (option SapNoteDetail) :=
  tryCatch
    (let! note1 := swallowing (browserStrategy env noteId token) in
     match note1 with
     | Some n => ret (Some n)
     | None =>
         let! note2 := swallowing (rawHttpStrategy env noteId token) in
         match note2 with
         | Some n => ret (Some n)
         | None => tryFallbacks env (fallbackEndpoints noteId) noteId token
         end
     end)
    (fun error =>
       throw (Exn ClsError
                ("Failed to get SAP Note " ++ noteId ++ ": " ++ errorMessage error))).

(** A strategy yields a note when run in world [w]. *)
Definition yields (s : M (option SapNoteDetail)) (w : World) : Prop :=
  exists n, fst (s w) = Returns (Some n).

End Pipeline.

(** The two handles of the pool go together, and no handle in use is
    one that [fresh] will give out. *)
Definition poolInvariant (w : World) : Prop :=
  (browser w = None -> browserContext w = None)
  /\ (forall b, browser w = Some b -> (b < nextHandle w)%nat)
  /\ (forall c, browserContext w = Some c -> (c < nextHandle w)%nat).

(** A client that was just constructed. *)
Definition newClient : World :=
  {| browser := None; browserContext := None; browserLastUsed := 0;
     page := None; nextHandle := 0; events := [] |}.

(** No strategy reaches the vendor: every call to the outside throws. *)
Definition networkDown : NoteEnv :=
  {| ne_playwright := Throws (Exn ClsLibraryError "browserType.launch: Executable doesn't exist");
     ne_fetch := fun _ => Throws (Exn ClsLibraryError "fetch failed") |}.

(** The browser finds nothing and every endpoint answers 404 with an
    empty body. *)
Definition notFoundEverywhere : NoteEnv :=
  {| ne_playwright := Returns None;
     ne_fetch := fun _ => Returns {| status := 404; text := Returns "";
                                     json := Throws (Exn ClsLibraryError "Unexpected end of JSON input") |} |}.

(** A run of the token derivation and of the search in which every step
    succeeds, with bearer token [bearer] and answer [data]. *)
Definition allSucceeds (bearer : string) (data : JsVal) : SearchEnv :=
  {| se_token :=
       {| tk_now := 1000; tk_isConnected := true;
          tk_launch := Returns tt; tk_newContext := Returns tt;
          tk_cachedCookies := 1; tk_addCookies := Returns tt;
          tk_newPage := Returns true; tk_homeGoto := Returns tt;
          tk_wasRedirectedToLogin := false;
          tk_currentUrl := "https://me.sap.com/home";
          tk_wait1 := Returns tt; tk_searchGoto := Returns tt;
          tk_wait2 := Returns tt; tk_captured := Some bearer;
          tk_evaluate := Returns None |};
     se_fetch := Returns {| status := 200; text := Returns ""; json := Returns data |} |}.

(** The same run, landing on the login page after the home page. *)
Definition sessionGone : SearchEnv :=
  {| se_token :=
       {| tk_now := 1000; tk_isConnected := true;
          tk_launch := Returns tt; tk_newContext := Returns tt;
          tk_cachedCookies := 1; tk_addCookies := Returns tt;
          tk_newPage := Returns true; tk_homeGoto := Returns tt;
          tk_wasRedirectedToLogin := true;
          tk_currentUrl := "https://accounts.sap.com/saml2/idp/sso";
          tk_wait1 := Returns tt; tk_searchGoto := Returns tt;
          tk_wait2 := Returns tt; tk_captured := None;
          tk_evaluate := Returns None |};
     se_fetch := Returns {| status := 200; text := Returns ""; json := Returns JNull |} |}.

(** The client after a first derivation that ran into [sessionGone]. *)
Definition afterExpiry : World :=
  {| browser := None; browserContext := None; browserLastUsed := 1000;
     page := Some 2%nat; nextHandle := 3;
     events := [EvLaunch 0; EvNewContext 0 1; EvAddCookies 1; EvNewPage 1 2;
                EvGoto 2 homeUrl; EvCloseBrowser 0; EvClosePage 2] |}.

(** The client after a first derivation in which every step succeeded. *)
Definition afterSearch : World :=
  {| browser := Some 0%nat; browserContext := Some 1%nat; browserLastUsed := 1000;
     page := Some 2%nat; nextHandle := 3;
     events := [EvLaunch 0; EvNewContext 0 1; EvAddCookies 1; EvNewPage 1 2;
                EvGoto 2 homeUrl; EvGoto 2 searchPageUrl; EvClosePage 2] |}.

(** A derivation in which every step succeeds, ten minutes later. *)
Definition muchLater : SearchEnv :=
  {| se_token :=
       {| tk_now := 601000; tk_isConnected := true;
          tk_launch := Returns tt; tk_newContext := Returns tt;
          tk_cachedCookies := 1; tk_addCookies := Returns tt;
          tk_newPage := Returns true; tk_homeGoto := Returns tt;
          tk_wasRedirectedToLogin := false;
          tk_currentUrl := "https://me.sap.com/home";
          tk_wait1 := Returns tt; tk_searchGoto := Returns tt;
          tk_wait2 := Returns tt; tk_captured := Some "bearer";
          tk_evaluate := Returns None |};
     se_fetch := Returns {| status := 200; text := Returns ""; json := Returns JNull |} |}.

(** The token is derived, but the search API refuses the request. *)
Definition searchForbidden : SearchEnv :=
  {| se_token := se_token (allSucceeds "bearer" JNull);
     se_fetch := Returns {| status := 403; text := Returns "Forbidden";
                            json := Throws (Exn ClsLibraryError "Unexpected token") |} |}.

(** The requests of a run that went over the network by plain HTTP. *)
Definition httpRequests (w : World) : list Event :=
  List.filter (fun e => match e with
                        | EvFetch _ | EvSearchRequest _ _ _ => true
                        | _ => false
                        end) (events w).

End Notes.

(* ===================================================================== *)
(** ** The search tool of the official server ([mcp-server-official.ts]) *)
(* ===================================================================== *)

Module Server.
Import Notes.

Record ToolResult := {
  content_text : string;
  isError : bool;
  structuredContent : option SapNoteSearchResponse
}.

Inductive CallResult :=
| InvalidParams                   (* refused by the input schema *)
| Handled (r : ToolResult).

(** The input schema of [sap_note_search]:
    [{ q: z.string(), lang: z.enum(['EN', 'DE']).default('EN') }].
    The result is the pair of [q] and [lang] handed to the handler. *)
Definition searchInputSchema (args : JsVal) : option (string * string) :=
  match prop "q" args with
  | JStr q =>
      match prop "lang" args with
      | JUndefined => Some (q, "EN")
      | JStr lang =>
          if String.eqb lang "EN" || String.eqb lang "DE" then Some (q, lang) else None
      | _ => None
      end
  | _ => None
  end.

Definition newline : string := String (ascii_of_nat 10) "".

Definition noteLines (note : SapNoteResult) : string :=
  "**SAP Note " ++ toStr (result_id note) ++ "**" ++ newline
  ++ "Title: " ++ toStr (result_title note) ++ newline
  ++ "Summary: " ++ toStr (result_summary note) ++ newline
  ++ "Component: "
  ++ toStr ((result_component note <||> JNull) <||> JStr "Not specified") ++ newline
  ++ "Release Date: " ++ toStr (result_releaseDate note) ++ newline
  ++ "Language: " ++ toStr (result_language note) ++ newline
  ++ "URL: " ++ toStr (result_url note) ++ newline ++ newline.

Definition resultText (r : SapNoteSearchResponse) : string :=
  "Found " ++ toStr (totalResults r) ++ " SAP Note(s) for query: " ++ doubleQuote
  ++ query r ++ doubleQuote ++ newline ++ newline
  ++ String.concat "" (map noteLines (results r)).

Section Tools.
Variable Date_parse : string -> option Z.

(** The handler of [sap_note_search]. [authenticated] is what
    [await this.authenticator.ensureAuthenticated()] gave. *)
Definition searchHandler (authenticated : Outcome string) (env : SearchEnv)
    (q lang : string) : M ToolResult :=
  tryCatch
    (let! token := ask authenticated in
     let! searchResponse := searchNotes Date_parse env q token 10 in
     ret {| content_text := resultText searchResponse;
            isError := false;
            structuredContent := Some searchResponse |})
    (fun error =>
       ret {| content_text :=
                "Search failed: "
                ++ (if isErrorObject error then errorMessage error
                    else "Unknown search error");
              isError := true;
              structuredContent := None |}).

(** A call of the tool [sap_note_search] with arguments [args]. *)
Definition sap_note_search (authenticated : Outcome string) (env : SearchEnv)
    (args : JsVal) : M CallResult :=
  match searchInputSchema args with
  | Some (q, lang) =>
      let! r := searchHandler authenticated env q lang in ret (Handled r)
  | None => ret InvalidParams
  end.
End Tools.

(** *** The tool [sap_note_get] *)

Record NoteToolResult := {
  note_text : string;
  note_isError : bool;
  note_structured : option SapNoteDetail
}.

Inductive NoteCallResult :=
| NoteInvalidParams               (* refused by the input schema *)
| NoteHandled (r : NoteToolResult).

(** The input schema of [sap_note_get]:
    [{ id: z.string().regex(/^[0-9]{6,8}$/), lang: z.enum(['EN', 'DE']).default('EN') }]. *)
Definition getInputSchema (args : JsVal) : option (string * string) :=
  match prop "id" args with
  | JStr id =>
      if isNoteNumber id then
        match prop "lang" args with
        | JUndefined => Some (id, "EN")
        | JStr lang =>
            if String.eqb lang "EN" || String.eqb lang "DE" then Some (id, lang) else None
        | _ => None
        end
      else None
  | _ => None
  end.

(** The object [output] of the handler. *)
Definition noteOutput (noteDetail : SapNoteDetail) : SapNoteDetail :=
  {| detail_id := detail_id noteDetail;
     detail_title := detail_title noteDetail;
     detail_summary := detail_summary noteDetail;
     detail_content := detail_content noteDetail;
     detail_language := detail_language noteDetail;
     detail_releaseDate := detail_releaseDate noteDetail;
     detail_component := detail_component noteDetail <||> JNull;
     detail_priority := detail_priority noteDetail <||> JNull;
     detail_category := detail_category noteDetail <||> JNull;
     detail_url := detail_url noteDetail |}.

Definition detailText (output : SapNoteDetail) : string :=
  "**SAP Note " ++ toStr (detail_id output) ++ " - Detailed Information**"
  ++ newline ++ newline
  ++ "**Title:** " ++ toStr (detail_title output) ++ newline
  ++ "**Summary:** " ++ toStr (detail_summary output) ++ newline
  ++ "**Component:** " ++ toStr (detail_component output <||> JStr "Not specified")
  ++ newline
  ++ "**Priority:** " ++ toStr (detail_priority output <||> JStr "Not specified")
  ++ newline
  ++ "**Category:** " ++ toStr (detail_category output <||> JStr "Not specified")
  ++ newline
  ++ "**Release Date:** " ++ toStr (detail_releaseDate output) ++ newline
  ++ "**Language:** " ++ toStr (detail_language output) ++ newline
  ++ "**URL:** " ++ toStr (detail_url output) ++ newline ++ newline
  ++ "**Content:**" ++ newline ++ toStr (detail_content output) ++ newline ++ newline.

(** The three results of the handler. *)
Definition noteNotFound (id : string) : NoteToolResult :=
  {| note_text := "SAP Note " ++ id ++ " not found or not accessible.";
     note_isError := true;
     note_structured := None |}.

Definition noteFound (noteDetail : SapNoteDetail) : NoteToolResult :=
  {| note_text := detailText (noteOutput noteDetail);
     note_isError := false;
     note_structured := Some (noteOutput noteDetail) |}.

Definition retrievalFailed (id : string) (error : Thrown) : NoteToolResult :=
  {| note_text := "Failed to retrieve SAP Note " ++ id ++ ": "
                  ++ (if isErrorObject error then errorMessage error
                      else "Unknown retrieval error");
     note_isError := true;
     note_structured := None |}.


Section NoteTools.
Variable JSON_parse : string -> option JsVal.

(** The handler of [sap_note_get]. *)
Definition getHandler (authenticated : Outcome string) (env : NoteEnv)
    (id lang : string) : M NoteToolResult :=
  tryCatch
    (let! token := ask authenticated in
     let! noteDetail := getNote JSON_parse env id token in
     match noteDetail with
     | None => ret (noteNotFound id)
     | Some found => ret (noteFound found)
     end)
    (fun error => ret (retrievalFailed id error)).

(** A call of the tool [sap_note_get] with arguments [args]. *)
Definition sap_note_get (authenticated : Outcome string) (env : NoteEnv)
    (args : JsVal) : M NoteCallResult :=
  match getInputSchema args with
  | Some (id, lang) =>
      let! r := getHandler authenticated env id lang in ret (NoteHandled r)
  | None => ret NoteInvalidParams
  end.
End NoteTools.

End Server.

(* ===================================================================== *)
(** ** Direct token extraction ([coveo-token-direct.ts]) *)
(* ===================================================================== *)

Module CoveoDirect.

(** What [fetch] resolves to, as far as the module reads it. *)
Record DirectResponse := {
  dr_ok : bool;                               (* response.ok *)
  dr_coveoAuthToken : option string;          (* headers.get('x-coveo-auth-token') *)
  dr_authorization : option string;           (* headers.get('authorization') *)
  dr_json : Outcome JsVal                     (* response.json() *)
}.

(** How a [fetch] that carries the signal of the 15 second timer ends. *)
Inductive FetchOutcome :=
| Responds (response : DirectResponse)
| Aborted                            (* the timer fired: an error named AbortError *)
| Rejects (t : Thrown).              (* an error with another name *)

(** What a [catch (error)] receives: [error.name === 'AbortError'] or not. *)
Inductive Raised :=
| AbortError
| Other (t : Thrown).

Inductive Request :=
| GetSearchToken (cookie : string)   (* GET https://me.sap.com/api/search/token *)
| PostCoveoToken (cookie : string).  (* POST .../rest/search/v2/token *)

Record CoveoTokenResponse := {
  token : JsVal;
  expiresAt : Z
}.

(** The module variable [tokenCache] and the requests sent so far. *)
Record World := {
  tokenCache : gmap string CoveoTokenResponse;
  requests : list Request
}.

Definition emit (r : Request) (w : World) : World :=
  {| tokenCache := tokenCache w; requests := (requests w ++ [r])%list |}.

Definition set_tokenCache (m : gmap string CoveoTokenResponse) (w : World) : World :=
  {| tokenCache := m; requests := requests w |}.

Definition isPost (r : Request) : bool :=
  match r with
  | PostCoveoToken _ => true
  | GetSearchToken _ => false
  end.

Definition posts (w : World) : list Request := List.filter isPost (requests w).

(** The answers of the network and of the clock during one call. The
    answer to a POST depends on how many were sent before it. *)
Record DirectEnv := {
  de_searchToken : FetchOutcome;
  de_coveoToken : nat -> FetchOutcome;
  de_nowAtLookup : Z;                   (* Date.now() of the test of the cache *)
  de_nowAtStore : Z                     (* Date.now() when the entry is written *)
}.

(** A header that is there and not empty. *)
Definition header (h : option string) : option string :=
  match h with
  | Some s => if String.eqb s "" then None else Some s
  | None => None
  end.

(** [s.replace(p, '')] for a string pattern [p]. *)
Fixpoint removeFirst (p s : string) : string :=
  if startsWith p s then dropChars (String.length p) s
  else match s with
       | String c r => String c (removeFirst p r)
       | EmptyString => ""
       end.

Definition timeout : Z := 15000.

Definition noTokenAnywhere : Thrown :=
  Exn ClsError
    "Failed to obtain Coveo token - session may have expired. Run test:auth to refresh credentials.".

(** [data.token] when it is truthy; reading it from [null] throws. *)
Definition tokenOf (data : JsVal) : option (JsVal + Raised) :=
  if nullish data
  then Some (inr (Other (TypeError "Cannot read properties of null (reading 'token')")))
  else if truthy (prop "token" data) then Some (inl (prop "token" data))
  else None.

(** [getCoveoTokenFromDirectSearch(sapCookies)] *)
Definition getCoveoTokenFromDirectSearch (env : DirectEnv) (sapCookies : string)
    (w : World) : Outcome JsVal * World :=
  let w1 := emit (PostCoveoToken sapCookies) w in
  let tryBlock : JsVal + Raised :=
    match de_coveoToken env (length (posts w)) with
    | Aborted => inr AbortError
    | Rejects t => inr (Other t)
    | Responds response =>
        let authHeader :=
          match header (dr_coveoAuthToken response) with
          | Some h => Some h
          | None => header (dr_authorization response)
          end in
        match authHeader with
        | Some h => inl (JStr (removeFirst "Bearer " h))
        | None =>
            let fromBody :=
              if dr_ok response then
                match dr_json response with
                | Throws t => Some (inr (Other t))
                | Returns data => tokenOf data
                end
              else None in
            match fromBody with
            | Some r => r
            | None => inr (Other noTokenAnywhere)
            end
        end
    end in
  match tryBlock with
  | inl tok => (Returns tok, w1)
  | inr AbortError =>
      (Throws (Exn ClsError ("Coveo token extraction timed out after "
                             ++ Z_to_string timeout ++ "ms")), w1)
  | inr (Other error) => (Throws error, w1)
  end.

(** [getCoveoTokenDirect(sapCookies)] *)
Definition getCoveoTokenDirect (env : DirectEnv) (sapCookies : string)
    (w : World) : Outcome JsVal * World :=
  let w1 := emit (GetSearchToken sapCookies) w in
  let tryBlock : (JsVal + Raised) * World :=
    match de_searchToken env with
    | Aborted => (inr AbortError, w1)
    | Rejects t => (inr (Other t), w1)
    | Responds response =>
        let fromBody :=
          if dr_ok response then
            match dr_json response with
            | Throws t => Some (inr (Other t))
            | Returns data => tokenOf data
            end
          else None in
        match fromBody with
        | Some r => (r, w1)
        | None =>
            match getCoveoTokenFromDirectSearch env sapCookies w1 with
            | (Returns tok, w2) => (inl tok, w2)
            | (Throws t, w2) => (inr (Other t), w2)
            end
        end
    end in
  match tryBlock with
  | (inl tok, w2) => (Returns tok, w2)
  | (inr AbortError, w2) =>
      (Throws (Exn ClsError ("Coveo token fetch timed out after "
                             ++ Z_to_string timeout ++ "ms")), w2)
  | (inr (Other _), w2) => getCoveoTokenFromDirectSearch env sapCookies w2
  end.

(** [cached && cached.expiresAt && Date.now() < cached.expiresAt] *)
Definition unexpired (now : Z) (cached : CoveoTokenResponse) : bool :=
  negb (expiresAt cached =? 0) && (now <? expiresAt cached).

(** [getCachedCoveoToken(sapCookies, maxAgeMs)] *)
Definition getCachedCoveoToken (env : DirectEnv) (sapCookies : string) (maxAgeMs : Z)
    (w : World) : Outcome JsVal * World :=
  let fetched :=
    match getCoveoTokenDirect env sapCookies w with
    | (Returns tok, w1) =>
        (Returns tok,
         set_tokenCache
           (<[sapCookies := {| token := tok; expiresAt := de_nowAtStore env + maxAgeMs |}]>
              (tokenCache w1)) w1)
    | (Throws t, w1) => (Throws t, w1)
    end in
  match tokenCache w !! sapCookies with
  | Some cached => if unexpired (de_nowAtLookup env) cached then (Returns (token cached), w)
                   else fetched
  | None => fetched
  end.

Definition defaultMaxAgeMs : Z := 5 * 60 * 1000.

(** The call is not answered from the cache. *)
Definition cacheMiss (env : DirectEnv) (sapCookies : string) (w : World) : Prop :=
  forall cached, tokenCache w !! sapCookies = Some cached ->
                 unexpired (de_nowAtLookup env) cached = false.

Definition fetchTimedOut : Thrown :=
  Exn ClsError "Coveo token fetch timed out after 15000ms".

(** *** Scenarios *)

(** A process that has not asked for a token yet. *)
Definition noRequests : World :=
  {| tokenCache := empty; requests := [] |}.

(** The token endpoint of the vendor answers with the token [tok]; the
    entry is written at instant 1200. *)
Definition tokenEndpointAnswers (tok : string) (lookup : Z) : DirectEnv :=
  {| de_searchToken :=
       Responds {| dr_ok := true; dr_coveoAuthToken := None; dr_authorization := None;
                   dr_json := Returns (JObj [("token", JStr tok)]) |};
     de_coveoToken := fun _ => Rejects (Exn ClsLibraryError "fetch failed");
     de_nowAtLookup := lookup;
     de_nowAtStore := 1200 |}.

(** The token endpoint refuses the session and the search endpoint
    cannot be reached. *)
Definition allEndpointsFail : DirectEnv :=
  {| de_searchToken :=
       Responds {| dr_ok := false; dr_coveoAuthToken := None; dr_authorization := None;
                   dr_json := Returns JNull |};
     de_coveoToken := fun _ => Rejects (Exn ClsLibraryError "fetch failed");
     de_nowAtLookup := 1000;
     de_nowAtStore := 1200 |}.

(** The search endpoint refuses the request but names a token in its
    [authorization] header. *)
Definition headerNamesToken : DirectEnv :=
  {| de_searchToken := Rejects (Exn ClsLibraryError "fetch failed");
     de_coveoToken := fun _ =>
       Responds {| dr_ok := false; dr_coveoAuthToken := None;
                   dr_authorization := Some "Bearer abc";
                   dr_json := Returns JNull |};
     de_nowAtLookup := 1000;
     de_nowAtStore := 1200 |}.

End CoveoDirect.

(* ===================================================================== *)
(** * Properties *)
(* ===================================================================== *)

Module AuthFacts.
Import Auth.

Lemma lookup_snoc {A} (l : list A) x : (l ++ [x])%list !! length l = Some x.
Proof. rewrite lookup_app_r by lia. rewrite Nat.sub_diag. reflexivity. Qed.

Lemma insert_snoc {A} (l : list A) x y :
  <[length l := y]> (l ++ [x])%list = (l ++ [y])%list.
Proof. rewrite insert_app_r_alt by lia. rewrite Nat.sub_diag. reflexivity. Qed.

Lemma sameLoop_refl w : sameLoop w w.
Proof. split; reflexivity. Qed.

Lemma sameLoop_trans w1 w2 w3 : sameLoop w1 w2 -> sameLoop w2 w3 -> sameLoop w1 w3.
Proof. intros [] []. split; congruence. Qed.

Lemma keeps_ret {A} (a : A) : keepsLoop (ret a).
Proof. intros w. apply sameLoop_refl. Qed.

Lemma keeps_throw {A} t : keepsLoop (throw t : M A).
Proof. intros w. apply sameLoop_refl. Qed.

Lemma keeps_ask {A} (o : Outcome A) : keepsLoop (ask o).
Proof. intros w. apply sameLoop_refl. Qed.

Lemma keeps_modify f : (forall w, sameLoop w (f w)) -> keepsLoop (modify f).
Proof. intros H w. apply H. Qed.

Lemma keeps_bind {A B} (m : M A) (k : A -> M B) :
  keepsLoop m -> (forall a, keepsLoop (k a)) -> keepsLoop (bind m k).
Proof.
  intros Hm Hk w. unfold bind. specialize (Hm w).
  destruct (m w) as [[a|t] w1]; simpl in *; [|exact Hm].
  eapply sameLoop_trans; [exact Hm | apply Hk].
Qed.

Lemma keeps_tryCatch {A} (m : M A) h :
  keepsLoop m -> (forall t, keepsLoop (h t)) -> keepsLoop (tryCatch m h).
Proof.
  intros Hm Hh w. unfold tryCatch. specialize (Hm w).
  destruct (m w) as [[a|t] w1]; simpl in *; [exact Hm|].
  eapply sameLoop_trans; [exact Hm | apply Hh].
Qed.

Lemma keeps_finally {A} (m : M A) fin :
  keepsLoop m -> keepsLoop fin -> keepsLoop (finally m fin).
Proof.
  intros Hm Hf w. unfold finally. specialize (Hm w).
  destruct (m w) as [r w1]; simpl in *. specialize (Hf w1).
  destruct (fin w1) as [[u|t] w2]; simpl in *;
    eapply sameLoop_trans; eauto.
Qed.

Lemma keeps_reader {A} (f : World -> M A) :
  (forall w0, keepsLoop (f w0)) -> keepsLoop (fun w => f w w).
Proof. intros H w. apply H. Qed.

Lemma keeps_if {A} (b : bool) (m1 m2 : M A) :
  keepsLoop m1 -> keepsLoop m2 -> keepsLoop (if b then m1 else m2).
Proof. destruct b; auto. Qed.

Lemma same_set_authState s w : sameLoop w (set_authState s w).
Proof. split; reflexivity. Qed.

Lemma same_set_handles b c p w : sameLoop w (set_handles b c p w).
Proof. split; reflexivity. Qed.

Lemma same_set_tokenCacheFile f w : sameLoop w (set_tokenCacheFile f w).
Proof. split; reflexivity. Qed.

Lemma same_emit e w :
  match e with EvAuthenticate _ | EvLoginFlow _ => False | _ => True end ->
  sameLoop w (emit e w).
Proof.
  intros He. split; try reflexivity.
  - unfold loginsStarted, emit; simpl. rewrite omap_app. destruct e; simpl; try tauto; apply app_nil_r.
  - unfold authenticateCalls, emit; simpl. rewrite omap_app. destruct e; simpl; try tauto; apply app_nil_r.
Qed.

Lemma same_emit_write f w :
  sameLoop w (emit EvWriteCache (set_tokenCacheFile f w)).
Proof.
  eapply sameLoop_trans; [apply same_set_tokenCacheFile | apply same_emit; exact I].
Qed.

(** Walks through monadic code and shows that each step keeps the loop. *)
Ltac keeps_world :=
  first [ apply same_emit_write
        | apply same_emit; exact I
        | apply same_set_authState
        | apply same_set_handles
        | apply same_set_tokenCacheFile
        | apply sameLoop_refl ].

Ltac keeps :=
  lazymatch goal with
  | |- keepsLoop (bind _ _) => apply keeps_bind; [keeps | intros ?; keeps]
  | |- keepsLoop (tryCatch _ _) => apply keeps_tryCatch; [keeps | intros ?; keeps]
  | |- keepsLoop (finally _ _) => apply keeps_finally; keeps
  | |- keepsLoop (ret _) => apply keeps_ret
  | |- keepsLoop (throw _) => apply keeps_throw
  | |- keepsLoop (ask _) => apply keeps_ask
  | |- keepsLoop (modify _) => apply keeps_modify; intros ?; keeps_world
  | |- keepsLoop (if _ then _ else _) => apply keeps_if; keeps
  | |- keepsLoop (match ?x with _ => _ end) => destruct x; keeps
  | |- keepsLoop (fun _ => _) =>
      let w' := fresh "w" in
      intros w'; cbv beta zeta;
      lazymatch goal with
      | |- sameLoop w' (snd (?m w')) =>
          let H := fresh in assert (H : keepsLoop m); [keeps | apply H]
      end
  end.

Lemma keeps_cleanup close : keepsLoop (cleanup close).
Proof.
  intros w. unfold cleanup. destruct (browser w); [|apply sameLoop_refl].
  match goal with
  | |- sameLoop w (snd (?m w)) => assert (H : keepsLoop m); [keeps | apply H]
  end.
Qed.

Lemma keeps_loginSteps env : keepsLoop (loginSteps env).
Proof.
  unfold loginSteps, validateCertificate, getBrowserLauncher, checkBrowserAvailable,
    prepareClientCertificate, saveCachedToken.
  keeps.
Qed.

Lemma keeps_authenticate_login env : keepsLoop (authenticate_login env).
Proof.
  unfold authenticate_login. apply keeps_finally; [|apply keeps_cleanup].
  apply keeps_tryCatch; [apply keeps_loginSteps|].
  intros t. keeps.
Qed.

Lemma cleanup_returns close w : fst (cleanup close w) = Returns tt.
Proof.
  unfold cleanup. destruct (browser w); [|reflexivity].
  unfold finally, tryCatch, bind, modify, ask, ret. destruct close as [[]|]; reflexivity.
Qed.

Lemma cleanup_frame close w :
  authState (snd (cleanup close w)) = authState w /\
  tokenCacheFile (snd (cleanup close w)) = tokenCacheFile w /\
  browser (snd (cleanup close w)) = None.
Proof.
  unfold cleanup. destruct (browser w) eqn:Hb; [|auto].
  unfold finally, tryCatch, bind, modify, ask, ret. destruct close; auto.
Qed.

Lemma login_failure env w t w' :
  authenticate_login env w = (Throws t, w') ->
  authState w' = signedOut /\ typedError t = true.
Proof.
  unfold authenticate_login, finally, tryCatch.
  destruct (loginSteps env w) as [[u|e] w1].
  - pose proof (cleanup_returns (env_close env) w1) as Hr.
    destruct (cleanup (env_close env) w1) as [[?|?] ?]; simpl in Hr; congruence.
  - unfold bind, modify, throw.
    set (w2 := set_authState signedOut w1).
    pose proof (cleanup_returns (env_close env)) as Hr.
    pose proof (cleanup_frame (env_close env)) as Hf.
    unfold typedError.
    destruct (instanceOf ClsAuthenticationTimeoutError e
              || instanceOf ClsCertificateLoadError e
              || instanceOf ClsBrowserNotFoundError e) eqn:Hc.
    + specialize (Hr w2). specialize (Hf w2).
      destruct (cleanup (env_close env) w2) as [[?|?] w3]; simpl in *; [|congruence].
      intros [= <- <-]. split; [tauto|]. rewrite Hc. reflexivity.
    + specialize (Hr w2). specialize (Hf w2).
      destruct (cleanup (env_close env) w2) as [[?|?] w3]; simpl in *; [|congruence].
      intros [= <- <-]. split; [tauto|]. reflexivity.
Qed.

Lemma loginSteps_success env w u w1 :
  loginSteps env w = (Returns u, w1) ->
  exists cs, env_cookies env = Returns cs /\
    authState w1 =
      {| token := Some (cookieString cs);
         expiresAt := Some (now w + maxJwtAgeH (config w) * 60 * 60 * 1000);
         isAuthenticated := true |}.
Proof.
  unfold loginSteps, validateCertificate, getBrowserLauncher, checkBrowserAvailable,
    prepareClientCertificate, saveCachedToken, tryCatch, bind, modify, ask, ret, throw.
  repeat match goal with
  | |- context [match (if ?b then _ else _) with _ => _ end] => destruct b eqn:?
  | |- context [match ?x with _ => _ end] =>
      match x with
      | env_certRead _ => destruct x eqn:?
      | env_executablePath _ => destruct x eqn:?
      | env_launch _ => destruct x eqn:?
      | env_newContext _ => destruct x eqn:?
      | env_newPage _ => destruct x eqn:?
      | env_race _ => destruct x eqn:?
      | env_title _ => destruct x eqn:?
      | env_waitForTimeout _ => destruct x eqn:?
      | env_cookies _ => destruct x eqn:?
      | env_writeFile _ => destruct x eqn:?
      end
  | |- context [if ?b then _ else _] => destruct b eqn:?
  end; simpl; try discriminate;
  intros [= <- <-]; eexists; split; reflexivity.
Qed.

Lemma isTokenValid_spec w :
  0 <= now w ->
  isTokenValid w = true <->
  exists tok e, memoryRecord w tok e /\ usable tok e (now w).
Proof.
  intros Hnow. unfold isTokenValid, memoryRecord, usable, tokenMissing, expiryMissing, bufferMs.
  destruct (token (authState w)) as [tok|]; destruct (expiresAt (authState w)) as [e|]; simpl.
  - destruct (String.eqb_spec tok ""); simpl.
    + split; [discriminate|]. intros (?&?&[[= <-] _]&Hne&_). contradiction.
    + destruct (Z.eqb_spec e 0); simpl.
      * split; [discriminate|]. intros (?&?&[_ [= <-]]&_&Hlt). lia.
      * rewrite Z.ltb_lt. split.
        -- intros H. exists tok, e. auto.
        -- intros (?&?&[[= <-] [= <-]]&_&Hlt). exact Hlt.
  - destruct (String.eqb tok ""); simpl; (split; [discriminate|]); intros (?&?&[_ ?]&_); discriminate.
  - split; [discriminate|]. intros (?&?&[? _]&_); discriminate.
  - split; [discriminate|]. intros (?&?&[? _]&_); discriminate.
Qed.

Lemma isTokenValidFromCache_spec w c :
  0 <= now w ->
  isTokenValidFromCache w c = true <->
  usable (access_token c) (cached_expiresAt c) (now w).
Proof.
  intros Hnow. unfold isTokenValidFromCache, usable, bufferMs.
  destruct (String.eqb_spec (access_token c) ""); simpl.
  - split; [discriminate|]. intros [? _]; contradiction.
  - destruct (Z.eqb_spec (cached_expiresAt c) 0); simpl.
    + split; [discriminate|]. intros [_ ?]. lia.
    + rewrite Z.ltb_lt. tauto.
Qed.

Lemma invoke_memory_hit w tok :
  authPromise w = None -> isTokenValid w = true -> token (authState w) = Some tok ->
  run w [Invoke] = set_calls (calls w ++ [Resolved tok]) w.
Proof.
  intros Hp Hv Ht. unfold run; simpl. unfold ensureAuthenticated.
  rewrite Hp. unfold ensureAuthenticated_check.
  replace (isTokenValid (set_calls (calls w ++ [Running]) w)) with (isTokenValid w) by reflexivity.
  rewrite Hv. simpl. rewrite Ht. unfold setCall; simpl.
  rewrite insert_snoc. reflexivity.
Qed.

Lemma run_memory_hit w tok :
  quiescent w -> isTokenValid w = true -> token (authState w) = Some tok ->
  run w [Invoke; Tick] =
    set_calls (calls w ++ [Resolved tok]) w.
Proof.
  intros [Hp Hq] Hv Ht. unfold run; simpl. unfold ensureAuthenticated.
  rewrite Hp. unfold ensureAuthenticated_check.
  replace (isTokenValid (set_calls (calls w ++ [Running]) w)) with (isTokenValid w) by reflexivity.
  rewrite Hv. simpl. rewrite Ht. unfold setCall; simpl.
  rewrite insert_snoc. unfold tick; simpl. rewrite Hq. reflexivity.
Qed.

Lemma invoke_disk_hit w c :
  authPromise w = None -> isTokenValid w = false ->
  tokenCacheFile w = Some c -> isTokenValidFromCache w c = true ->
  events (run w [Invoke]) = (events w ++ [EvAuthenticate (length (promises w))])%list.
Proof.
  intros Hp Hv Hf Hc. unfold run; simpl. unfold ensureAuthenticated.
  rewrite Hp. unfold ensureAuthenticated_check.
  replace (isTokenValid (set_calls (calls w ++ [Running]) w)) with (isTokenValid w) by reflexivity.
  rewrite Hv. unfold authenticate, loadCachedToken; simpl. rewrite Hf.
  replace (isTokenValidFromCache _ c) with (isTokenValidFromCache w c) by reflexivity.
  rewrite Hc. unfold await; simpl. rewrite lookup_snoc; simpl. reflexivity.
Qed.

Lemma run_disk_hit w c :
  quiescent w -> isTokenValid w = false ->
  tokenCacheFile w = Some c -> isTokenValidFromCache w c = true ->
  let w' := run w [Invoke; Tick] in
  calls w' = (calls w ++ [Resolved (access_token c)])%list
  /\ events w' = (events w ++ [EvAuthenticate (length (promises w))])%list
  /\ authPromise w' = None.
Proof.
  intros [Hp Hq] Hv Hf Hc. unfold run; simpl. unfold ensureAuthenticated.
  rewrite Hp. unfold ensureAuthenticated_check.
  replace (isTokenValid (set_calls (calls w ++ [Running]) w)) with (isTokenValid w) by reflexivity.
  rewrite Hv. unfold authenticate, loadCachedToken; simpl. rewrite Hf.
  replace (isTokenValidFromCache _ c) with (isTokenValidFromCache w c) by reflexivity.
  rewrite Hc. unfold await; simpl. rewrite lookup_snoc; simpl.
  unfold tick; simpl. rewrite Hq; simpl.
  unfold resume; simpl. rewrite insert_snoc, lookup_snoc.
  unfold promiseState; simpl. rewrite lookup_snoc; simpl.
  assert (Hne : String.eqb (access_token c) "" = false).
  { unfold isTokenValidFromCache in Hc. destruct (String.eqb (access_token c) ""); [discriminate|reflexivity]. }
  rewrite Hne. unfold setCall; simpl. rewrite !insert_snoc. auto.
Qed.

Lemma run_miss w :
  quiescent w -> isTokenValid w = false ->
  (forall c, tokenCacheFile w = Some c -> isTokenValidFromCache w c = false) ->
  let w' := run w [Invoke; Tick] in
  calls w' = (calls w ++ [AwaitingOwn (length (promises w))])%list
  /\ events (run w [Invoke]) =
       (events w ++ [EvAuthenticate (length (promises w)); EvLoginFlow (length (promises w))])%list.
Proof.
  intros [Hp Hq] Hv Hf. unfold run; simpl. unfold ensureAuthenticated.
  rewrite Hp. unfold ensureAuthenticated_check.
  replace (isTokenValid (set_calls (calls w ++ [Running]) w)) with (isTokenValid w) by reflexivity.
  rewrite Hv. unfold authenticate, loadCachedToken; simpl.
  destruct (tokenCacheFile w) as [c|] eqn:Hc.
  - replace (isTokenValidFromCache _ c) with (isTokenValidFromCache w c) by reflexivity.
    rewrite (Hf c eq_refl). unfold await; simpl. rewrite lookup_snoc; simpl.
    unfold tick; simpl. rewrite Hq; simpl. rewrite insert_snoc.
    rewrite <- app_assoc. auto.
  - unfold await; simpl. rewrite lookup_snoc; simpl.
    unfold tick; simpl. rewrite Hq; simpl. rewrite insert_snoc.
    rewrite <- app_assoc. auto.
Qed.

Lemma loginsStarted_snoc_authenticate w l p :
  events w = (l ++ [EvAuthenticate p])%list ->
  loginsStarted w = omap (fun e => match e with EvLoginFlow q => Some q | _ => None end) l.
Proof. unfold loginsStarted. intros ->. rewrite omap_app. simpl. apply app_nil_r. Qed.

Lemma vendorContacts_app w l l' :
  events w = (l ++ l')%list ->
  forallb (fun e => match e with EvBrowserLaunch | EvNavigate _ => false | _ => true end) l' = true ->
  vendorContacts w = List.filter (fun e => match e with
                        | EvBrowserLaunch | EvNavigate _ => true
                        | _ => false
                        end) l.
Proof.
  unfold vendorContacts. intros -> H. rewrite List.filter_app.
  rewrite <- (app_nil_r (List.filter _ l)) at 2. f_equal.
  induction l' as [|e l' IH]; [reflexivity|]. simpl in *.
  apply andb_true_iff in H as [He Hl]. destruct e; simpl in *; try discriminate; auto.
Qed.

Lemma app_snoc_neq {A} (l : list A) x : l <> (l ++ [x])%list.
Proof. intros H. apply (f_equal (@length A)) in H. rewrite length_app in H. simpl in H. lia. Qed.

Lemma served_iff_usable (w : World) :
  quiescent w -> 0 <= now w ->
  (forall tok, servedFromCache w tok <-> cachedUsable w tok)
  /\ (startsLogin w <-> ~ exists tok, cachedUsable w tok).
Proof.
  intros Hq Hnow. pose proof Hq as [Hp Hm].
  destruct (isTokenValid w) eqn:Hv.
  - (* the record in memory is served *)
    pose proof (proj1 (isTokenValid_spec w Hnow) Hv) as (tok0 & e0 & [Ht He] & Hu).
    assert (Hcu : forall tok, cachedUsable w tok <-> tok = tok0).
    { intros tok. split.
      - intros [(e & [Ht' _] & _) | [Hno _]]; [congruence|].
        exfalso. eapply Hno; [split; eassumption|exact Hu].
      - intros ->. left. exists e0. exact (conj (conj Ht He) Hu). }
    split.
    + intros tok. rewrite Hcu. unfold servedFromCache.
      rewrite (run_memory_hit w tok0 Hq Hv Ht). simpl. rewrite lookup_snoc.
      split; [intros ([= ->] & _); reflexivity | intros ->; auto].
    + unfold startsLogin. rewrite (invoke_memory_hit w tok0 Hp Hv Ht).
      split.
      * intros H. exfalso. exact (app_snoc_neq _ _ H).
      * intros H. exfalso. apply H. exists tok0. apply Hcu. reflexivity.
  - assert (Hno : forall tok' e', memoryRecord w tok' e' -> ~ usable tok' e' (now w)).
    { intros tok' e' Hr Hu. assert (isTokenValid w = true); [|congruence].
      apply isTokenValid_spec; eauto. }
    destruct (tokenCacheFile w) as [c|] eqn:Hf;
      [destruct (isTokenValidFromCache w c) eqn:Hc|].
    + (* the record on disk is served *)
      pose proof (proj1 (isTokenValidFromCache_spec w c Hnow) Hc) as Hu.
      pose proof (run_disk_hit w c Hq Hv Hf Hc) as (Hcalls & Hev & _).
      pose proof (invoke_disk_hit w c Hp Hv Hf Hc) as Hev1.
      assert (Hcu : forall tok, cachedUsable w tok <-> tok = access_token c).
      { intros tok. split.
        - intros [(e & Hr & Hu') | [_ (e & (c' & Hc' & <- & _) & _)]].
          + exfalso. eapply Hno; eassumption.
          + congruence.
        - intros ->. right. split; [exact Hno|].
          exists (cached_expiresAt c). split; [|exact Hu]. exists c. auto. }
      split.
      * intros tok. rewrite Hcu. unfold servedFromCache.
        rewrite Hcalls, lookup_snoc.
        rewrite (loginsStarted_snoc_authenticate _ _ _ Hev).
        rewrite (vendorContacts_app _ _ _ Hev eq_refl).
        split; [intros ([= ->] & _); reflexivity | intros ->; auto].
      * unfold startsLogin.
        rewrite (loginsStarted_snoc_authenticate _ _ _ Hev1).
        split.
        -- intros H. exfalso. exact (app_snoc_neq _ _ H).
        -- intros H. exfalso. apply H. exists (access_token c). apply Hcu. reflexivity.
    + (* neither record is usable: the login flow starts *)
      assert (Hmiss : forall c', Some c = Some c' -> isTokenValidFromCache w c' = false)
        by (intros c' [= <-]; exact Hc).
      rewrite <- Hf in Hmiss.
      pose proof (run_miss w Hq Hv Hmiss) as (Hcalls & Hev).
      assert (Hcu : forall tok, ~ cachedUsable w tok).
      { intros tok [(e & Hr & Hu') | [_ (e & (c' & Hc' & <- & <-) & Hu')]].
        - eapply Hno; eassumption.
        - assert (c' = c) by congruence. subst c'.
          apply isTokenValidFromCache_spec in Hu'; [congruence|exact Hnow]. }
      split.
      * intros tok. split; [|intros H; exfalso; exact (Hcu tok H)].
        unfold servedFromCache. rewrite Hcalls, lookup_snoc. intros ([=] & _).
      * unfold startsLogin, loginsStarted. rewrite Hev. rewrite omap_app. simpl.
        split; [intros _ (tok & H); exact (Hcu tok H) | reflexivity].
    + assert (Hmiss : forall c', tokenCacheFile w = Some c' -> isTokenValidFromCache w c' = false)
        by (intros c'; rewrite Hf; discriminate).
      pose proof (run_miss w Hq Hv Hmiss) as (Hcalls & Hev).
      assert (Hcu : forall tok, ~ cachedUsable w tok).
      { intros tok [(e & Hr & Hu') | [_ (e & (c' & Hc' & _) & _)]].
        - eapply Hno; eassumption.
        - congruence. }
      split.
      * intros tok. split; [|intros H; exfalso; exact (Hcu tok H)].
        unfold servedFromCache. rewrite Hcalls, lookup_snoc. intros ([=] & _).
      * unfold startsLogin, loginsStarted. rewrite Hev. rewrite omap_app. simpl.
        split; [intros _ (tok & H); exact (Hcu tok H) | reflexivity].
Qed.


Example cached_one_hour :
  servedFromCache (holding "a=b" (1000 + 60 * 60 * 1000) 1000) "a=b".
Proof.
  apply (served_iff_usable (holding "a=b" (1000 + 60 * 60 * 1000) 1000)).
  - split; reflexivity.
  - simpl; lia.
  - left. eexists. split; [split; reflexivity|]. split; [discriminate|reflexivity].
Qed.

Example cached_three_minutes :
  startsLogin (holding "a=b" (1000 + 3 * 60 * 1000) 1000).
Proof. reflexivity. Qed.




Lemma fresh_start_serves_disk cfg c t :
  0 <= t -> usable (access_token c) (cached_expiresAt c) t ->
  servedFromCache (start cfg (Some c) t) (access_token c).
Proof.
  intros Ht Hu.
  assert (Hq : quiescent (start cfg (Some c) t)) by (split; reflexivity).
  assert (Hc : isTokenValidFromCache (start cfg (Some c) t) c = true)
    by (apply isTokenValidFromCache_spec; assumption).
  pose proof (run_disk_hit _ c Hq eq_refl eq_refl Hc) as (Hcalls & Hev & _).
  unfold servedFromCache. rewrite Hcalls.
  rewrite (loginsStarted_snoc_authenticate _ _ _ Hev).
  rewrite (vendorContacts_app _ _ _ Hev eq_refl).
  split; [apply lookup_snoc|]. split; reflexivity.
Qed.

Lemma destroy_frame (w : World) (close : Outcome unit) :
  fst (destroy close w) = Returns tt
  /\ authState (snd (destroy close w)) = signedOut
  /\ browser (snd (destroy close w)) = None
  /\ tokenCacheFile (snd (destroy close w)) = tokenCacheFile w.
Proof.
  unfold destroy, cleanup, bind, modify, ret, finally, tryCatch, ask; simpl.
  destruct (browser w) eqn:Hb; simpl.
  - destruct close as [[]|]; simpl; auto.
  - auto.
Qed.

Lemma destroy_closes (w : World) (close : Outcome unit) :
  browser w <> None ->
  context (snd (destroy close w)) = None
  /\ page (snd (destroy close w)) = None
  /\ events (snd (destroy close w)) = (events w ++ [EvBrowserClose])%list.
Proof.
  unfold destroy, cleanup, bind, modify, ret, finally, tryCatch, ask; simpl.
  destruct (browser w) eqn:Hb; simpl; [|congruence].
  intros _. destruct close as [[]|]; simpl; auto.
Qed.

Lemma destroy_again (w : World) (close close' : Outcome unit) :
  destroy close' (snd (destroy close w)) = (Returns tt, snd (destroy close w)).
Proof.
  unfold destroy, cleanup, bind, modify, ret, finally, tryCatch, ask; simpl.
  destruct (browser w) eqn:Hb; simpl.
  - destruct close as [[]|]; reflexivity.
  - rewrite Hb. reflexivity.
Qed.

(** Claim C10. [destroy()] never throws; it resets the authentication
    state held in memory and releases the browser handles, closing the
    browser when one is held; it leaves the cache file as it was, so that
    the record can still be loaded, and an authenticator started later on
    the same file serves that record without a login while it is usable;
    a second [destroy()] does not throw and changes nothing. *)
Theorem destroy_keeps_cache_file (w : World) (close close' : Outcome unit) :
  let w1 := snd (destroy close w) in
  fst (destroy close w) = Returns tt
  /\ authState w1 = signedOut
  /\ browser w1 = None
  /\ (browser w <> None ->
      context w1 = None /\ page w1 = None
      /\ events w1 = (events w ++ [EvBrowserClose])%list)
  /\ tokenCacheFile w1 = tokenCacheFile w
  /\ loadCachedToken w1 = loadCachedToken w
  /\ destroy close' w1 = (Returns tt, w1)
  /\ (forall cfg t c,
        tokenCacheFile w = Some c -> 0 <= t ->
        usable (access_token c) (cached_expiresAt c) t ->
        servedFromCache (start cfg (tokenCacheFile w1) t) (access_token c)).
Proof.
  intros w1. subst w1.
  destruct (destroy_frame w close) as (Hr & Ha & Hb & Hf).
  split; [exact Hr|]. split; [exact Ha|]. split; [exact Hb|].
  split; [apply destroy_closes|].
  split; [exact Hf|]. split; [exact Hf|].
  split; [apply destroy_again|].
  intros cfg t c Hc Ht Hu. rewrite Hf, Hc.
  apply fresh_start_serves_disk; assumption.
Qed.


Lemma failed_login_stale cfg t env e w1 :
  authenticate_login env (run (start cfg None t) [Invoke]) = (Throws e, w1) ->
  let w := run (start cfg None t) [Invoke; Settle 0 env; Tick; Invoke; Tick] in
  calls w = [RejectedWith e; RejectedWith e]
  /\ typedError e = true
  /\ authState w = signedOut
  /\ authPromise w = Some 0%nat
  /\ promiseState 0 w = Rejected e
  /\ inFlight w = []
  /\ loginsStarted w = [0%nat]
  /\ authenticateCalls w = [0%nat].
Proof.
  intros Hlogin.
  destruct (login_failure _ _ _ _ Hlogin) as [Hout Htyped].
  pose proof (keeps_authenticate_login env (run (start cfg None t) [Invoke])) as Hk.
  rewrite Hlogin in Hk. simpl in Hk. destruct Hk as [Hcfg Hap Hnow Hps Hcs Hms Hlg Hau].
  unfold run; simpl. unfold settle; simpl.
  change (ensureAuthenticated (start cfg None t)) with (run (start cfg None t) [Invoke]).
  rewrite Hlogin.
  destruct w1 as [cfg1 as1 ap1 b1 c1 p1 f1 n1 ps1 cs1 ms1 ev1].
  simpl in *. subst. vm_compute in Hlg. vm_compute in Hau.
  unfold loginsStarted, authenticateCalls, inFlight; simpl.
  repeat split; try assumption; reflexivity.
Qed.

(** Claim C2, at its failing input. When the login of the first call
    fails with [e], the error is one of the typed errors and the
    authentication state is cleared, but [authPromise] is left holding
    the rejected promise: the next call of [ensureAuthenticated()] is
    rejected with the same stale [e] and no second login is started. *)
Theorem failed_login_keeps_rejected_handle cfg t env e :
  fst (authenticate_login env (run (start cfg None t) [Invoke])) = Throws e ->
  let w := run (start cfg None t) [Invoke; Settle 0 env; Tick; Invoke; Tick] in
  calls w = [RejectedWith e; RejectedWith e]
  /\ typedError e = true
  /\ authState w = signedOut
  /\ authPromise w = Some 0%nat
  /\ promiseState 0 w = Rejected e
  /\ inFlight w = []
  /\ loginsStarted w = [0%nat]
  /\ authenticateCalls w = [0%nat].
Proof.
  intros H.
  destruct (authenticate_login env (run (start cfg None t) [Invoke])) as [r w1] eqn:Hl.
  simpl in H. subst r. exact (failed_login_stale cfg t env e w1 Hl).
Qed.

Lemma failed_login_keeps_rejected_handle_witness :
  fst (authenticate_login certificateMissing
         (run (start (configWithAge 12) None 1000) [Invoke]))
  = Throws certificateMissingError
  /\ let w := run (start (configWithAge 12) None 1000)
               [Invoke; Settle 0 certificateMissing; Tick; Invoke; Tick] in
     calls w = [RejectedWith certificateMissingError; RejectedWith certificateMissingError]
     /\ typedError certificateMissingError = true
     /\ authState w = signedOut
     /\ authPromise w = Some 0%nat
     /\ promiseState 0 w = Rejected certificateMissingError
     /\ inFlight w = []
     /\ loginsStarted w = [0%nat]
     /\ authenticateCalls w = [0%nat].
Proof.
  split; [reflexivity|].
  apply (failed_login_keeps_rejected_handle (configWithAge 12) 1000 certificateMissing
           certificateMissingError).
  reflexivity.
Defined.

(** Claim C1, at its failing input. Three callers enter
    [ensureAuthenticated()] before any of them resolves, with a maximum
    session age of zero hours. The login of the first succeeds; the first
    caller resolves, and each of the two waiters then finds the session
    not valid and starts a login of its own: two operations are in flight
    at once and three logins were started. *)
Theorem waiters_start_their_own_logins :
  let w := run (start (configWithAge 0) None 1000)
             [Invoke; Invoke; Invoke;
              Settle 0 (loginSucceeds [sessionCookie]); Tick; Tick; Tick] in
  calls w = [Resolved "a=b"; AwaitingOwn 1; AwaitingOwn 2]
  /\ inFlight w = [1%nat; 2%nat]
  /\ loginsStarted w = [0%nat; 1%nat; 2%nat]
  /\ authPromise w = Some 2%nat.
Proof. vm_compute. repeat split. Qed.

Example waiters_start_their_own_logins_empty_jar :
  let w := run (start (configWithAge 12) None 1000)
             [Invoke; Invoke; Invoke;
              Settle 0 (loginSucceeds []); Tick; Tick; Tick] in
  calls w = [RejectedWith (Exn ClsError "Authentication failed - no token received");
             AwaitingOwn 1; AwaitingOwn 2]
  /\ inFlight w = [1%nat; 2%nat]
  /\ loginsStarted w = [0%nat; 1%nat; 2%nat].
Proof. vm_compute. repeat split. Qed.

End AuthFacts.

Module ParseFacts.
Import Notes.


Lemma notOpening_lower c :
  notOpening c = true -> Ascii.eqb "<" (toLowerAscii c) = false.
Proof.
  destruct c as [[] [] [] [] [] [] [] []]; vm_compute; congruence.
Qed.

Lemma lazyUntilClose_text t post :
  allChars titleChar t = true ->
  lazyUntilClose (t ++ "</title>" ++ post) = Some t.
Proof.
  induction t as [|c t IH]; intros Hall.
  - reflexivity.
  - simpl in Hall. apply andb_true_iff in Hall as [Hc Ht].
    unfold titleChar in Hc. apply andb_true_iff in Hc as [Hopen Hline].
    apply negb_true_iff in Hline.
    change (String c t ++ "</title>" ++ post)%string
      with (String c (t ++ "</title>" ++ post)).
    cbn [lazyUntilClose startsWithCI].
    change (toLowerAscii "<") with "<"%char.
    rewrite (notOpening_lower c Hopen). cbn [andb].
    rewrite Hline, (IH Ht). reflexivity.
Qed.

Lemma matchTitle_eq html :
  matchTitle html =
  match (if startsWithCI "<title>" html then lazyUntilClose (dropChars 7 html) else None) with
  | Some cap => Some cap
  | None => match html with
            | String _ rest => matchTitle rest
            | EmptyString => None
            end
  end.
Proof. destruct html; reflexivity. Qed.

(** The first title tag of a page, on one line, is what the pattern
    captures. *)
Lemma matchTitle_first_tag pre t post :
  allChars notOpening pre = true ->
  allChars titleChar t = true ->
  matchTitle (pre ++ "<title>" ++ t ++ "</title>" ++ post) = Some t.
Proof.
  intros Hpre Ht. induction pre as [|c pre IH].
  - rewrite matchTitle_eq.
    change (startsWithCI "<title>" ("" ++ "<title>" ++ t ++ "</title>" ++ post)) with true.
    change (dropChars 7 ("" ++ "<title>" ++ t ++ "</title>" ++ post))
      with (t ++ "</title>" ++ post)%string.
    cbv iota. rewrite (lazyUntilClose_text t post Ht). reflexivity.
  - simpl in Hpre. apply andb_true_iff in Hpre as [Hc Hpre].
    rewrite matchTitle_eq.
    change (String c pre ++ "<title>" ++ t ++ "</title>" ++ post)%string
      with (String c (pre ++ "<title>" ++ t ++ "</title>" ++ post)).
    cbn [startsWithCI]. change (toLowerAscii "<") with "<"%char.
    rewrite (notOpening_lower c Hc). cbn [andb]. cbv iota.
    exact (IH Hpre).
Qed.

Section WithHost.
Variable JSON_parse : string -> option JsVal.
Variable Date_parse : string -> option Z.





Lemma parseHtmlForNoteDetail_some html noteId :
  exists note, parseHtmlForNoteDetail html noteId = Some note.
Proof. unfold parseHtmlForNoteDetail. eauto. Qed.

Lemma parseNoteResponse_not_absent response noteId :
  parseNoteResponse JSON_parse response noteId <> Returns None.
Proof.
  unfold parseNoteResponse, parseHtmlForNoteDetail.
  destruct (text response); [|discriminate].
  destruct (JSON_parse a); [|discriminate].
  destruct (negb (nullish j) && truthy (prop "d" j)); discriminate.
Qed.

Lemma parseRawNoteDetail_not_absent response noteId :
  parseRawNoteDetail JSON_parse response noteId <> Returns None.
Proof.
  unfold parseRawNoteDetail, parseHtmlForNoteDetail.
  destruct (text response); [|discriminate].
  repeat match goal with
  | |- context [match ?x with _ => _ end] => destruct x
  end; discriminate.
Qed.
End WithHost.

End ParseFacts.

Module NotesFacts.
Import Notes ParseFacts.

Section WithHost.
Variable JSON_parse : string -> option JsVal.

Lemma swallowing_returns (s : M (option SapNoteDetail)) w :
  exists r, fst (swallowing s w) = Returns r.
Proof.
  unfold swallowing, tryCatch. destruct (s w) as [[r|t] w']; simpl; eauto.
Qed.



Lemma tryFallbacks_returns env endpoints noteId token w :
  exists r, fst (tryFallbacks JSON_parse env endpoints noteId token w) = Returns r.
Proof.
  revert w. induction endpoints as [|e rest IH]; intros w; simpl.
  - eauto.
  - unfold bind.
    destruct (swallowing_returns (fallbackStrategy JSON_parse env e noteId token) w) as [r Hr].
    destruct (swallowing _ w) as [o w']. simpl in Hr. subst o.
    destruct r; [simpl; eauto | apply IH].
Qed.


Lemma getNote_returns env noteId token w :
  exists r, fst (getNote JSON_parse env noteId token w) = Returns r.
Proof.
  unfold getNote, tryCatch, bind.
  destruct (swallowing_returns (browserStrategy env noteId token) w) as [r1 H1].
  destruct (swallowing (browserStrategy env noteId token) w) as [o1 w1].
  simpl in H1; subst o1. destruct r1 as [n|]; [simpl; eauto|].
  destruct (swallowing_returns (rawHttpStrategy JSON_parse env noteId token) w1) as [r2 H2].
  destruct (swallowing (rawHttpStrategy JSON_parse env noteId token) w1) as [o2 w2].
  simpl in H2; subst o2. destruct r2 as [n|]; [simpl; eauto|].
  destruct (tryFallbacks_returns env (fallbackEndpoints noteId) noteId token w2) as [r3 H3].
  destruct (tryFallbacks JSON_parse env (fallbackEndpoints noteId) noteId token w2) as [o3 w3].
  simpl in H3; subst o3. simpl; eauto.
Qed.





Lemma fallbackStrategy_not_absent env endpoint noteId token w :
  fst (fallbackStrategy JSON_parse env endpoint noteId token w) <> Returns None.
Proof.
  unfold fallbackStrategy, makeRequest, httpError, bind, modify, ask, throw, ret.
  destruct (ne_fetch env (baseUrl ++ endpoint)) as [response|t]; simpl; [|discriminate].
  destruct (negb (ok response) && negb (status response =? 404)); simpl.
  - destruct (text response); simpl; discriminate.
  - apply parseNoteResponse_not_absent.
Qed.

Lemma rawHttpStrategy_absent env noteId token w :
  fst (rawHttpStrategy JSON_parse env noteId token w) = Returns None ->
  exists response,
    ne_fetch env (rawNotesUrl ++ rawEndpoint noteId) = Returns response
    /\ ok response = false.
Proof.
  unfold rawHttpStrategy, makeRawRequest, httpError, bind, modify, ask, throw, ret.
  destruct (ne_fetch env (rawNotesUrl ++ rawEndpoint noteId)) as [response|t]; simpl;
    [|discriminate].
  destruct (negb (ok response) && negb (status response =? 404)
            && negb (status response =? 302) && negb (status response =? 301)); simpl.
  - destruct (text response); simpl; discriminate.
  - destruct (ok response) eqn:Hok; simpl.
    + intros H. exfalso. exact (parseRawNoteDetail_not_absent JSON_parse response noteId H).
    + intros _. exists response. auto.
Qed.

(** Claim C9, as amended. [parseHtmlForNoteDetail] returns a note for
    every input, with the fixed summary and content; its title is
    [SAP Note <id>] when the pattern finds no title, and otherwise the
    text captured between the title tags, with the first [SAP] prefix
    removed and trimmed; the pattern captures the text of the first title
    tag that stands on one line. Hence a fallback endpoint yields nothing
    only by throwing, and the plain HTTP strategy on the raw endpoint
    yields nothing only by throwing or when the answer is not [ok]. *)
Theorem parseHtmlForNoteDetail_total :
  (forall html noteId,
      exists note,
        parseHtmlForNoteDetail html noteId = Some note
        /\ detail_summary note = JStr "SAP Note details available at the provided URL"
        /\ detail_content note = JStr "Please visit the URL for complete note content"
        /\ (matchTitle html = None -> detail_title note = JStr ("SAP Note " ++ noteId))
        /\ (forall group, matchTitle html = Some group ->
                          detail_title note = JStr (trim (replaceSap group))))
  /\ (forall pre t post,
        allChars notOpening pre = true -> allChars titleChar t = true ->
        matchTitle (pre ++ "<title>" ++ t ++ "</title>" ++ post) = Some t)
  /\ (forall env endpoint noteId token w,
        fst (fallbackStrategy JSON_parse env endpoint noteId token w) <> Returns None)
  /\ (forall env noteId token w,
        fst (rawHttpStrategy JSON_parse env noteId token w) = Returns None ->
        exists response,
          ne_fetch env (rawNotesUrl ++ rawEndpoint noteId) = Returns response
          /\ ok response = false).
Proof.
  split.
  { intros html noteId. unfold parseHtmlForNoteDetail. eexists. split; [reflexivity|].
    simpl. split; [reflexivity|]. split; [reflexivity|].
    split; [intros ->; reflexivity | intros group ->; reflexivity]. }
  split; [exact matchTitle_first_tag|].
  split; [exact fallbackStrategy_not_absent | exact rawHttpStrategy_absent].
Qed.
End WithHost.

Lemma http_strategy_absent_without_throwing :
  ~ (forall JSON_parse env noteId token w,
       fst (rawHttpStrategy JSON_parse env noteId token w) <> Returns None).
Proof.
  intros H.
  apply (H (fun _ => None) notFoundEverywhere "2744792" "a=b" newClient).
  reflexivity.
Qed.


Lemma parseHtmlForNoteDetail_total_witness :
  allChars notOpening "" = true /\ allChars titleChar "SAP Note 2744792" = true
  /\ matchTitle ("" ++ "<title>" ++ "SAP Note 2744792" ++ "</title>" ++ "") = Some "SAP Note 2744792".
Proof.
  split; [reflexivity|]. split; [reflexivity|].
  exact (proj1 (proj2 (parseHtmlForNoteDetail_total (fun _ => None)))
           "" "SAP Note 2744792" "" eq_refl eq_refl).
Defined.

Example title_without_prefix :
  option_map detail_title
    (parseHtmlForNoteDetail "<html><head><title>SAP - Note 2744792</title></head></html>"
       "2744792")
  = Some (JStr "Note 2744792").
Proof. reflexivity. Qed.

Ltac split_paths :=
  repeat match goal with
  | |- context [match ?x with _ => _ end] =>
      lazymatch x with
      | context [match _ with _ => _ end] => fail
      | _ => destruct x eqn:?; simpl
      end
  end.

Lemma deriveToken_keeps_invariant env sapToken w :
  poolInvariant w -> poolInvariant (snd (deriveToken env sapToken w)).
Proof.
  destruct w as [b c lu pg nh ev]. unfold poolInvariant; simpl.
  intros (Hbc & Hb & Hc).
  unfold deriveToken, launchPersistentBrowser, dropPool, fresh, bind, modify, ask, ret, throw, tryCatch; simpl.
  split_paths; simpl.
  all: repeat split; intros; simpl in *; try discriminate; try congruence;
    try match goal with H : Some _ = Some _ |- _ => inversion H; subst; clear H end; try lia.
  all: try (exfalso; match goal with H : ?x = ?x -> _ |- _ => specialize (H eq_refl); congruence end).
  all: try (match goal with
            | Hx : forall y, ?t = Some y -> _, H : ?t = Some _ |- _ =>
                specialize (Hx _ H); lia
            end).
  all: try (match goal with
            | Hx : forall y, Some ?a = Some y -> _ |- _ =>
                specialize (Hx _ eq_refl); lia
            end).
  all: auto.
Qed.

Lemma getCoveoToken_keeps_invariant env sapToken w :
  poolInvariant w -> poolInvariant (snd (getCoveoToken env sapToken w)).
Proof.
  intros Hinv. unfold getCoveoToken, bind, modify, finally, tryCatch. simpl.
  assert (Hinv0 : poolInvariant (set_page None w)) by exact Hinv.
  pose proof (deriveToken_keeps_invariant env sapToken _ Hinv0) as H1.
  destruct (deriveToken env sapToken (set_page None w)) as [[tok|e] w1]; simpl in *.
  - destruct (page w1); exact H1.
  - destruct (isErrorObject e && includes "Session expired" (errorMessage e)).
    + unfold dropPool, throw. destruct w1 as [b c lu pg nh ev]. simpl in *.
      destruct b; simpl; destruct pg; simpl; unfold poolInvariant; simpl;
        repeat split; intros; try discriminate; try congruence; apply H1; auto.
    + unfold throw. destruct (page w1); exact H1.
Qed.

Lemma session_expired_drops_pool env sapToken w w' :
  poolInvariant w ->
  getCoveoToken env sapToken w = (Throws SESSION_EXPIRED, w') ->
  browser w' = None /\ browserContext w' = None.
Proof.
  intros Hinv. unfold getCoveoToken, bind, modify, finally, tryCatch. simpl.
  assert (Hinv0 : poolInvariant (set_page None w)) by exact Hinv.
  pose proof (deriveToken_keeps_invariant env sapToken _ Hinv0) as H1.
  destruct (deriveToken env sapToken (set_page None w)) as [[tok|e] w1]; simpl in *.
  - destruct (page w1); discriminate.
  - destruct (isErrorObject e && includes "Session expired" (errorMessage e)).
    + unfold dropPool, throw. destruct w1 as [b c lu pg nh ev]. simpl in *.
      destruct H1 as (Hbc & _).
      destruct b; simpl; destruct pg; simpl; intros [= <-]; simpl; auto.
    + unfold throw. destruct (page w1); simpl; intros [= H _]; discriminate H.
Qed.

Lemma next_call_launches env sapToken w :
  browser w = None ->
  exists l, events (snd (getCoveoToken env sapToken w)) = (events w ++ l)%list
    /\ (forall c pg, In (EvNewPage c pg) l -> c = Datatypes.S (nextHandle w))
    /\ (forall b c, In (EvNewContext b c) l ->
                    b = nextHandle w /\ c = Datatypes.S (nextHandle w))
    /\ (tk_launch env = Returns tt -> tk_newContext env = Returns tt ->
        exists rest, l = EvLaunch (nextHandle w)
                           :: EvNewContext (nextHandle w) (Datatypes.S (nextHandle w)) :: rest).
Proof.
  destruct w as [b c lu pg nh ev]. simpl. intros ->.
  unfold getCoveoToken, deriveToken, launchPersistentBrowser, dropPool, fresh, finally,
    bind, modify, ask, ret, throw, tryCatch; simpl.
  split_paths; simpl; rewrite <- ?app_assoc; simpl;
    (eexists; split; [try reflexivity; symmetry; apply app_nil_r|]).
  all: repeat split; intros; simpl in *;
    repeat match goal with
           | H : _ \/ _ |- _ => destruct H
           | H : False |- _ => contradiction
           | H : EvNewPage _ _ = EvNewPage _ _ |- _ => inversion H; subst; clear H
           | H : EvNewContext _ _ = EvNewContext _ _ |- _ => inversion H; subst; clear H
           end;
    try discriminate; try reflexivity; try congruence; eauto.
Qed.

Lemma getCoveoToken_no_http env sapToken w :
  httpRequests (snd (getCoveoToken env sapToken w)) = httpRequests w.
Proof.
  destruct w as [b c lu pg nh ev]. unfold httpRequests. simpl.
  unfold getCoveoToken, deriveToken, launchPersistentBrowser, dropPool, fresh, finally,
    bind, modify, ask, ret, throw, tryCatch; simpl.
  split_paths; simpl; rewrite ?List.filter_app; simpl; rewrite ?app_nil_r; reflexivity.
Qed.

(** Claim C5. When [getCoveoToken] throws [SESSION_EXPIRED], the
    browser and the context of the pool are absent in the state it
    leaves; the next call launches a browser and creates a context with
    handles not used before, and opens its page on that context only. *)
Theorem session_expired_tears_down_pool env sapToken w w' :
  poolInvariant w ->
  getCoveoToken env sapToken w = (Throws SESSION_EXPIRED, w') ->
  browser w' = None /\ browserContext w' = None /\ poolInvariant w'
  /\ forall env2 sapToken2,
       exists l,
         events (snd (getCoveoToken env2 sapToken2 w')) = (events w' ++ l)%list
         /\ (forall c pg, In (EvNewPage c pg) l -> c = Datatypes.S (nextHandle w'))
         /\ (forall b c, In (EvNewContext b c) l ->
                         b = nextHandle w' /\ c = Datatypes.S (nextHandle w'))
         /\ (tk_launch env2 = Returns tt -> tk_newContext env2 = Returns tt ->
             exists rest,
               l = EvLaunch (nextHandle w')
                   :: EvNewContext (nextHandle w') (Datatypes.S (nextHandle w')) :: rest).
Proof.
  intros Hinv Hrun.
  destruct (session_expired_drops_pool env sapToken w w' Hinv Hrun) as [Hb Hc].
  split; [exact Hb|]. split; [exact Hc|]. split.
  - pose proof (getCoveoToken_keeps_invariant env sapToken w Hinv) as H.
    rewrite Hrun in H. exact H.
  - intros env2 sapToken2. exact (next_call_launches env2 sapToken2 w' Hb).
Qed.

Lemma session_expired_tears_down_pool_witness :
  poolInvariant newClient
  /\ getCoveoToken (se_token sessionGone) "a=b" newClient
     = (Throws SESSION_EXPIRED, afterExpiry)
  /\ browser afterExpiry = None /\ browserContext afterExpiry = None
  /\ poolInvariant afterExpiry
  /\ forall env2 sapToken2,
       exists l,
         events (snd (getCoveoToken env2 sapToken2 afterExpiry))
         = (events afterExpiry ++ l)%list
         /\ (forall c pg, In (EvNewPage c pg) l -> c = Datatypes.S (nextHandle afterExpiry))
         /\ (forall b c, In (EvNewContext b c) l ->
                         b = nextHandle afterExpiry
                         /\ c = Datatypes.S (nextHandle afterExpiry))
         /\ (tk_launch env2 = Returns tt -> tk_newContext env2 = Returns tt ->
             exists rest,
               l = EvLaunch (nextHandle afterExpiry)
                   :: EvNewContext (nextHandle afterExpiry)
                        (Datatypes.S (nextHandle afterExpiry)) :: rest).
Proof.
  assert (Hinv : poolInvariant newClient).
  { unfold poolInvariant, newClient; simpl. repeat split; intros; discriminate. }
  assert (Hrun : getCoveoToken (se_token sessionGone) "a=b" newClient
                 = (Throws SESSION_EXPIRED, afterExpiry)) by reflexivity.
  split; [exact Hinv|]. split; [exact Hrun|].
  exact (session_expired_tears_down_pool (se_token sessionGone) "a=b" newClient afterExpiry
           Hinv Hrun).
Defined.

Example session_expiry_closes_the_browser :
  events (snd (getCoveoToken (se_token sessionGone) "a=b" newClient))
  = [EvLaunch 0; EvNewContext 0 1; EvAddCookies 1; EvNewPage 1 2;
     EvGoto 2 homeUrl; EvCloseBrowser 0; EvClosePage 2].
Proof. reflexivity. Qed.
End NotesFacts.

Module ServerFacts.
Import Notes Server NotesFacts.

Section WithHost.
Variable Date_parse : string -> option Z.



(** Claim C7, at its failing input. The input schema of the search tool
    accepts every string [q], the empty one included, and the search
    request for [q] goes out to the vendor. *)
Theorem any_query_reaches_the_network (q : string) :
  searchInputSchema (JObj [("q", JStr q)]) = Some (q, "EN")
  /\ httpRequests
       (snd (sap_note_search Date_parse (Returns "a=b")
               (allSucceeds "bearer" (JObj [("results", JArr [])]))
               (JObj [("q", JStr q)]) newClient))
     = [EvSearchRequest "bearer" q 10].
Proof. split; reflexivity. Qed.
End WithHost.



Example empty_query_is_searched :
  httpRequests
    (snd (sap_note_search (fun _ => None) (Returns "a=b")
            (allSucceeds "bearer" (JObj [("results", JArr [])]))
            (JObj [("q", JStr "")]) newClient))
  = [EvSearchRequest "bearer" "" 10].
Proof. reflexivity. Qed.
End ServerFacts.

Module AuthExtra.
Import Auth AuthFacts.

Lemma run_app w l1 l2 : run w (l1 ++ l2) = run (run w l1) l2.
Proof. unfold run. apply fold_left_app. Qed.

Lemma repeat_snoc {A} (x : A) n : (repeat x n ++ [x])%list = repeat x (Datatypes.S n).
Proof. induction n; simpl; [reflexivity|]. rewrite IHn. reflexivity. Qed.

Lemma invokes_wait cfg t n :
  run (start cfg None t) (repeat Invoke (Datatypes.S n)) = waitingWorld cfg t n.
Proof.
  induction n as [|n IH].
  - reflexivity.
  - rewrite <- repeat_snoc, run_app, IH.
    unfold run; simpl. unfold ensureAuthenticated; simpl.
    unfold await; simpl. rewrite repeat_length.
    unfold waitingWorld, set_promises; simpl. f_equal.
    + do 3 f_equal. change (1%nat :: seq 2 n) with (seq 1 (Datatypes.S n)).
      rewrite seq_S. reflexivity.
    + f_equal. rewrite repeat_snoc. reflexivity.
Qed.

(** The continuations of callers that waited in the guard, when the
    operation they waited for was fulfilled and left a valid session. *)
Lemma ticks_resolve tok wb m : forall pre,
  promiseState 0 wb = Fulfilled ->
  isTokenValid wb = true ->
  token (authState wb) = Some tok ->
  run (set_microtasks (seq (length pre) m)
         (set_calls (pre ++ repeat (AwaitingInFlight 0) m) wb))
      (repeat Tick m)
  = set_microtasks [] (set_calls (pre ++ repeat (Resolved tok) m) wb).
Proof.
  induction m as [|m IH]; intros pre Hp Hv Ht.
  - reflexivity.
  - change (repeat Tick (Datatypes.S m)) with ([Tick] ++ repeat Tick m)%list.
    rewrite run_app.
    assert (Hstep :
      run (set_microtasks (seq (length pre) (Datatypes.S m))
             (set_calls (pre ++ repeat (AwaitingInFlight 0) (Datatypes.S m)) wb)) [Tick]
      = set_microtasks (seq (length (pre ++ [Resolved tok])) m)
          (set_calls ((pre ++ [Resolved tok]) ++ repeat (AwaitingInFlight 0) m) wb)).
    { unfold run; simpl. unfold tick; simpl. unfold resume; simpl.
      rewrite lookup_app_r by lia. rewrite Nat.sub_diag. simpl.
      change (promiseState 0 _) with (promiseState 0 wb). rewrite Hp.
      unfold ensureAuthenticated_check.
      change (isTokenValid _) with (isTokenValid wb). rewrite Hv. simpl. rewrite Ht.
      unfold setCall, set_calls, set_microtasks; simpl.
      rewrite insert_app_r_alt by lia. rewrite Nat.sub_diag. simpl.
      rewrite length_app. simpl. rewrite Nat.add_1_r.
      rewrite <- app_assoc. reflexivity. }
    rewrite Hstep, (IH (pre ++ [Resolved tok])%list Hp Hv Ht).
    rewrite <- app_assoc. reflexivity.
Qed.

Lemma ticks_reject e wb m : forall pre,
  promiseState 0 wb = Rejected e ->
  run (set_microtasks (seq (length pre) m)
         (set_calls (pre ++ repeat (AwaitingInFlight 0) m) wb))
      (repeat Tick m)
  = set_microtasks [] (set_calls (pre ++ repeat (RejectedWith e) m) wb).
Proof.
  induction m as [|m IH]; intros pre Hp.
  - reflexivity.
  - change (repeat Tick (Datatypes.S m)) with ([Tick] ++ repeat Tick m)%list.
    rewrite run_app.
    assert (Hstep :
      run (set_microtasks (seq (length pre) (Datatypes.S m))
             (set_calls (pre ++ repeat (AwaitingInFlight 0) (Datatypes.S m)) wb)) [Tick]
      = set_microtasks (seq (length (pre ++ [RejectedWith e])) m)
          (set_calls ((pre ++ [RejectedWith e]) ++ repeat (AwaitingInFlight 0) m) wb)).
    { unfold run; simpl. unfold tick; simpl. unfold resume; simpl.
      rewrite lookup_app_r by lia. rewrite Nat.sub_diag. simpl.
      change (promiseState 0 _) with (promiseState 0 wb). rewrite Hp.
      unfold setCall, set_calls, set_microtasks; simpl.
      rewrite insert_app_r_alt by lia. rewrite Nat.sub_diag. simpl.
      rewrite length_app. simpl. rewrite Nat.add_1_r.
      rewrite <- app_assoc. reflexivity. }
    rewrite Hstep, (IH (pre ++ [RejectedWith e])%list Hp).
    rewrite <- app_assoc. reflexivity.
Qed.

Lemma login_success env w u w' :
  authenticate_login env w = (Returns u, w') ->
  exists cs, env_cookies env = Returns cs /\
    authState w' =
      {| token := Some (cookieString cs);
         expiresAt := Some (now w + maxJwtAgeH (config w) * 60 * 60 * 1000);
         isAuthenticated := true |}.
Proof.
  unfold authenticate_login, finally, tryCatch.
  destruct (loginSteps env w) as [[v|e] w1] eqn:Hsteps.
  - pose proof (cleanup_returns (env_close env) w1) as Hr.
    pose proof (cleanup_frame (env_close env) w1) as (Ha & _).
    destruct (cleanup (env_close env) w1) as [[?|?] w2]; simpl in *; [|discriminate].
    intros [= <- <-]. destruct (loginSteps_success env w v w1 Hsteps) as (cs & Hcs & Hst).
    exists cs. split; [exact Hcs|]. rewrite Ha. exact Hst.
  - unfold bind, modify, throw.
    destruct (instanceOf ClsAuthenticationTimeoutError e
              || instanceOf ClsCertificateLoadError e
              || instanceOf ClsBrowserNotFoundError e);
      destruct (cleanup (env_close env) (set_authState signedOut w1)) as [[?|?] w2];
      discriminate.
Qed.

Lemma usable_session_valid tok e t :
  tok <> "" -> e <> 0 -> t < e - bufferMs ->
  forall w, authState w = {| token := Some tok; expiresAt := Some e; isAuthenticated := true |} ->
            now w = t -> isTokenValid w = true.
Proof.
  intros Htok He Hlt w Hst Hnow. unfold isTokenValid. rewrite Hst, Hnow. simpl.
  destruct (String.eqb_spec tok ""); [contradiction|]. simpl.
  destruct (Z.eqb_spec e 0); [contradiction|]. simpl. apply Z.ltb_lt. exact Hlt.
Qed.

(** Extra X1. [S n] callers enter [ensureAuthenticated()] of a fresh
    process without cache file before any of them resolves. While they
    wait, one operation is in flight. When its login succeeds with a jar
    that is not empty and the maximum session age is at least one hour,
    exactly one login was started, every caller resolves with the same
    cookie string, and the in-flight handle is cleared. *)
Theorem callers_share_one_login cfg t t1 env cs n :
  1 <= maxJwtAgeH cfg -> 0 <= t1 -> cookieString cs <> "" ->
  env_cookies env = Returns cs ->
  fst (authenticate_login env (set_now t1 (waitingWorld cfg t n))) = Returns tt ->
  let waiting := run (start cfg None t) (repeat Invoke (Datatypes.S n)) in
  let w := run (start cfg None t) (arriveTogether n t1 env) in
  inFlight waiting = [0%nat]
  /\ calls w = repeat (Resolved (cookieString cs)) (Datatypes.S n)
  /\ loginsStarted w = [0%nat]
  /\ authenticateCalls w = [0%nat]
  /\ inFlight w = []
  /\ authPromise w = None
  /\ microtasks w = [].
Proof.
  intros Hage Ht1 Htok Hcs Hok waiting w. subst waiting w.
  unfold arriveTogether. rewrite !run_app, invokes_wait.
  split; [reflexivity|].
  change (run (waitingWorld cfg t n) [Clock t1; Settle 0 env])
    with (settle 0 env (set_now t1 (waitingWorld cfg t n))).
  unfold settle. simpl promises. simpl lookup. cbv iota. simpl settled. cbv iota.
  pose proof (keeps_authenticate_login env (set_now t1 (waitingWorld cfg t n))) as Hk.
  destruct (authenticate_login env (set_now t1 (waitingWorld cfg t n))) as [r w1] eqn:Hl.
  simpl in Hok. subst r.
  destruct (login_success _ _ _ _ Hl) as (cs' & Hcs' & Hst).
  assert (cs' = cs) by congruence. subst cs'.
  change (repeat Tick (Datatypes.S n)) with ([Tick] ++ repeat Tick n)%list.
  rewrite run_app.
  simpl in Hk. destruct Hk as [Hcfg Hap Hnow Hps Hcs1 Hms Hlg Hau].
  destruct w1 as [cfg1 as1 ap1 b1 c1 p1 f1 n1 ps1 cs1 ms1 ev1].
  simpl in Hcfg, Hap, Hnow, Hps, Hcs1, Hms, Hlg, Hau, Hst. subst.
  set (tok := cookieString cs) in *.
  assert (Hne : String.eqb tok "" = false).
  { destruct (String.eqb_spec tok ""); [contradiction|reflexivity]. }
  set (wb := {| config := cfg;
                authState := {| token := Some tok;
                                expiresAt := Some (t1 + maxJwtAgeH cfg * 60 * 60 * 1000);
                                isAuthenticated := true |};
                authPromise := None; browser := b1; context := c1; page := p1;
                tokenCacheFile := f1; now := t1;
                promises := [{| settled := Fulfilled; reactions := [] |}];
                calls := []; microtasks := []; events := ev1 |}).
  match goal with
  | |- context [run ?X [Tick]] =>
      assert (Hfirst : run X [Tick]
                       = set_microtasks (seq (length [Resolved tok]) n)
                           (set_calls ([Resolved tok] ++ repeat (AwaitingInFlight 0) n) wb))
  end.
  { unfold run; simpl. unfold tick; simpl. unfold resume; simpl.
    unfold promiseState; simpl. rewrite Hne. reflexivity. }
  rewrite Hfirst.
  rewrite (ticks_resolve tok wb n [Resolved tok]); try reflexivity.
  - simpl. unfold inFlight; simpl. repeat split; assumption.
  - apply (usable_session_valid tok (t1 + maxJwtAgeH cfg * 60 * 60 * 1000) t1);
      try reflexivity; try assumption; unfold bufferMs; lia.
Qed.

Lemma callers_share_one_login_witness :
  1 <= maxJwtAgeH (configWithAge 12) /\ 0 <= 5000
  /\ cookieString [sessionCookie] <> ""
  /\ env_cookies (loginSucceeds [sessionCookie]) = Returns [sessionCookie]
  /\ fst (authenticate_login (loginSucceeds [sessionCookie])
            (set_now 5000 (waitingWorld (configWithAge 12) 1000 2))) = Returns tt
  /\ calls (run (start (configWithAge 12) None 1000)
              (arriveTogether 2 5000 (loginSucceeds [sessionCookie])))
     = repeat (Resolved (cookieString [sessionCookie])) 3.
Proof.
  assert (H1 : 1 <= maxJwtAgeH (configWithAge 12)) by (simpl; lia).
  assert (H2 : 0 <= 5000) by lia.
  assert (H3 : cookieString [sessionCookie] <> "") by discriminate.
  split; [exact H1|]. split; [exact H2|]. split; [exact H3|].
  split; [reflexivity|]. split; [reflexivity|].
  exact (proj1 (proj2 (callers_share_one_login (configWithAge 12) 1000 5000
                         (loginSucceeds [sessionCookie]) [sessionCookie] 2
                         H1 H2 H3 eq_refl eq_refl))).
Defined.

(** Extra X2. [S n] callers enter [ensureAuthenticated()] of a fresh
    process without cache file before any of them resolves, and the login
    fails with [e]: exactly one login was started, [e] is one of the typed
    errors of the authenticator, every caller is rejected with that same
    [e], and the authentication state is cleared. *)
Theorem callers_share_one_failure cfg t t1 env e n :
  fst (authenticate_login env (set_now t1 (waitingWorld cfg t n))) = Throws e ->
  let w := run (start cfg None t) (arriveTogether n t1 env) in
  calls w = repeat (RejectedWith e) (Datatypes.S n)
  /\ typedError e = true
  /\ loginsStarted w = [0%nat]
  /\ authenticateCalls w = [0%nat]
  /\ inFlight w = []
  /\ authState w = signedOut
  /\ microtasks w = [].
Proof.
  intros Hfail w. subst w.
  unfold arriveTogether. rewrite !run_app, invokes_wait.
  change (run (waitingWorld cfg t n) [Clock t1; Settle 0 env])
    with (settle 0 env (set_now t1 (waitingWorld cfg t n))).
  unfold settle. simpl promises. simpl lookup. cbv iota. simpl settled. cbv iota.
  pose proof (keeps_authenticate_login env (set_now t1 (waitingWorld cfg t n))) as Hk.
  destruct (authenticate_login env (set_now t1 (waitingWorld cfg t n))) as [r w1] eqn:Hl.
  simpl in Hfail. subst r.
  destruct (login_failure _ _ _ _ Hl) as [Hout Htyped].
  change (repeat Tick (Datatypes.S n)) with ([Tick] ++ repeat Tick n)%list.
  rewrite run_app.
  simpl in Hk. destruct Hk as [Hcfg Hap Hnow Hps Hcs1 Hms Hlg Hau].
  destruct w1 as [cfg1 as1 ap1 b1 c1 p1 f1 n1 ps1 cs1 ms1 ev1].
  simpl in Hcfg, Hap, Hnow, Hps, Hcs1, Hms, Hlg, Hau, Hout. subst.
  set (wb := {| config := cfg; authState := signedOut;
                authPromise := Some 0%nat; browser := b1; context := c1; page := p1;
                tokenCacheFile := f1; now := t1;
                promises := [{| settled := Rejected e; reactions := [] |}];
                calls := []; microtasks := []; events := ev1 |}).
  match goal with
  | |- context [run ?X [Tick]] =>
      assert (Hfirst : run X [Tick]
                       = set_microtasks (seq (length [RejectedWith e]) n)
                           (set_calls ([RejectedWith e] ++ repeat (AwaitingInFlight 0) n) wb))
  end.
  { reflexivity. }
  rewrite Hfirst.
  rewrite (ticks_reject e wb n [RejectedWith e]); [|reflexivity].
  simpl. unfold inFlight; simpl. repeat split; assumption.
Qed.

Lemma callers_share_one_failure_witness :
  fst (authenticate_login certificateMissing
         (set_now 5000 (waitingWorld (configWithAge 12) 1000 2)))
  = Throws certificateMissingError
  /\ calls (run (start (configWithAge 12) None 1000)
              (arriveTogether 2 5000 certificateMissing))
     = repeat (RejectedWith certificateMissingError) 3.
Proof.
  split; [reflexivity|].
  exact (proj1 (callers_share_one_failure (configWithAge 12) 1000 5000
                  certificateMissing certificateMissingError 2 eq_refl)).
Defined.

Ltac split_paths :=
  repeat match goal with
  | |- context [match ?x with _ => _ end] =>
      lazymatch x with
      | context [match _ with _ => _ end] => fail
      | _ => destruct x eqn:?; simpl
      end
  end.

Ltac unfold_login :=
  unfold authenticate_login, loginSteps, validateCertificate, getBrowserLauncher,
    checkBrowserAvailable, prepareClientCertificate, saveCachedToken, cleanup,
    finally, tryCatch, bind, modify, ask, ret, throw.

(** Extra X3. A certificate file that is missing, empty or unreadable
    makes [authenticate()] throw a [CertificateLoadError]; the
    authentication state is cleared and no browser is launched. *)
Theorem unusable_certificate_is_certificate_error env w :
  certificateUnusable env ->
  (exists m, fst (authenticate_login env w) = Throws (Exn ClsCertificateLoadError m))
  /\ authState (snd (authenticate_login env w)) = signedOut
  /\ events (snd (authenticate_login env w))
     = (events w ++ match browser w with
                    | Some _ => [EvBrowserClose]
                    | None => []
                    end)%list.
Proof.
  intros Hc. destruct w as [cfg st ap b c p f n ps cs ms ev].
  unfold_login; simpl.
  destruct Hc as [Hc | [Hc [Hr | [t Hr]]]]; rewrite Hc; simpl; try rewrite Hr; simpl;
    destruct b; simpl; destruct (env_close env); simpl;
    (split; [eexists; reflexivity|]); split; try reflexivity;
    symmetry; apply app_nil_r.
Qed.

Lemma reaches_navigation_run env w :
  reachesNavigation env ->
  authenticate_login env w
  = finally
      (tryCatch
         (run! modify (emit (EvNavigate authUrl)) in
          run! match env_race env with
               | Navigated => ret tt
               | NavigationThrew t => throw t
               | TimerFirst => throw (AuthenticationTimeoutError 30000)
               end in
          run! ask (env_title env) in
          run! ask (env_waitForTimeout env) in
          let! allCookies := ask (env_cookies env) in
          fun w1 =>
            let expires := now w1 + maxJwtAgeH (config w1) * 60 * 60 * 1000 in
            (run! modify (set_authState
                            {| token := Some (cookieString allCookies);
                               expiresAt := Some expires;
                               isAuthenticated := true |}) in
             saveCachedToken env
               {| access_token := cookieString allCookies;
                  cookies := allCookies;
                  cached_expiresAt := expires |}) w1)
         (fun error =>
            run! modify (set_authState signedOut) in
            if instanceOf ClsAuthenticationTimeoutError error
               || instanceOf ClsCertificateLoadError error
               || instanceOf ClsBrowserNotFoundError error
            then throw error
            else throw (AuthenticationError "Authentication process failed" error)))
      (cleanup (env_close env))
      (match env_launch env, env_newContext env, env_newPage env with
       | Returns b, Returns c, Returns pg =>
           set_handles (Some b) (Some c) (Some pg) (emit EvBrowserLaunch w)
       | _, _, _ => w
       end).
Proof.
  intros (Hex & (len & Hread & Hlen) & Hknown & Hexe & (b & Hb) & (c & Hc) & (pg & Hpg)).
  destruct w as [cfg st ap b0 c0 p0 f n ps cs ms ev].
  unfold authenticate_login, loginSteps, validateCertificate, getBrowserLauncher,
    checkBrowserAvailable, prepareClientCertificate, finally, tryCatch, bind, modify,
    ask, ret, throw.
  simpl. rewrite Hex, Hread, Hknown, Hexe, Hb, Hc, Hpg. simpl.
  destruct (Z.eqb_spec len 0); [contradiction|]. simpl. reflexivity.
Qed.

(** Extra X4. Once the login has created its page: when the 30 second
    timer fires before the navigation ends, [authenticate()] throws
    [AuthenticationTimeoutError]; when the navigation throws an error that
    is not of the typed classes, it throws an [AuthenticationError] that
    carries the original; in both cases the authentication state is
    cleared and the browser that was launched is closed. *)
Theorem navigation_failure_is_classified env w :
  reachesNavigation env ->
  (env_race env = TimerFirst ->
   fst (authenticate_login env w) = Throws (AuthenticationTimeoutError 30000))
  /\ (forall t, env_race env = NavigationThrew t -> typedError t = false ->
       fst (authenticate_login env w)
       = Throws (AuthenticationError "Authentication process failed" t))
  /\ (env_race env <> Navigated ->
      authState (snd (authenticate_login env w)) = signedOut
      /\ browser (snd (authenticate_login env w)) = None
      /\ events (snd (authenticate_login env w))
         = (events w ++ [EvBrowserLaunch; EvNavigate authUrl; EvBrowserClose])%list).
Proof.
  intros Hreach. rewrite (reaches_navigation_run env w Hreach).
  destruct Hreach as (_ & _ & _ & _ & (b & Hb) & (c & Hc) & (pg & Hpg)).
  rewrite Hb, Hc, Hpg.
  destruct w as [cfg st ap b0 c0 p0 f n ps cs ms ev].
  unfold finally, tryCatch, bind, modify, ask, ret, throw, cleanup. simpl.
  split; [|split].
  - intros ->. simpl. destruct (env_close env); reflexivity.
  - intros t -> Ht. simpl.
    unfold typedError in Ht. apply orb_false_iff in Ht as [Ht _]. rewrite Ht. simpl.
    destruct (env_close env); reflexivity.
  - intros Hrace. destruct (env_race env) as [|t|]; [contradiction| |]; simpl.
    + destruct (instanceOf ClsAuthenticationTimeoutError t
               || instanceOf ClsCertificateLoadError t
               || instanceOf ClsBrowserNotFoundError t); simpl;
        destruct (env_close env); simpl; rewrite <- !app_assoc; auto.
    + destruct (env_close env); simpl; rewrite <- !app_assoc; auto.
Qed.

Lemma loginSteps_file env w u w1 :
  loginSteps env w = (Returns u, w1) ->
  exists cs, env_cookies env = Returns cs /\
    tokenCacheFile w1 =
      match env_writeFile env with
      | Returns _ =>
          Some {| access_token := cookieString cs; cookies := cs;
                  cached_expiresAt := now w + maxJwtAgeH (config w) * 60 * 60 * 1000 |}
      | Throws _ => tokenCacheFile w
      end.
Proof.
  unfold loginSteps, validateCertificate, getBrowserLauncher, checkBrowserAvailable,
    prepareClientCertificate, saveCachedToken, tryCatch, bind, modify, ask, ret, throw.
  repeat match goal with
  | |- context [match (if ?b then _ else _) with _ => _ end] => destruct b eqn:?
  | |- context [match ?x with _ => _ end] =>
      match x with
      | env_certRead _ => destruct x eqn:?
      | env_executablePath _ => destruct x eqn:?
      | env_launch _ => destruct x eqn:?
      | env_newContext _ => destruct x eqn:?
      | env_newPage _ => destruct x eqn:?
      | env_race _ => destruct x eqn:?
      | env_title _ => destruct x eqn:?
      | env_waitForTimeout _ => destruct x eqn:?
      | env_cookies _ => destruct x eqn:?
      | env_writeFile _ => destruct x eqn:?
      end
  | |- context [if ?b then _ else _] => destruct b eqn:?
  end; simpl; try discriminate;
  intros [= <- <-]; eexists; split; reflexivity.
Qed.

Lemma login_file env w u w' :
  authenticate_login env w = (Returns u, w') ->
  exists cs, env_cookies env = Returns cs /\
    tokenCacheFile w' =
      match env_writeFile env with
      | Returns _ =>
          Some {| access_token := cookieString cs; cookies := cs;
                  cached_expiresAt := now w + maxJwtAgeH (config w) * 60 * 60 * 1000 |}
      | Throws _ => tokenCacheFile w
      end.
Proof.
  unfold authenticate_login, finally, tryCatch.
  destruct (loginSteps env w) as [[v|e] w1] eqn:Hsteps.
  - pose proof (cleanup_returns (env_close env) w1) as Hr.
    pose proof (cleanup_frame (env_close env) w1) as (_ & Hf & _).
    destruct (cleanup (env_close env) w1) as [[?|?] w2]; simpl in *; [|discriminate].
    intros [= <- <-]. destruct (loginSteps_file env w v w1 Hsteps) as (cs & Hcs & Hfile).
    exists cs. split; [exact Hcs|]. rewrite Hf. exact Hfile.
  - unfold bind, modify, throw.
    destruct (instanceOf ClsAuthenticationTimeoutError e
              || instanceOf ClsCertificateLoadError e
              || instanceOf ClsBrowserNotFoundError e);
      destruct (cleanup (env_close env) (set_authState signedOut w1)) as [[?|?] w2];
      discriminate.
Qed.

(** Extra X5. A login that succeeds and can write the cache file leaves
    the same record in memory and on disk: the cookie string of the jar,
    the cookies, and the instant of the login plus the configured maximum
    age. A process started later on that file, while the record is
    usable, returns that cookie string from [ensureAuthenticated()]
    without a login. *)
Theorem login_record_round_trip env w cs :
  fst (authenticate_login env w) = Returns tt ->
  env_cookies env = Returns cs ->
  env_writeFile env = Returns tt ->
  let w' := snd (authenticate_login env w) in
  let e := now w + maxJwtAgeH (config w) * 60 * 60 * 1000 in
  tokenCacheFile w'
  = Some {| access_token := cookieString cs; cookies := cs; cached_expiresAt := e |}
  /\ authState w'
     = {| token := Some (cookieString cs); expiresAt := Some e; isAuthenticated := true |}
  /\ forall cfg2 t2,
       0 <= t2 -> usable (cookieString cs) e t2 ->
       servedFromCache (start cfg2 (tokenCacheFile w') t2) (cookieString cs).
Proof.
  intros Hok Hcs Hwrite w' e. subst w' e.
  destruct (authenticate_login env w) as [r w'] eqn:Hl. simpl in Hok. subst r.
  destruct (login_success env w tt w' Hl) as (cs1 & Hcs1 & Hst).
  destruct (login_file env w tt w' Hl) as (cs2 & Hcs2 & Hfile).
  assert (cs1 = cs) by congruence. assert (cs2 = cs) by congruence. subst cs1 cs2.
  rewrite Hwrite in Hfile. simpl.
  split; [exact Hfile|]. split; [exact Hst|].
  intros cfg2 t2 Ht2 Hu. rewrite Hfile.
  exact (fresh_start_serves_disk cfg2
           {| access_token := cookieString cs; cookies := cs;
              cached_expiresAt := now w + maxJwtAgeH (config w) * 60 * 60 * 1000 |}
           t2 Ht2 Hu).
Qed.

Lemma login_record_round_trip_witness :
  fst (authenticate_login (loginSucceeds [sessionCookie])
         (start (configWithAge 12) None 1000)) = Returns tt
  /\ env_cookies (loginSucceeds [sessionCookie]) = Returns [sessionCookie]
  /\ env_writeFile (loginSucceeds [sessionCookie]) = Returns tt
  /\ tokenCacheFile (snd (authenticate_login (loginSucceeds [sessionCookie])
                            (start (configWithAge 12) None 1000)))
     = Some {| access_token := cookieString [sessionCookie]; cookies := [sessionCookie];
               cached_expiresAt := 1000 + 12 * 60 * 60 * 1000 |}.
Proof.
  split; [reflexivity|]. split; [reflexivity|]. split; [reflexivity|].
  exact (proj1 (login_record_round_trip (loginSucceeds [sessionCookie])
                  (start (configWithAge 12) None 1000) [sessionCookie]
                  eq_refl eq_refl eq_refl)).
Defined.

(** Extra X6. A cache file that cannot be written does not fail the
    login: [authenticate()] still returns, the session is held in memory,
    and the file is left as it was. *)
Theorem unwritable_cache_is_tolerated env w cs t :
  fst (authenticate_login env w) = Returns tt ->
  env_cookies env = Returns cs ->
  env_writeFile env = Throws t ->
  tokenCacheFile (snd (authenticate_login env w)) = tokenCacheFile w
  /\ token (authState (snd (authenticate_login env w))) = Some (cookieString cs).
Proof.
  intros Hok Hcs Hwrite.
  destruct (authenticate_login env w) as [r w'] eqn:Hl. simpl in Hok. subst r.
  destruct (login_success env w tt w' Hl) as (cs1 & Hcs1 & Hst).
  destruct (login_file env w tt w' Hl) as (cs2 & Hcs2 & Hfile).
  assert (cs1 = cs) by congruence. subst cs1.
  rewrite Hwrite in Hfile. simpl. split; [exact Hfile|]. rewrite Hst. reflexivity.
Qed.

Lemma unwritable_cache_is_tolerated_witness :
  fst (authenticate_login diskFull (start (configWithAge 12) None 1000)) = Returns tt
  /\ env_cookies diskFull = Returns [sessionCookie]
  /\ env_writeFile diskFull = Throws (Exn ClsLibraryError "ENOSPC: no space left on device")
  /\ tokenCacheFile (snd (authenticate_login diskFull (start (configWithAge 12) None 1000)))
     = tokenCacheFile (start (configWithAge 12) None 1000).
Proof.
  split; [reflexivity|]. split; [reflexivity|]. split; [reflexivity|].
  exact (proj1 (unwritable_cache_is_tolerated diskFull (start (configWithAge 12) None 1000)
                  [sessionCookie] _ eq_refl eq_refl eq_refl)).
Defined.

Lemma unusable_certificate_is_certificate_error_witness :
  certificateUnusable certificateMissing
  /\ fst (authenticate_login certificateMissing (start (configWithAge 12) None 1000))
     = Throws certificateMissingError
  /\ authState (snd (authenticate_login certificateMissing
                       (start (configWithAge 12) None 1000))) = signedOut.
Proof.
  assert (H : certificateUnusable certificateMissing) by (left; reflexivity).
  split; [exact H|]. split; [reflexivity|].
  exact (proj1 (proj2 (unusable_certificate_is_certificate_error certificateMissing
                         (start (configWithAge 12) None 1000) H))).
Defined.

Lemma navigation_failure_is_classified_witness :
  reachesNavigation navigationHangs
  /\ env_race navigationHangs = TimerFirst
  /\ fst (authenticate_login navigationHangs (start (configWithAge 12) None 1000))
     = Throws (AuthenticationTimeoutError 30000).
Proof.
  assert (H : reachesNavigation navigationHangs).
  { unfold reachesNavigation, navigationHangs; simpl.
    repeat split; try reflexivity; eauto; discriminate. }
  split; [exact H|]. split; [reflexivity|].
  exact (proj1 (navigation_failure_is_classified navigationHangs
                  (start (configWithAge 12) None 1000) H) eq_refl).
Defined.

(** Extra X7. The browser of a login never outlives it: whatever
    happens during [authenticate()], afterwards the authenticator holds no
    browser, context or page, and when the browser was launched the last
    thing the login did was to close it. *)
Theorem login_browser_is_released env w :
  browser w = None -> context w = None -> page w = None ->
  let w' := snd (authenticate_login env w) in
  browser w' = None /\ context w' = None /\ page w' = None
  /\ exists l, events w' = (events w ++ l)%list
       /\ ((exists b, env_launch env = Returns b) -> In EvBrowserLaunch l ->
           exists l0, l = (l0 ++ [EvBrowserClose])%list).
Proof.
  destruct w as [cfg st ap b c p f n ps cs ms ev]. simpl. intros -> -> ->.
  unfold_login; simpl.
  split_paths; simpl; rewrite <- ?app_assoc; simpl;
    (split; [reflexivity|]); (split; [reflexivity|]); (split; [reflexivity|]);
    (eexists; split; [try reflexivity; symmetry; apply app_nil_r|]);
    intros [b0 Hb0] Hin; simpl in Hin;
    try contradiction; try congruence;
    repeat match goal with
           | H : _ \/ _ |- _ => destruct H
           | H : False |- _ => contradiction
           end; try discriminate.
  all: try (eexists [EvBrowserLaunch; EvNavigate authUrl; EvWriteCache]; reflexivity).
  all: try (eexists [EvBrowserLaunch; EvNavigate authUrl]; reflexivity).
  all: try (eexists [EvBrowserLaunch]; reflexivity).
Qed.

Lemma login_browser_is_released_witness :
  browser (start (configWithAge 12) None 1000) = None
  /\ context (start (configWithAge 12) None 1000) = None
  /\ page (start (configWithAge 12) None 1000) = None
  /\ browser (snd (authenticate_login navigationHangs (start (configWithAge 12) None 1000)))
     = None.
Proof.
  split; [reflexivity|]. split; [reflexivity|]. split; [reflexivity|].
  exact (proj1 (login_browser_is_released navigationHangs
                  (start (configWithAge 12) None 1000) eq_refl eq_refl eq_refl)).
Defined.

Lemma login_browser_none env w : browser (snd (authenticate_login env w)) = None.
Proof.
  unfold authenticate_login, finally.
  destruct (tryCatch _ _ w) as [r w1].
  pose proof (cleanup_returns (env_close env) w1) as Hr.
  pose proof (cleanup_frame (env_close env) w1) as (_ & _ & Hb).
  destruct (cleanup (env_close env) w1) as [[?|?] w2]; simpl in *; [exact Hb|discriminate].
Qed.

(** Extra X8. [destroy()] does not clear the in-flight handle: after a
    login that failed with [e], a call of [destroy()] followed by a new
    call of [ensureAuthenticated()] is still rejected with the stale [e],
    and no second login is started. *)
Theorem destroy_keeps_stale_handle cfg t env e close :
  fst (authenticate_login env (run (start cfg None t) [Invoke])) = Throws e ->
  let w := run (start cfg None t)
             [Invoke; Settle 0 env; Tick; Destroy close; Invoke; Tick] in
  calls w = [RejectedWith e; RejectedWith e]
  /\ authPromise w = Some 0%nat
  /\ loginsStarted w = [0%nat]
  /\ authenticateCalls w = [0%nat].
Proof.
  intros Hfail.
  destruct (authenticate_login env (run (start cfg None t) [Invoke])) as [r w1] eqn:Hl.
  simpl in Hfail. subst r.
  pose proof (keeps_authenticate_login env (run (start cfg None t) [Invoke])) as Hk.
  pose proof (login_browser_none env (run (start cfg None t) [Invoke])) as Hb.
  rewrite Hl in Hk, Hb. simpl in Hk, Hb.
  destruct Hk as [Hcfg Hap Hnow Hps Hcs Hms Hlg Hau].
  unfold run; simpl. unfold settle; simpl.
  change (ensureAuthenticated (start cfg None t)) with (run (start cfg None t) [Invoke]).
  rewrite Hl.
  destruct w1 as [cfg1 as1 ap1 b1 c1 p1 f1 n1 ps1 cs1 ms1 ev1].
  simpl in *. subst. vm_compute in Hlg. vm_compute in Hau.
  unfold loginsStarted, authenticateCalls; simpl.
  repeat split; assumption.
Qed.

Lemma destroy_keeps_stale_handle_witness :
  fst (authenticate_login certificateMissing
         (run (start (configWithAge 12) None 1000) [Invoke]))
  = Throws certificateMissingError
  /\ calls (run (start (configWithAge 12) None 1000)
              [Invoke; Settle 0 certificateMissing; Tick; Destroy (Returns tt); Invoke; Tick])
     = [RejectedWith certificateMissingError; RejectedWith certificateMissingError].
Proof.
  split; [reflexivity|].
  exact (proj1 (destroy_keeps_stale_handle (configWithAge 12) 1000 certificateMissing
                  certificateMissingError (Returns tt) eq_refl)).
Defined.

End AuthExtra.

Module NotesExtra.
Import Notes ParseFacts NotesFacts.

Ltac unfold_derive :=
  unfold getCoveoToken, deriveToken, launchPersistentBrowser, dropPool, fresh, finally,
    bind, modify, ask, ret, throw, tryCatch.

Ltac in_events :=
  repeat match goal with
         | H : _ \/ _ |- _ => destruct H
         | H : False |- _ => contradiction
         | H : In _ [] |- _ => contradiction
         | H : In _ (_ :: _) |- _ => simpl in H
         | H : EvNewPage _ _ = EvNewPage _ _ |- _ => inversion H; subst; clear H
         | H : EvNewContext _ _ = EvNewContext _ _ |- _ => inversion H; subst; clear H
         end;
  try discriminate.

(** Extra X10. A browser that is held, connected and was used within the
    idle timeout is reused: [getCoveoToken] launches nothing and creates
    no context, opens its page on the context of the pool, and records
    the instant of use; unless the call ends in [SESSION_EXPIRED], the
    pool is left as it was and no browser is closed. *)
Theorem pooled_browser_is_reused env sapToken w b c :
  browser w = Some b -> browserContext w = Some c ->
  tk_isConnected env = true ->
  tk_now env - browserLastUsed w <= BROWSER_IDLE_TIMEOUT ->
  let r := fst (getCoveoToken env sapToken w) in
  let w' := snd (getCoveoToken env sapToken w) in
  browserLastUsed w' = tk_now env
  /\ (r <> Throws SESSION_EXPIRED -> browser w' = Some b /\ browserContext w' = Some c)
  /\ exists l, events w' = (events w ++ l)%list
       /\ (forall b', ~ In (EvLaunch b') l)
       /\ (forall b' c', ~ In (EvNewContext b' c') l)
       /\ (forall c' pg, In (EvNewPage c' pg) l -> c' = c)
       /\ (r <> Throws SESSION_EXPIRED -> forall b', ~ In (EvCloseBrowser b') l).
Proof.
  destruct w as [b0 c0 lu pg nh ev]. simpl. intros -> -> Hconn Hidle.
  assert (Hi : (BROWSER_IDLE_TIMEOUT <? tk_now env - lu) = false) by (apply Z.ltb_ge; lia).
  unfold_derive; simpl. rewrite Hi, Hconn. simpl.
  split_paths; simpl; rewrite <- ?app_assoc; simpl;
    (split; [reflexivity|]);
    (split; [try (intros _; split; reflexivity); try (intros Hne; exfalso; apply Hne; reflexivity)|]);
    (eexists; split; [try reflexivity; symmetry; apply app_nil_r|]);
    repeat split; intros; try intros Hin; in_events; try reflexivity;
    try (match goal with H : ?x <> ?x |- _ => exfalso; apply H; reflexivity end).
Qed.

Lemma pooled_browser_is_reused_witness :
  browser afterSearch = Some 0%nat /\ browserContext afterSearch = Some 1%nat
  /\ tk_isConnected (se_token (allSucceeds "bearer" JNull)) = true
  /\ tk_now (se_token (allSucceeds "bearer" JNull)) - browserLastUsed afterSearch
     <= BROWSER_IDLE_TIMEOUT
  /\ browserLastUsed (snd (getCoveoToken (se_token (allSucceeds "bearer" JNull)) "a=b"
                             afterSearch)) = 1000.
Proof.
  assert (H : tk_now (se_token (allSucceeds "bearer" JNull)) - browserLastUsed afterSearch
              <= BROWSER_IDLE_TIMEOUT) by (vm_compute; discriminate).
  split; [reflexivity|]. split; [reflexivity|]. split; [reflexivity|]. split; [exact H|].
  exact (proj1 (pooled_browser_is_reused (se_token (allSucceeds "bearer" JNull)) "a=b"
                  afterSearch 0%nat 1%nat eq_refl eq_refl eq_refl H)).
Defined.

(** Extra X11. A browser that is held but was last used more than five
    minutes before is closed first; the call then launches a new browser
    and opens its page only on the context it creates, never on the old
    one. *)
Theorem idle_browser_is_replaced env sapToken w b :
  browser w = Some b ->
  BROWSER_IDLE_TIMEOUT < tk_now env - browserLastUsed w ->
  let w' := snd (getCoveoToken env sapToken w) in
  exists l, events w' = (events w ++ EvCloseBrowser b :: l)%list
    /\ (forall c pg, In (EvNewPage c pg) l -> c = Datatypes.S (nextHandle w))
    /\ (tk_launch env = Returns tt -> tk_newContext env = Returns tt ->
        exists rest, l = EvLaunch (nextHandle w)
                         :: EvNewContext (nextHandle w) (Datatypes.S (nextHandle w)) :: rest).
Proof.
  destruct w as [b0 c0 lu pg nh ev]. simpl. intros -> Hidle.
  assert (Hi : (BROWSER_IDLE_TIMEOUT <? tk_now env - lu) = true) by (apply Z.ltb_lt; lia).
  unfold_derive; simpl. rewrite Hi. simpl.
  split_paths; simpl; rewrite <- ?app_assoc; simpl;
    (eexists; split; [reflexivity|]);
    repeat split; intros; in_events; try reflexivity; try congruence; eauto.
Qed.

Lemma idle_browser_is_replaced_witness :
  browser afterSearch = Some 0%nat
  /\ BROWSER_IDLE_TIMEOUT < tk_now (se_token muchLater) - browserLastUsed afterSearch
  /\ events (snd (getCoveoToken (se_token muchLater) "a=b" afterSearch))
     = (events afterSearch
        ++ [EvCloseBrowser 0; EvLaunch 3; EvNewContext 3 4; EvAddCookies 4; EvNewPage 4 5;
            EvGoto 5 homeUrl; EvGoto 5 searchPageUrl; EvClosePage 5])%list.
Proof.
  assert (H : BROWSER_IDLE_TIMEOUT < tk_now (se_token muchLater) - browserLastUsed afterSearch)
    by (vm_compute; reflexivity).
  split; [reflexivity|]. split; [exact H|].
  destruct (idle_browser_is_replaced (se_token muchLater) "a=b" afterSearch 0%nat eq_refl H)
    as (l & Hl & _).
  reflexivity.
Defined.

(** Extra X12. The page of a derivation never outlives it: whatever
    happens, when [getCoveoToken] opened a page, the last thing it did
    was to close that page. *)
Theorem transient_page_is_closed env sapToken w :
  exists l, events (snd (getCoveoToken env sapToken w)) = (events w ++ l)%list
    /\ forall c pg, In (EvNewPage c pg) l -> exists l0, l = (l0 ++ [EvClosePage pg])%list.
Proof.
  destruct w as [b0 c0 lu pg nh ev]. simpl.
  unfold_derive; simpl.
  split_paths; simpl; rewrite <- ?app_assoc; simpl;
    (eexists; split; [try reflexivity; symmetry; apply app_nil_r|]);
    intros c' pg' Hin; in_events;
    match goal with
    | |- exists l0, ?l = (l0 ++ [?e])%list =>
        exists (removelast l); reflexivity
    end.
Qed.

Lemma transient_page_is_closed_witness :
  exists l,
    events (snd (getCoveoToken (se_token (allSucceeds "bearer" JNull)) "a=b" afterSearch))
    = (events afterSearch ++ l)%list
    /\ In (EvNewPage 1 3) l
    /\ exists l0, l = (l0 ++ [EvClosePage 3])%list.
Proof.
  destruct (transient_page_is_closed (se_token (allSucceeds "bearer" JNull)) "a=b" afterSearch)
    as (l & Hl & Hclosed).
  assert (Hrun : events (snd (getCoveoToken (se_token (allSucceeds "bearer" JNull)) "a=b"
                                afterSearch))
                 = (events afterSearch
                    ++ [EvNewPage 1 3; EvGoto 3 homeUrl; EvGoto 3 searchPageUrl;
                        EvClosePage 3])%list) by reflexivity.
  rewrite Hrun in Hl. apply app_inv_head in Hl. subst l.
  eexists. split; [exact Hrun|].
  assert (Hin : In (EvNewPage 1 3)
                   [EvNewPage 1 3; EvGoto 3 homeUrl; EvGoto 3 searchPageUrl; EvClosePage 3])
    by (left; reflexivity).
  split; [exact Hin|]. exact (Hclosed _ _ Hin).
Defined.

Lemma truthyString_some o s : truthyString o = Some s -> o = Some s /\ s <> "".
Proof.
  destruct o as [x|]; simpl; [|discriminate].
  destruct (String.eqb x "") eqn:E; [discriminate|].
  intros [= ->]. split; [reflexivity|]. intros ->. discriminate.
Qed.

Ltac token_cases :=
  repeat match goal with
         | H : truthyString _ = Some _ |- _ => apply truthyString_some in H; destruct H
         | H : Returns _ = Returns _ |- _ => inversion H; subst; clear H
         | H : Throws _ = Throws _ |- _ => inversion H; subst; clear H
         | H : (_, _) = (_, _) |- _ => inversion H; subst; clear H
         end.

(** Extra X13. [getCoveoToken] ends in one of three ways: it returns a
    token that is not empty; it throws [SESSION_EXPIRED], and then holds
    no browser; or it throws an [Error] whose message starts with
    [Failed to get Coveo bearer token: ]. *)
Theorem getCoveoToken_outcomes env sapToken w :
  let r := fst (getCoveoToken env sapToken w) in
  let w' := snd (getCoveoToken env sapToken w) in
  (exists tok, r = Returns tok /\ tok <> "")
  \/ (r = Throws SESSION_EXPIRED /\ browser w' = None)
  \/ (exists m, r = Throws (Exn ClsError ("Failed to get Coveo bearer token: " ++ m))).
Proof.
  destruct w as [b0 c0 lu pg nh ev]. simpl.
  unfold_derive; simpl.
  split_paths; simpl; token_cases;
    first [ left; eexists; split; [reflexivity|]; assumption
          | right; left; split; reflexivity
          | right; right; eexists; reflexivity ].
Qed.

(** Extra X14. A token that [getCoveoToken] returns is not empty, and it
    is the one captured from the requests of the page; only when none
    was captured is it the one found by evaluating the page. *)
Theorem token_source_precedence env sapToken w tok :
  fst (getCoveoToken env sapToken w) = Returns tok ->
  tok <> ""
  /\ (tk_captured env = Some tok
      \/ (truthyString (tk_captured env) = None /\ tk_evaluate env = Returns (Some tok))).
Proof.
  destruct w as [b0 c0 lu pg nh ev]. simpl.
  unfold_derive; simpl.
  split_paths; simpl; intros Hr; try discriminate Hr; token_cases;
    (split; [assumption|]); auto.
Qed.

Lemma token_source_precedence_witness :
  fst (getCoveoToken (se_token (allSucceeds "bearer" JNull)) "a=b" newClient) = Returns "bearer"
  /\ "bearer" <> ""
  /\ (tk_captured (se_token (allSucceeds "bearer" JNull)) = Some "bearer"
      \/ (truthyString (tk_captured (se_token (allSucceeds "bearer" JNull))) = None
          /\ tk_evaluate (se_token (allSucceeds "bearer" JNull)) = Returns (Some "bearer"))).
Proof.
  split; [reflexivity|].
  exact (token_source_precedence (se_token (allSucceeds "bearer" JNull)) "a=b" newClient
           "bearer" eq_refl).
Defined.

(** Extra X15. On a reused browser, a redirect to the login page (seen by
    the response listener or in the address of the page) ends
    [getCoveoToken] in [SESSION_EXPIRED] after exactly four actions: the
    page is opened, the home page is visited, the browser is closed and
    the page is closed. The search page is not visited, and the pool is
    left empty. *)
Theorem login_redirect_ends_in_session_expired env sapToken w b c :
  browser w = Some b -> browserContext w = Some c ->
  tk_isConnected env = true ->
  tk_now env - browserLastUsed w <= BROWSER_IDLE_TIMEOUT ->
  tk_newPage env = Returns true ->
  tk_wasRedirectedToLogin env = true
  \/ includes "authentication." (tk_currentUrl env) = true
  \/ includes "saml/login" (tk_currentUrl env) = true ->
  let r := fst (getCoveoToken env sapToken w) in
  let w' := snd (getCoveoToken env sapToken w) in
  r = Throws SESSION_EXPIRED
  /\ browser w' = None /\ browserContext w' = None
  /\ events w' = (events w ++ [EvNewPage c (nextHandle w); EvGoto (nextHandle w) homeUrl;
                               EvCloseBrowser b; EvClosePage (nextHandle w)])%list.
Proof.
  destruct w as [b0 c0 lu pg nh ev]. simpl. intros -> -> Hconn Hidle Hpage Hredirect.
  assert (Hi : (BROWSER_IDLE_TIMEOUT <? tk_now env - lu) = false) by (apply Z.ltb_ge; lia).
  assert (Hr : tk_wasRedirectedToLogin env
               || includes "authentication." (tk_currentUrl env)
               || includes "saml/login" (tk_currentUrl env) = true).
  { destruct Hredirect as [H | [H | H]]; rewrite H; rewrite ?orb_true_r; reflexivity. }
  unfold_derive; simpl. rewrite Hi, Hconn, Hpage. simpl.
  destruct (tk_homeGoto env); simpl; rewrite Hr; simpl; rewrite <- ?app_assoc; simpl;
    repeat split; reflexivity.
Qed.

Lemma login_redirect_ends_in_session_expired_witness :
  browser afterSearch = Some 0%nat /\ browserContext afterSearch = Some 1%nat
  /\ tk_isConnected (se_token sessionGone) = true
  /\ tk_now (se_token sessionGone) - browserLastUsed afterSearch <= BROWSER_IDLE_TIMEOUT
  /\ tk_newPage (se_token sessionGone) = Returns true
  /\ tk_wasRedirectedToLogin (se_token sessionGone) = true
  /\ fst (getCoveoToken (se_token sessionGone) "a=b" afterSearch) = Throws SESSION_EXPIRED.
Proof.
  assert (H : tk_now (se_token sessionGone) - browserLastUsed afterSearch
              <= BROWSER_IDLE_TIMEOUT) by (vm_compute; discriminate).
  split; [reflexivity|]. split; [reflexivity|]. split; [reflexivity|]. split; [exact H|].
  split; [reflexivity|]. split; [reflexivity|].
  exact (proj1 (login_redirect_ends_in_session_expired (se_token sessionGone) "a=b"
                  afterSearch 0%nat 1%nat eq_refl eq_refl eq_refl H eq_refl
                  (or_introl eq_refl))).
Defined.

Lemma httpRequests_emit_search w tok q n :
  httpRequests (emit (EvSearchRequest tok q n) w)
  = (httpRequests w ++ [EvSearchRequest tok q n])%list.
Proof. unfold httpRequests, emit. simpl. rewrite List.filter_app. reflexivity. Qed.

Lemma searchNotes_throws_wrapped Date_parse env query token maxResults w t :
  fst (searchNotes Date_parse env query token maxResults w) = Throws t ->
  exists m, t = Exn ClsError ("SAP Notes search failed: " ++ m).
Proof.
  unfold searchNotes, tryCatch, bind, modify, ask, throw, ret.
  destruct (getCoveoToken (se_token env) token w) as [[tok|e] w1]; simpl.
  - split_paths; simpl; intros Ht; inversion Ht; subst; eauto.
  - intros Ht; inversion Ht; subst; eauto.
Qed.

Lemma searchNotes_requests Date_parse env query token maxResults w :
  httpRequests (snd (searchNotes Date_parse env query token maxResults w))
  = (httpRequests w
     ++ match fst (getCoveoToken (se_token env) token w) with
        | Returns coveoToken => [EvSearchRequest coveoToken query maxResults]
        | Throws _ => []
        end)%list.
Proof.
  pose proof (getCoveoToken_no_http (se_token env) token w) as Hh.
  unfold searchNotes, tryCatch, bind, modify, ask, throw, ret.
  destruct (getCoveoToken (se_token env) token w) as [[tok|e] w1]; simpl in *.
  - rewrite <- Hh. split_paths; simpl; apply httpRequests_emit_search.
  - rewrite Hh. symmetry. apply app_nil_r.
Qed.

(** Extra X16. Whatever [searchNotes] throws is an [Error] whose message
    starts with [SAP Notes search failed: ]. It sends the search request
    once when the token was derived, with that token, the query and the
    number of results of the caller, and not at all when the derivation
    threw. *)
Theorem search_sends_at_most_one_request Date_parse env query token maxResults w :
  let r := fst (searchNotes Date_parse env query token maxResults w) in
  let w' := snd (searchNotes Date_parse env query token maxResults w) in
  (forall t, r = Throws t ->
             exists m, t = Exn ClsError ("SAP Notes search failed: " ++ m))
  /\ httpRequests w'
     = (httpRequests w
        ++ match fst (getCoveoToken (se_token env) token w) with
           | Returns coveoToken => [EvSearchRequest coveoToken query maxResults]
           | Throws _ => []
           end)%list.
Proof.
  split.
  - intros t. apply searchNotes_throws_wrapped.
  - apply searchNotes_requests.
Qed.

Lemma search_sends_at_most_one_request_witness :
  fst (searchNotes (fun _ => None) sessionGone "2744792" "a=b" 10 newClient)
  = Throws searchFailedSessionExpired
  /\ exists m, searchFailedSessionExpired = Exn ClsError ("SAP Notes search failed: " ++ m).
Proof.
  assert (H : fst (searchNotes (fun _ => None) sessionGone "2744792" "a=b" 10 newClient)
              = Throws searchFailedSessionExpired) by reflexivity.
  split; [exact H|].
  exact (proj1 (search_sends_at_most_one_request (fun _ => None) sessionGone
                  "2744792" "a=b" 10 newClient) _ H).
Defined.

(** Extra X17. When the search API answers with a status outside 200 to
    299 and its body can be read, [searchNotes] throws an [Error] that
    names the status and the first hundred characters of the body. *)
Theorem rejected_search_reports_status Date_parse env query token maxResults w tok response body :
  fst (getCoveoToken (se_token env) token w) = Returns tok ->
  se_fetch env = Returns response ->
  ok response = false ->
  text response = Returns body ->
  fst (searchNotes Date_parse env query token maxResults w)
  = Throws (Exn ClsError ("SAP Notes search failed: Coveo API returned "
                          ++ Z_to_string (status response) ++ ": " ++ substring0 100 body)).
Proof.
  intros Htok Hfetch Hok Htext.
  unfold searchNotes, tryCatch, bind, modify, ask, throw, ret.
  destruct (getCoveoToken (se_token env) token w) as [[tok'|e] w1]; simpl in *; [|discriminate].
  rewrite Hfetch, Hok. simpl. rewrite Htext. reflexivity.
Qed.

Lemma rejected_search_reports_status_witness :
  fst (getCoveoToken (se_token searchForbidden) "a=b" newClient) = Returns "bearer"
  /\ ok {| status := 403; text := Returns "Forbidden";
           json := Throws (Exn ClsLibraryError "Unexpected token") |} = false
  /\ fst (searchNotes (fun _ => None) searchForbidden "2744792" "a=b" 10 newClient)
     = Throws (Exn ClsError "SAP Notes search failed: Coveo API returned 403: Forbidden").
Proof.
  split; [reflexivity|]. split; [reflexivity|].
  exact (rejected_search_reports_status (fun _ => None) searchForbidden "2744792" "a=b" 10
           newClient "bearer" _ "Forbidden" eq_refl eq_refl eq_refl eq_refl).
Defined.

Lemma digitRun_digits s : allChars isDigit (digitRun s) = true.
Proof.
  induction s as [|c s IH]; simpl; [reflexivity|].
  destruct (isDigit c) eqn:E; simpl; [rewrite E; exact IH | reflexivity].
Qed.

Lemma digitRun_fixed d : allChars isDigit d = true -> digitRun d = d.
Proof.
  induction d as [|c d IH]; simpl; [reflexivity|].
  intros H. apply andb_true_iff in H as [Hc Hd]. rewrite Hc, (IH Hd). reflexivity.
Qed.

Lemma substring0_digits n r :
  allChars isDigit r = true -> allChars isDigit (substring0 n r) = true.
Proof.
  revert r. induction n as [|n IH]; intros [|c r]; simpl; try reflexivity.
  intros H. apply andb_true_iff in H as [Hc Hr]. rewrite Hc. exact (IH r Hr).
Qed.

Lemma substring0_length n r :
  String.length (substring0 n r) = Nat.min n (String.length r).
Proof.
  revert r. induction n as [|n IH]; intros [|c r]; simpl; try reflexivity.
  rewrite IH. reflexivity.
Qed.

Lemma substring0_whole n r : (String.length r <= n)%nat -> substring0 n r = r.
Proof.
  revert r. induction n as [|n IH]; intros [|c r]; simpl; intros H; try reflexivity; try lia.
  rewrite IH; [reflexivity | lia].
Qed.

Lemma startsWith_digitRun n s : startsWith (substring0 n (digitRun s)) s = true.
Proof.
  revert n. induction s as [|c s IH]; intros n; simpl.
  - destruct n; reflexivity.
  - destruct (isDigit c); simpl; destruct n; simpl; try reflexivity.
    rewrite Ascii.eqb_refl. apply IH.
Qed.

Lemma includes_eq p s :
  includes p s = startsWith p s || match s with
                                   | EmptyString => false
                                   | String _ s' => includes p s'
                                   end.
Proof. destruct s; reflexivity. Qed.

Lemma matchDigits_eq s :
  matchDigits s =
  if (6 <=? String.length (digitRun s))%nat then Some (substring0 8 (digitRun s))
  else match s with
       | String _ s' => matchDigits s'
       | EmptyString => None
       end.
Proof. destruct s; reflexivity. Qed.

Lemma isNoteNumber_iff d :
  isNoteNumber d = true
  <-> allChars isDigit d = true /\ (6 <= String.length d <= 8)%nat.
Proof.
  unfold isNoteNumber. rewrite !andb_true_iff, String.eqb_eq, !Nat.leb_le. split.
  - intros [[Hrun H6] H8]. split; [|lia]. rewrite <- Hrun. apply digitRun_digits.
  - intros [Hd Hl]. split; [split|]; try lia. apply digitRun_fixed. exact Hd.
Qed.

Lemma leading_run_note_number s :
  (6 <= String.length (digitRun s))%nat ->
  isNoteNumber (substring0 8 (digitRun s)) = true.
Proof.
  intros E. apply isNoteNumber_iff. split.
  - apply substring0_digits, digitRun_digits.
  - rewrite substring0_length. lia.
Qed.

Lemma matchDigits_note_number s d :
  matchDigits s = Some d -> isNoteNumber d = true /\ includes d s = true.
Proof.
  revert d. induction s as [|c s IH]; intros d; rewrite matchDigits_eq, includes_eq.
  - simpl. discriminate.
  - destruct (6 <=? String.length (digitRun (String c s)))%nat eqn:E.
    + intros H.
      assert (Hd : d = substring0 8 (digitRun (String c s))) by congruence.
      rewrite Hd. apply Nat.leb_le in E. split.
      * exact (leading_run_note_number _ E).
      * rewrite startsWith_digitRun. reflexivity.
    + intros H. destruct (IH d H) as [H1 H2]. split; [exact H1|].
      rewrite H2. apply orb_true_r.
Qed.

Lemma matchDigits_of_note_number s : isNoteNumber s = true -> matchDigits s = Some s.
Proof.
  intros H. apply isNoteNumber_iff in H as [Hd Hl].
  rewrite matchDigits_eq, (digitRun_fixed s Hd).
  assert (E : (6 <=? String.length s)%nat = true) by (apply Nat.leb_le; lia).
  rewrite E, substring0_whole; [reflexivity | lia].
Qed.

(** Extra X18. What the pattern of six to eight digits extracts from a
    text is a run of six to eight digits that occurs in the text; it
    extracts itself again, and the input schema of [sap_note_get]
    accepts it as an id. *)
Theorem extracted_ids_are_note_numbers s d :
  matchDigits s = Some d ->
  isNoteNumber d = true /\ includes d s = true
  /\ matchDigits d = Some d
  /\ Server.getInputSchema (JObj [("id", JStr d)]) = Some (d, "EN").
Proof.
  intros H. destruct (matchDigits_note_number s d H) as [Hn Hi].
  split; [exact Hn|]. split; [exact Hi|].
  split; [exact (matchDigits_of_note_number d Hn)|].
  unfold Server.getInputSchema. cbn [prop lookupField String.eqb Ascii.eqb Bool.eqb].
  rewrite Hn. reflexivity.
Qed.

Lemma extracted_ids_are_note_numbers_witness :
  matchDigits "SAP Note 2744792 - OData" = Some "2744792"
  /\ isNoteNumber "2744792" = true.
Proof.
  split; [reflexivity|].
  exact (proj1 (extracted_ids_are_note_numbers "SAP Note 2744792 - OData" "2744792" eq_refl)).
Defined.

Lemma splitOn_pieces sep s x :
  In x (splitOn sep s) -> allChars (fun c => negb (Ascii.eqb c sep)) x = true.
Proof.
  revert x. induction s as [|c s IH]; intros x; simpl.
  - intros [<- | []]. reflexivity.
  - destruct (Ascii.eqb c sep) eqn:E.
    + intros [<- | H]; [reflexivity | exact (IH x H)].
    + destruct (splitOn sep s) as [|piece rest].
      * intros [<- | []]. simpl. rewrite E. reflexivity.
      * intros [<- | H].
        -- simpl. rewrite E. simpl. apply IH. left. reflexivity.
        -- apply IH. right. exact H.
Qed.

Lemma trimStart_keeps P s : allChars P s = true -> allChars P (trimStart s) = true.
Proof.
  induction s as [|c s IH]; simpl; [reflexivity|].
  intros H. destruct (isWhiteSpace c); [|exact H].
  apply andb_true_iff in H as [_ H]. exact (IH H).
Qed.

Lemma trimEnd_keeps P s : allChars P s = true -> allChars P (trimEnd s) = true.
Proof.
  induction s as [|c s IH]; simpl; [reflexivity|].
  intros H. apply andb_true_iff in H as [Hc Hs]. specialize (IH Hs).
  destruct (trimEnd s).
  - destruct (isWhiteSpace c); simpl; [reflexivity | rewrite Hc; reflexivity].
  - simpl in *. rewrite Hc. exact IH.
Qed.

Lemma trim_keeps P s : allChars P s = true -> allChars P (trim s) = true.
Proof. intros H. apply trimEnd_keeps, trimStart_keeps, H. Qed.

Lemma cutAt_parts sep s b a :
  cutAt sep s = Some (b, a) ->
  s = (b ++ String sep a)%string /\ allChars (fun c => negb (Ascii.eqb c sep)) b = true.
Proof.
  revert b a. induction s as [|c s IH]; intros b a; simpl; [discriminate|].
  destruct (Ascii.eqb c sep) eqn:E.
  - intros [= <- <-]. apply Ascii.eqb_eq in E. subst. split; reflexivity.
  - destruct (cutAt sep s) as [[b' a']|]; [|discriminate].
    intros [= <- <-]. destruct (IH b' a' eq_refl) as [-> Hb].
    split; [reflexivity|]. simpl. rewrite E, Hb. reflexivity.
Qed.

Lemma allChars_app P a b : allChars P (a ++ b) = allChars P a && allChars P b.
Proof.
  induction a as [|c a IH]; simpl; [reflexivity|]. rewrite IH. apply andb_assoc.
Qed.

Lemma dropLast_keeps P s : allChars P s = true -> allChars P (dropLast s) = true.
Proof.
  induction s as [|c s IH]; simpl; [reflexivity|].
  intros H. apply andb_true_iff in H as [Hc Hs].
  destruct s; [reflexivity|]. simpl in *. rewrite Hc. exact (IH Hs).
Qed.

Lemma dropChars_keeps P n s : allChars P s = true -> allChars P (dropChars n s) = true.
Proof.
  revert s. induction n as [|n IH]; intros [|c s]; simpl; auto.
  intros H. apply andb_true_iff in H as [_ Hs]. exact (IH s Hs).
Qed.

Lemma existsb_In_string s l : existsb (String.eqb s) l = false -> ~ In s l.
Proof.
  intros H Hin. assert (existsb (String.eqb s) l = true); [|congruence].
  apply existsb_exists. exists s. split; [exact Hin | apply String.eqb_refl].
Qed.

Lemma parseCookiePair_sound pair p :
  allChars noSemicolon pair = true ->
  parseCookiePair pair = Some p ->
  pc_name p <> "" /\ pc_value p <> ""
  /\ pc_domain p = ".sap.com" /\ pc_path p = "/"
  /\ ~ In (lowerAscii (pc_name p)) cookieAttributes
  /\ allChars noSemicolon (pc_name p) = true
  /\ allChars noEquals (pc_name p) = true
  /\ allChars noSemicolon (pc_value p) = true.
Proof.
  intros Hpair. unfold parseCookiePair.
  pose proof (trim_keeps noSemicolon pair Hpair) as Htrimmed.
  destruct (cutAt "=" (trim pair)) as [[before after]|] eqn:Hcut; [|discriminate].
  destruct (cutAt_parts _ _ _ _ Hcut) as [Heq Hbefore].
  rewrite Heq, allChars_app in Htrimmed. apply andb_true_iff in Htrimmed as [Hb Ha].
  simpl in Ha. 
  set (value := if startsWith doubleQuote (trim after)
                   && endsWithChar (ascii_of_nat 34) (trim after)
                then dropLast (dropChars 1 (trim after)) else trim after).
  assert (Hvalue : allChars noSemicolon value = true).
  { unfold value. destruct (_ && _).
    - apply dropLast_keeps, dropChars_keeps, trim_keeps, Ha.
    - apply trim_keeps, Ha. }
  destruct (String.eqb (trim before) "") eqn:En; [discriminate|].
  destruct (String.eqb value "") eqn:Ev; [discriminate|].
  destruct (existsb _ cookieAttributes) eqn:Eattr; [discriminate|].
  intros [= <-]. cbn [pc_name pc_value pc_domain pc_path].
  split; [apply String.eqb_neq, En|].
  split; [apply String.eqb_neq, Ev|].
  split; [reflexivity|]. split; [reflexivity|].
  split; [exact (existsb_In_string _ _ Eattr)|].
  split; [apply trim_keeps, Hb|].
  split; [exact (trim_keeps _ _ Hbefore) | exact Hvalue].
Qed.

Lemma In_omap {A B} (f : A -> option B) l y :
  In y (omap f l) -> exists x, In x l /\ f x = Some y.
Proof.
  induction l as [|a l IH]; cbn; [intros []|].
  destruct (f a) eqn:E.
  - intros [<- | H]; [exists a; auto|].
    destruct (IH H) as (x & Hx & Hf). exists x. auto.
  - intros H. destruct (IH H) as (x & Hx & Hf). exists x. auto.
Qed.

(** Extra X19. Every cookie that [parseCookiesFromToken] returns has a
    name and a value that are not empty, the domain [.sap.com] and the
    path [/]; its name is none of the attribute names that the parser
    skips, in any case of letters, and holds no semicolon and no equals
    sign; its value holds no semicolon. *)
Theorem parsed_cookies_are_well_formed token p :
  In p (parseCookiesFromToken token) ->
  pc_name p <> "" /\ pc_value p <> ""
  /\ pc_domain p = ".sap.com" /\ pc_path p = "/"
  /\ ~ In (lowerAscii (pc_name p)) cookieAttributes
  /\ allChars noSemicolon (pc_name p) = true
  /\ allChars noEquals (pc_name p) = true
  /\ allChars noSemicolon (pc_value p) = true.
Proof.
  unfold parseCookiesFromToken. intros H.
  destruct (In_omap _ _ _ H) as (pair & Hin & Hp).
  exact (parseCookiePair_sound pair p (splitOn_pieces ";" token pair Hin) Hp).
Qed.

Lemma parsed_cookies_are_well_formed_witness :
  In {| pc_name := "a"; pc_value := "b"; pc_domain := ".sap.com"; pc_path := "/" |}
     (parseCookiesFromToken "a=b; Path=/; Secure")
  /\ ~ In (lowerAscii "a") cookieAttributes.
Proof.
  assert (H : In {| pc_name := "a"; pc_value := "b"; pc_domain := ".sap.com"; pc_path := "/" |}
                 (parseCookiesFromToken "a=b; Path=/; Secure")) by (left; reflexivity).
  split; [exact H|].
  exact (proj1 (proj2 (proj2 (proj2 (proj2 (parsed_cookies_are_well_formed _ _ H)))))).
Defined.

Lemma allChars_weaken (P Q : ascii -> bool) s :
  (forall c, P c = true -> Q c = true) -> allChars P s = true -> allChars Q s = true.
Proof.
  intros HPQ. induction s as [|c s IH]; simpl; [reflexivity|].
  intros H. apply andb_true_iff in H as [Hc Hs]. rewrite (HPQ c Hc), (IH Hs). reflexivity.
Qed.


Lemma splitOn_nonempty sep s : splitOn sep s <> [].
Proof.
  destruct s as [|c s]; simpl; [discriminate|].
  destruct (Ascii.eqb c sep); [discriminate|].
  destruct (splitOn sep s); discriminate.
Qed.

Lemma splitOn_piece sep x s :
  allChars (fun c => negb (Ascii.eqb c sep)) x = true ->
  splitOn sep (x ++ String sep s) = x :: splitOn sep s.
Proof.
  induction x as [|c x IH]; simpl.
  - intros _. rewrite Ascii.eqb_refl. reflexivity.
  - intros H. apply andb_true_iff in H as [Hc Hx]. apply negb_true_iff in Hc.
    rewrite Hc, (IH Hx). reflexivity.
Qed.

Lemma splitOn_whole sep x :
  allChars (fun c => negb (Ascii.eqb c sep)) x = true -> splitOn sep x = [x].
Proof.
  induction x as [|c x IH]; simpl; [reflexivity|].
  intros H. apply andb_true_iff in H as [Hc Hx]. apply negb_true_iff in Hc.
  rewrite Hc, (IH Hx). reflexivity.
Qed.

Lemma join_cons sep x y ys : join sep (x :: y :: ys) = (x ++ sep ++ join sep (y :: ys))%string.
Proof. reflexivity. Qed.

Lemma splitOn_join x xs :
  Forall (fun y => allChars noSemicolon y = true) (x :: xs) ->
  splitOn ";" (join "; " (x :: xs)) = x :: map (String " ") xs.
Proof.
  revert x. induction xs as [|y ys IH]; intros x H.
  - inversion H; subst. simpl. apply splitOn_whole. assumption.
  - inversion H as [|? ? Hx Hrest]; subst. rewrite join_cons.
    change ("; " ++ join "; " (y :: ys))%string
      with (String ";" (String " " (join "; " (y :: ys)))).
    rewrite (splitOn_piece ";" x _ Hx).
    change (splitOn ";" (String " " (join "; " (y :: ys))))
      with (match splitOn ";" (join "; " (y :: ys)) with
            | piece :: rest => String " " piece :: rest
            | [] => [String " " ""]
            end).
    rewrite (IH y Hrest). reflexivity.
Qed.

Lemma trimStart_plain s : allChars noSpace s = true -> trimStart s = s.
Proof.
  destruct s as [|c s]; simpl; [reflexivity|].
  intros H. apply andb_true_iff in H as [Hc _]. unfold noSpace in Hc.
  apply negb_true_iff in Hc. rewrite Hc. reflexivity.
Qed.

Lemma trimEnd_plain s : allChars noSpace s = true -> trimEnd s = s.
Proof.
  induction s as [|c s IH]; simpl; [reflexivity|].
  intros H. apply andb_true_iff in H as [Hc Hs]. unfold noSpace in Hc.
  apply negb_true_iff in Hc. rewrite (IH Hs), Hc. destruct s; reflexivity.
Qed.

Lemma trim_plain s : allChars noSpace s = true -> trim s = s.
Proof. intros H. unfold trim. rewrite (trimStart_plain s H). apply trimEnd_plain, H. Qed.

Lemma trim_leading_space s : trim (String " " s) = trim s.
Proof. reflexivity. Qed.

Lemma cutAt_first sep n v :
  allChars (fun c => negb (Ascii.eqb c sep)) n = true ->
  cutAt sep (n ++ String sep v) = Some (n, v).
Proof.
  induction n as [|c n IH]; simpl.
  - intros _. rewrite Ascii.eqb_refl. reflexivity.
  - intros H. apply andb_true_iff in H as [Hc Hn]. apply negb_true_iff in Hc.
    rewrite Hc, (IH Hn). reflexivity.
Qed.

Lemma valueChar_noSpace c : valueChar c = true -> noSpace c = true.
Proof. unfold valueChar, noSpace. intros H. apply andb_true_iff in H as [H _].
  apply andb_true_iff in H as [H _]. exact H. Qed.

Lemma valueChar_noSemicolon c : valueChar c = true -> noSemicolon c = true.
Proof. unfold valueChar, noSemicolon. intros H. apply andb_true_iff in H as [H _].
  apply andb_true_iff in H as [_ H]. exact H. Qed.

Lemma nameChar_valueChar c : nameChar c = true -> valueChar c = true.
Proof. unfold nameChar. intros H. apply andb_true_iff in H as [H _]. exact H. Qed.

Lemma nameChar_noEquals c : nameChar c = true -> noEquals c = true.
Proof. unfold nameChar, noEquals. intros H. apply andb_true_iff in H as [_ H]. exact H. Qed.

Lemma pair_chars (P : ascii -> bool) n v :
  P "="%char = true ->
  allChars P n = true -> allChars P v = true ->
  allChars P (n ++ "=" ++ v) = true.
Proof.
  intros He Hn Hv. rewrite allChars_app, Hn.
  change ("=" ++ v)%string with (String "=" v). cbn [allChars andb].
  rewrite He, Hv. reflexivity.
Qed.

Lemma parseCookiePair_plain c :
  headerSafe c ->
  parseCookiePair (Auth.cookie_name c ++ "=" ++ Auth.cookie_value c) = Some (reparsed c).
Proof.
  intros (Hn0 & Hn & Hv0 & Hv & Hattr).
  set (n := Auth.cookie_name c) in *. set (v := Auth.cookie_value c) in *.
  assert (Hnv : allChars valueChar n = true)
    by exact (allChars_weaken _ _ n nameChar_valueChar Hn).
  assert (Hns : allChars noSpace n = true)
    by exact (allChars_weaken _ _ n valueChar_noSpace Hnv).
  assert (Hvs : allChars noSpace v = true)
    by exact (allChars_weaken _ _ v valueChar_noSpace Hv).
  assert (Hne : allChars (fun c => negb (Ascii.eqb c "=")) n = true)
    by exact (allChars_weaken _ _ n nameChar_noEquals Hn).
  unfold parseCookiePair.
  rewrite (trim_plain (n ++ "=" ++ v) (pair_chars noSpace n v eq_refl Hns Hvs)).
  change (n ++ "=" ++ v)%string with (n ++ String "=" v)%string.
  rewrite (cutAt_first "=" n v Hne).
  rewrite (trim_plain n Hns), (trim_plain v Hvs).
  assert (Hq : startsWith doubleQuote v = false).
  { destruct v as [|a v']; [contradiction Hv0; reflexivity|].
    simpl in Hv. apply andb_true_iff in Hv as [Ha _]. unfold valueChar in Ha.
    apply andb_true_iff in Ha as [_ Ha]. apply negb_true_iff in Ha.
    unfold doubleQuote. cbn [startsWith]. rewrite andb_true_r, Ascii.eqb_sym. exact Ha. }
  rewrite Hq. cbn [andb].
  assert (En : String.eqb n "" = false) by (apply String.eqb_neq; exact Hn0).
  assert (Ev : String.eqb v "" = false) by (apply String.eqb_neq; exact Hv0).
  rewrite En, Ev, Hattr. reflexivity.
Qed.

Lemma parseCookiePair_spaced c :
  headerSafe c ->
  parseCookiePair (String " " (Auth.cookie_name c ++ "=" ++ Auth.cookie_value c))
  = Some (reparsed c).
Proof.
  intros H. rewrite <- (parseCookiePair_plain c H).
  unfold parseCookiePair. rewrite trim_leading_space. reflexivity.
Qed.

Lemma headerSafe_noSemicolon c :
  headerSafe c ->
  allChars noSemicolon (Auth.cookie_name c ++ "=" ++ Auth.cookie_value c) = true.
Proof.
  intros (_ & Hn & _ & Hv & _). apply pair_chars; [reflexivity| |].
  - apply (allChars_weaken nameChar); [|exact Hn].
    intros a Ha. apply valueChar_noSemicolon, nameChar_valueChar, Ha.
  - exact (allChars_weaken _ _ _ valueChar_noSemicolon Hv).
Qed.

Lemma omap_cons_some {A B} (f : A -> option B) x l y :
  f x = Some y -> omap f (x :: l) = y :: omap f l.
Proof. intros H. cbn. rewrite H. reflexivity. Qed.

Lemma omap_spaced cs :
  Forall headerSafe cs ->
  omap parseCookiePair
    (map (String " ")
       (map (fun c => Auth.cookie_name c ++ "=" ++ Auth.cookie_value c)%string cs))
  = map reparsed cs.
Proof.
  induction cs as [|d ds IH]; intros H; [reflexivity|].
  inversion H as [|? ? Hd Hds]; subst. cbn [map].
  rewrite (omap_cons_some _ _ _ _ (parseCookiePair_spaced d Hd)), (IH Hds). reflexivity.
Qed.

(** Extra X20. The cookie string that [authenticate()] builds from the
    cookies of the browser is read back by [parseCookiesFromToken] cookie
    by cookie, in order, with the same names and values, when no name or
    value is empty or holds white space, a semicolon or a double quote,
    no name holds an equals sign and none is an attribute name. Domain
    and path are replaced by [.sap.com] and [/]. *)
Theorem cookie_header_round_trip cs :
  Forall headerSafe cs ->
  parseCookiesFromToken (Auth.cookieString cs) = map reparsed cs.
Proof.
  intros Hall. unfold parseCookiesFromToken, Auth.cookieString.
  destruct cs as [|c cs]; [reflexivity|].
  cbn [map]. rewrite splitOn_join.
  - inversion Hall as [|? ? Hc Hcs]; subst.
    rewrite (omap_cons_some _ _ _ _ (parseCookiePair_plain c Hc)), (omap_spaced cs Hcs).
    reflexivity.
  - change (Forall (fun y => allChars noSemicolon y = true)
              (map (fun c0 => Auth.cookie_name c0 ++ "=" ++ Auth.cookie_value c0)%string
                   (c :: cs))).
    apply Forall_map. eapply Forall_impl; [exact Hall|].
    intros a Ha. exact (headerSafe_noSemicolon a Ha).
Qed.

Lemma cookie_header_round_trip_witness :
  Forall headerSafe [Auth.sessionCookie]
  /\ parseCookiesFromToken (Auth.cookieString [Auth.sessionCookie])
     = [{| pc_name := "a"; pc_value := "b"; pc_domain := ".sap.com"; pc_path := "/" |}].
Proof.
  assert (H : Forall headerSafe [Auth.sessionCookie]).
  { constructor; [|constructor].
    split; [discriminate|]. split; [reflexivity|]. split; [discriminate|].
    split; reflexivity. }
  split; [exact H|].
  exact (cookie_header_round_trip [Auth.sessionCookie] H).
Defined.

Section WithHost.
Variable JSON_parse : string -> option JsVal.

Lemma parseNoteResponse_url response noteId d :
  parseNoteResponse JSON_parse response noteId = Returns (Some d) ->
  detail_url d = JStr (noteUrl noteId).
Proof.
  unfold parseNoteResponse, parseHtmlForNoteDetail, mapToSapNoteDetail.
  destruct (text response); [|discriminate].
  destruct (JSON_parse a); [destruct (negb (nullish j) && truthy (prop "d" j))|];
    intros [= <-]; reflexivity.
Qed.

Lemma parseRawNoteDetail_url response noteId d :
  parseRawNoteDetail JSON_parse response noteId = Returns (Some d) ->
  detail_url d = JStr (noteUrl noteId).
Proof.
  unfold parseRawNoteDetail, parseHtmlForNoteDetail.
  destruct (text response); [|discriminate].
  split_paths; intros [= <-]; reflexivity.
Qed.

Lemma fallbackStrategy_url env endpoint noteId token w d :
  fst (fallbackStrategy JSON_parse env endpoint noteId token w) = Returns (Some d) ->
  detail_url d = JStr (noteUrl noteId).
Proof.
  unfold fallbackStrategy, makeRequest, httpError, bind, modify, ask, throw, ret.
  destruct (ne_fetch env (baseUrl ++ endpoint)) as [response|t]; simpl; [|discriminate].
  destruct (negb (ok response) && negb (status response =? 404)); simpl.
  - destruct (text response); simpl; discriminate.
  - unfold ask. simpl. apply parseNoteResponse_url.
Qed.

Lemma rawHttpStrategy_url env noteId token w d :
  fst (rawHttpStrategy JSON_parse env noteId token w) = Returns (Some d) ->
  detail_url d = JStr (noteUrl noteId).
Proof.
  unfold rawHttpStrategy, makeRawRequest, httpError, bind, modify, ask, throw, ret.
  destruct (ne_fetch env _) as [response|t]; simpl; [|discriminate].
  destruct (negb (ok response) && negb (status response =? 404)
            && negb (status response =? 302) && negb (status response =? 301)); simpl.
  - destruct (text response); simpl; discriminate.
  - destruct (ok response); simpl; [unfold ask; simpl; apply parseRawNoteDetail_url | discriminate].
Qed.

Lemma swallowing_some (s : M (option SapNoteDetail)) w d :
  fst (swallowing s w) = Returns (Some d) -> fst (s w) = Returns (Some d).
Proof.
  unfold swallowing, tryCatch. destruct (s w) as [[r|t] w']; simpl; [auto | discriminate].
Qed.

Lemma tryFallbacks_url env endpoints noteId token w d :
  fst (tryFallbacks JSON_parse env endpoints noteId token w) = Returns (Some d) ->
  detail_url d = JStr (noteUrl noteId).
Proof.
  revert w. induction endpoints as [|e rest IH]; intros w; simpl; [discriminate|].
  unfold bind.
  pose proof (swallowing_some (fallbackStrategy JSON_parse env e noteId token) w) as Hs.
  destruct (swallowing_returns (fallbackStrategy JSON_parse env e noteId token) w) as [r Hr].
  destruct (swallowing _ w) as [o w']. simpl in Hr, Hs. subst o.
  destruct r as [n|]; simpl.
  - intros [= <-]. exact (fallbackStrategy_url env e noteId token w n (Hs n eq_refl)).
  - apply IH.
Qed.

(** Extra X21. A note that [getNote] returns is the one the browser
    strategy extracted, or it carries the address of the requested note
    on the launchpad as its [url]. *)
Theorem returned_note_links_to_requested_id env noteId token w d :
  fst (getNote JSON_parse env noteId token w) = Returns (Some d) ->
  ne_playwright env = Returns (Some d) \/ detail_url d = JStr (noteUrl noteId).
Proof.
  unfold getNote, tryCatch, bind.
  pose proof (swallowing_some (browserStrategy env noteId token) w) as Hs1.
  destruct (swallowing_returns (browserStrategy env noteId token) w) as [r1 H1].
  destruct (swallowing (browserStrategy env noteId token) w) as [o1 w1].
  cbn [fst] in H1, Hs1; subst o1. destruct r1 as [n|]; cbv beta iota.
  { cbn [fst]. intros [= <-]. left. specialize (Hs1 n eq_refl).
    unfold browserStrategy, getNoteWithPlaywright, bind, modify, tryCatch, ask, throw in Hs1.
    simpl in Hs1. destruct (ne_playwright env); simpl in Hs1; [exact Hs1 | discriminate]. }
  pose proof (swallowing_some (rawHttpStrategy JSON_parse env noteId token) w1) as Hs2.
  destruct (swallowing_returns (rawHttpStrategy JSON_parse env noteId token) w1) as [r2 H2].
  destruct (swallowing (rawHttpStrategy JSON_parse env noteId token) w1) as [o2 w2].
  cbn [fst] in H2, Hs2; subst o2. destruct r2 as [n|]; cbv beta iota.
  { cbn [fst]. intros [= <-]. right.
    exact (rawHttpStrategy_url env noteId token w1 n (Hs2 n eq_refl)). }
  pose proof (tryFallbacks_url env (fallbackEndpoints noteId) noteId token w2 d) as H3.
  destruct (tryFallbacks JSON_parse env (fallbackEndpoints noteId) noteId token w2)
    as [[o3|t3] w3]; cbn [fst] in *.
  - intros H. right. exact (H3 H).
  - discriminate.
Qed.

Lemma swallowing_absent_events (s : M (option SapNoteDetail)) w :
  ~ yields s w -> swallowing s w = (Returns None, snd (s w)).
Proof.
  unfold yields, swallowing, tryCatch. intros H.
  destruct (s w) as [[[n|]|t] w']; simpl in *; try reflexivity.
  exfalso. apply H. eauto.
Qed.

Lemma browserStrategy_world env noteId token w :
  snd (browserStrategy env noteId token w) = emit EvDetailBrowser w.
Proof.
  unfold browserStrategy, getNoteWithPlaywright, bind, modify, tryCatch, ask, throw.
  destruct (ne_playwright env); reflexivity.
Qed.

Lemma rawHttpStrategy_world env noteId token w :
  snd (rawHttpStrategy JSON_parse env noteId token w)
  = emit (EvFetch (rawNotesUrl ++ rawEndpoint noteId)) w.
Proof.
  unfold rawHttpStrategy, makeRawRequest, httpError, bind, modify, ask, throw, ret.
  destruct (ne_fetch env (rawNotesUrl ++ rawEndpoint noteId)) as [r0|t0]; [|reflexivity].
  cbv beta iota.
  destruct (negb (ok r0) && negb (status r0 =? 404)
            && negb (status r0 =? 302) && negb (status r0 =? 301)).
  - destruct (text r0); reflexivity.
  - destruct (ok r0); [|reflexivity].
    destruct (parseRawNoteDetail JSON_parse r0 noteId); reflexivity.
Qed.

Lemma fallbackStrategy_answer env endpoint noteId token w response d :
  ne_fetch env (baseUrl ++ endpoint) = Returns response ->
  negb (ok response) && negb (status response =? 404) = false ->
  parseNoteResponse JSON_parse response noteId = Returns (Some d) ->
  swallowing (fallbackStrategy JSON_parse env endpoint noteId token) w
  = (Returns (Some d), emit (EvFetch (baseUrl ++ endpoint)) w).
Proof.
  intros Hfetch Hpass Hd.
  unfold swallowing, tryCatch, fallbackStrategy, makeRequest, bind, modify, ask, ret.
  rewrite Hfetch. cbv beta iota. rewrite Hpass. cbv beta iota. rewrite Hd. reflexivity.
Qed.

(** Extra X22. When the browser strategy and the raw endpoint yield
    nothing and the first fallback endpoint answers with a status from
    200 to 299 or with 404, and its body can be read, [getNote] returns
    the note parsed from that body, also for a page that says the note
    was not found, and asks no further endpoint: the browser, the raw
    endpoint and that one endpoint are all it contacts. *)
Theorem answered_fallback_ends_the_search env noteId token w endpoint rest response body :
  fallbackEndpoints noteId = endpoint :: rest ->
  ~ yields (browserStrategy env noteId token) w ->
  (forall w', ~ yields (rawHttpStrategy JSON_parse env noteId token) w') ->
  ne_fetch env (baseUrl ++ endpoint) = Returns response ->
  ok response = true \/ status response = 404 ->
  text response = Returns body ->
  exists d,
    parseNoteResponse JSON_parse response noteId = Returns (Some d)
    /\ fst (getNote JSON_parse env noteId token w) = Returns (Some d)
    /\ events (snd (getNote JSON_parse env noteId token w))
       = (events w ++ [EvDetailBrowser; EvFetch (rawNotesUrl ++ rawEndpoint noteId);
                       EvFetch (baseUrl ++ endpoint)])%list.
Proof.
  intros Hends Hs1 Hs2 Hfetch Hstatus Htext.
  assert (Hpass : negb (ok response) && negb (status response =? 404) = false).
  { destruct Hstatus as [H | H]; [rewrite H; reflexivity|].
    rewrite H. simpl. apply andb_false_r. }
  assert (Hparse : exists d, parseNoteResponse JSON_parse response noteId = Returns (Some d)).
  { unfold parseNoteResponse, parseHtmlForNoteDetail. rewrite Htext.
    destruct (JSON_parse body); [destruct (negb (nullish j) && truthy (prop "d" j))|]; eauto. }
  destruct Hparse as [d Hd]. exists d. split; [exact Hd|].
  unfold getNote, tryCatch, bind. rewrite Hends.
  rewrite (swallowing_absent_events _ w Hs1). cbv beta iota.
  rewrite (swallowing_absent_events _ _ (Hs2 _)). cbv beta iota.
  cbn [tryFallbacks]. unfold bind.
  rewrite (fallbackStrategy_answer env endpoint noteId token _ response d Hfetch Hpass Hd).
  cbv beta iota. unfold ret. cbn [fst snd]. split; [reflexivity|].
  rewrite rawHttpStrategy_world, browserStrategy_world.
  unfold emit. cbn [events]. rewrite <- !app_assoc. reflexivity.
Qed.

(** Extra X23. [healthCheck] never throws and sends one request, to the
    metadata document of the service: it returns [true] when the answer
    has a status from 200 to 299 and [false] otherwise, also for 404 and
    when the request fails. *)
Theorem healthCheck_outcome env token w :
  let url := (baseUrl ++ "/services/odata/svt/snogwscorr/$metadata")%string in
  fst (healthCheck env token w)
  = Returns match ne_fetch env url with
            | Returns response => ok response
            | Throws _ => false
            end
  /\ events (snd (healthCheck env token w)) = (events w ++ [EvFetch url])%list.
Proof.
  simpl. unfold healthCheck, makeRequest, httpError, tryCatch, bind, modify, ask, throw, ret.
  simpl. destruct (ne_fetch env _) as [response|t]; simpl; [|split; reflexivity].
  destruct (ok response) eqn:Hok; simpl; [rewrite Hok; split; reflexivity|].
  destruct (status response =? 404); simpl; [rewrite Hok; split; reflexivity|].
  destruct (text response); split; reflexivity.
Qed.
End WithHost.

Lemma returned_note_links_to_requested_id_witness :
  exists d,
    fst (getNote (fun _ => None) notFoundEverywhere "2744792" "a=b" newClient)
    = Returns (Some d)
    /\ (ne_playwright notFoundEverywhere = Returns (Some d)
        \/ detail_url d = JStr (noteUrl "2744792")).
Proof.
  eexists. split; [reflexivity|].
  exact (returned_note_links_to_requested_id (fun _ => None) notFoundEverywhere
           "2744792" "a=b" newClient _ eq_refl).
Defined.

Lemma answered_fallback_ends_the_search_witness :
  exists d,
    fst (getNote (fun _ => None) notFoundEverywhere "2744792" "a=b" newClient)
    = Returns (Some d)
    /\ detail_title d = JStr "SAP Note 2744792".
Proof.
  assert (H1 : ~ yields (browserStrategy notFoundEverywhere "2744792" "a=b") newClient)
    by (intros [n Hn]; discriminate Hn).
  assert (H2 : forall w', ~ yields (rawHttpStrategy (fun _ => None) notFoundEverywhere
                                      "2744792" "a=b") w')
    by (intros w' [n Hn]; discriminate Hn).
  destruct (answered_fallback_ends_the_search (fun _ => None) notFoundEverywhere
              "2744792" "a=b" newClient _ _
              {| status := 404; text := Returns "";
                 json := Throws (Exn ClsLibraryError "Unexpected end of JSON input") |} ""
              eq_refl H1 H2 eq_refl (or_intror eq_refl) eq_refl)
    as (d & Hparse & Hget & _).
  exists d. split; [exact Hget|].
  injection Hparse as <-. reflexivity.
Defined.
End NotesExtra.

Module ServerExtra.
Import Notes Server ParseFacts NotesFacts NotesExtra.

(** Extra X24. The tool [sap_note_get] refuses an id that is shorter
    than six or longer than eight characters, or that holds a character
    that is not a digit: the call ends with the error of the input
    schema and the handler does not run, so nothing is requested. *)
Theorem malformed_id_is_refused JSON_parse authenticated env args id w :
  prop "id" args = JStr id ->
  (String.length id < 6)%nat \/ (8 < String.length id)%nat \/ allChars isDigit id = false ->
  sap_note_get JSON_parse authenticated env args w = (Returns NoteInvalidParams, w).
Proof.
  intros Hid Hbad. unfold sap_note_get, getInputSchema. rewrite Hid.
  destruct (isNoteNumber id) eqn:E; [|reflexivity].
  apply isNoteNumber_iff in E as [Hd Hl].
  destruct Hbad as [H | [H | H]]; [lia | lia | congruence].
Qed.

Lemma malformed_id_is_refused_witness :
  prop "id" (JObj [("id", JStr "27447")]) = JStr "27447"
  /\ (String.length "27447" < 6)%nat
  /\ sap_note_get (fun _ => None) (Returns "a=b") networkDown (JObj [("id", JStr "27447")])
       newClient
     = (Returns NoteInvalidParams, newClient).
Proof.
  assert (H : (String.length "27447" < 6)%nat) by (cbn; lia).
  split; [reflexivity|]. split; [exact H|].
  exact (malformed_id_is_refused (fun _ => None) (Returns "a=b") networkDown
           (JObj [("id", JStr "27447")]) "27447" newClient eq_refl (or_introl H)).
Defined.

(** Extra X25. The handler of [sap_note_get] never throws. When the
    authentication failed it reports [Failed to retrieve SAP Note] with
    the message of that failure and leaves the client alone. When the
    authentication succeeded it reports the note that [getNote] returned,
    and in every other case that the note was not found or is not
    accessible: failures of the strategies are not told apart from a
    note that is not there. *)
Theorem getHandler_reports JSON_parse authenticated env id lang w :
  match authenticated with
  | Throws error =>
      getHandler JSON_parse authenticated env id lang w
      = (Returns (retrievalFailed id error), w)
  | Returns token =>
      fst (getHandler JSON_parse authenticated env id lang w)
      = match fst (getNote JSON_parse env id token w) with
        | Returns (Some found) => Returns (noteFound found)
        | _ => Returns (noteNotFound id)
        end
      /\ snd (getHandler JSON_parse authenticated env id lang w)
         = snd (getNote JSON_parse env id token w)
  end.
Proof.
  destruct authenticated as [token|error]; [|reflexivity].
  unfold getHandler, tryCatch, bind, ask, ret.
  destruct (getNote_returns JSON_parse env id token w) as [r Hr].
  destruct (getNote JSON_parse env id token w) as [o w1]. simpl in *. subst o.
  destruct r; split; reflexivity.
Qed.

End ServerExtra.

Module DirectFacts.
Import CoveoDirect.

Lemma fallback_world env k w :
  snd (getCoveoTokenFromDirectSearch env k w) = emit (PostCoveoToken k) w.
Proof.
  unfold getCoveoTokenFromDirectSearch.
  repeat match goal with
         | |- context [match ?x with _ => _ end] => destruct x
         end; reflexivity.
Qed.

Lemma direct_cache env k w :
  tokenCache (snd (getCoveoTokenDirect env k w)) = tokenCache w.
Proof.
  unfold getCoveoTokenDirect.
  destruct (de_searchToken env) as [response| |t]; cbv beta iota zeta.
  - destruct (if dr_ok response then _ else None) as [[tok|[|t]]|]; cbv beta iota;
      try rewrite fallback_world; try reflexivity.
    pose proof (fallback_world env k (emit (GetSearchToken k) w)) as H.
    destruct (getCoveoTokenFromDirectSearch env k (emit (GetSearchToken k) w)) as [[tok|t] w2];
      cbn [snd] in H; subst w2; cbv beta iota; try rewrite fallback_world; reflexivity.
  - reflexivity.
  - rewrite fallback_world. reflexivity.
Qed.

(** Extra X27. A token that [getCachedCoveoToken] fetched is stored under
    the cookie string it was fetched for: until the instant of storing
    plus [maxAgeMs], a later call with the same cookies returns that
    token without any request and leaves the state alone. Entries for
    other cookie strings are not touched by the fetch. *)
Theorem fetched_token_is_served_from_cache env1 env2 k maxAgeMs maxAgeMs2 w tok :
  cacheMiss env1 k w ->
  fst (getCachedCoveoToken env1 k maxAgeMs w) = Returns tok ->
  de_nowAtStore env1 + maxAgeMs <> 0 ->
  de_nowAtLookup env2 < de_nowAtStore env1 + maxAgeMs ->
  let w1 := snd (getCachedCoveoToken env1 k maxAgeMs w) in
  getCachedCoveoToken env2 k maxAgeMs2 w1 = (Returns tok, w1)
  /\ forall k', k' <> k -> tokenCache w1 !! k' = tokenCache w !! k'.
Proof.
  intros Hmiss Hret Hnz Hlt. cbv zeta.
  assert (Hfetched :
    getCachedCoveoToken env1 k maxAgeMs w
    = match getCoveoTokenDirect env1 k w with
      | (Returns tok, w1) =>
          (Returns tok,
           set_tokenCache
             (<[k := {| token := tok; expiresAt := de_nowAtStore env1 + maxAgeMs |}]>
                (tokenCache w1)) w1)
      | (Throws t, w1) => (Throws t, w1)
      end).
  { unfold getCachedCoveoToken. destruct (tokenCache w !! k) as [cached|] eqn:E; [|reflexivity].
    rewrite (Hmiss cached E). reflexivity. }
  rewrite Hfetched in *. clear Hfetched.
  pose proof (direct_cache env1 k w) as Hcache.
  destruct (getCoveoTokenDirect env1 k w) as [[tok'|t] w1]; cbn [fst snd] in *; [|discriminate].
  injection Hret as ->. split.
  - unfold getCachedCoveoToken. cbn [tokenCache set_tokenCache].
    rewrite lookup_insert_eq. unfold unexpired. cbn [expiresAt token].
    assert (E1 : (de_nowAtStore env1 + maxAgeMs =? 0) = false) by (apply Z.eqb_neq; exact Hnz).
    assert (E2 : (de_nowAtLookup env2 <? de_nowAtStore env1 + maxAgeMs) = true)
      by (apply Z.ltb_lt; exact Hlt).
    rewrite E1, E2. reflexivity.
  - intros k' Hk. cbn [tokenCache set_tokenCache].
    rewrite lookup_insert_ne by congruence. rewrite Hcache. reflexivity.
Qed.

Lemma fetched_token_is_served_from_cache_witness :
  cacheMiss (tokenEndpointAnswers "abc" 1000) "a=b" noRequests
  /\ fst (getCachedCoveoToken (tokenEndpointAnswers "abc" 1000) "a=b" defaultMaxAgeMs
            noRequests) = Returns (JStr "abc")
  /\ getCachedCoveoToken (tokenEndpointAnswers "xyz" 300000) "a=b" defaultMaxAgeMs
       (snd (getCachedCoveoToken (tokenEndpointAnswers "abc" 1000) "a=b" defaultMaxAgeMs
               noRequests))
     = (Returns (JStr "abc"),
        snd (getCachedCoveoToken (tokenEndpointAnswers "abc" 1000) "a=b" defaultMaxAgeMs
               noRequests)).
Proof.
  assert (Hmiss : cacheMiss (tokenEndpointAnswers "abc" 1000) "a=b" noRequests).
  { intros cached H. unfold noRequests in H. cbn [tokenCache] in H.
    rewrite lookup_empty in H. discriminate H. }
  assert (Hret : fst (getCachedCoveoToken (tokenEndpointAnswers "abc" 1000) "a=b"
                        defaultMaxAgeMs noRequests) = Returns (JStr "abc")).
  { unfold getCachedCoveoToken, noRequests. cbn [tokenCache]. rewrite lookup_empty.
    reflexivity. }
  assert (Hnz : de_nowAtStore (tokenEndpointAnswers "abc" 1000) + defaultMaxAgeMs <> 0)
    by (vm_compute; discriminate).
  assert (Hlt : de_nowAtLookup (tokenEndpointAnswers "xyz" 300000)
                < de_nowAtStore (tokenEndpointAnswers "abc" 1000) + defaultMaxAgeMs)
    by (vm_compute; reflexivity).
  split; [exact Hmiss|]. split; [exact Hret|].
  exact (proj1 (fetched_token_is_served_from_cache (tokenEndpointAnswers "abc" 1000)
                  (tokenEndpointAnswers "xyz" 300000) "a=b" defaultMaxAgeMs defaultMaxAgeMs
                  noRequests (JStr "abc") Hmiss Hret Hnz Hlt)).
Defined.

(** Extra X28. A call of [getCachedCoveoToken] that throws was not
    answered from the cache and leaves the cache as it was: a failure is
    never stored. *)
Theorem failed_fetch_is_not_cached env k maxAgeMs w t :
  fst (getCachedCoveoToken env k maxAgeMs w) = Throws t ->
  tokenCache (snd (getCachedCoveoToken env k maxAgeMs w)) = tokenCache w
  /\ cacheMiss env k w.
Proof.
  unfold getCachedCoveoToken, cacheMiss.
  pose proof (direct_cache env k w) as Hcache.
  destruct (tokenCache w !! k) as [cached|] eqn:E.
  - destruct (unexpired (de_nowAtLookup env) cached) eqn:F; cbn [fst snd]; [discriminate|].
    destruct (getCoveoTokenDirect env k w) as [[tok|t'] w1]; cbn [fst snd] in *; [discriminate|].
    intros _. split; [exact Hcache|]. intros c [= <-]. exact F.
  - destruct (getCoveoTokenDirect env k w) as [[tok|t'] w1]; cbn [fst snd] in *; [discriminate|].
    intros _. split; [exact Hcache|]. intros c Hc. discriminate Hc.
Qed.

Lemma posts_emit_get k w : posts (emit (GetSearchToken k) w) = posts w.
Proof. unfold posts, emit. cbn [requests]. rewrite List.filter_app. cbn. apply app_nil_r. Qed.

Lemma posts_emit_post k w :
  posts (emit (PostCoveoToken k) w) = (posts w ++ [PostCoveoToken k])%list.
Proof. unfold posts, emit. cbn [requests]. rewrite List.filter_app. reflexivity. Qed.

Lemma failed_fetch_is_not_cached_witness :
  fst (getCachedCoveoToken allEndpointsFail "a=b" defaultMaxAgeMs noRequests)
  = Throws (Exn ClsLibraryError "fetch failed")
  /\ tokenCache (snd (getCachedCoveoToken allEndpointsFail "a=b" defaultMaxAgeMs noRequests))
     = tokenCache noRequests.
Proof.
  assert (Hret : fst (getCachedCoveoToken allEndpointsFail "a=b" defaultMaxAgeMs noRequests)
                 = Throws (Exn ClsLibraryError "fetch failed")).
  { unfold getCachedCoveoToken, noRequests. cbn [tokenCache]. rewrite lookup_empty.
    reflexivity. }
  split; [exact Hret|].
  exact (proj1 (failed_fetch_is_not_cached allEndpointsFail "a=b" defaultMaxAgeMs noRequests
                  _ Hret)).
Defined.

(** Extra X29. [getCoveoTokenDirect] sends one GET to the token endpoint
    and then at most two POSTs to the search endpoint. When the timer
    aborts the GET, it throws the timeout error without a POST. When the
    GET is answered with a status that is not [ok] and the first POST is
    rejected, the POST started inside the [try] block is repeated from
    the [catch] block, and the outcome of the second POST is the result. *)
Theorem direct_fetch_requests env k w :
  let r := fst (getCoveoTokenDirect env k w) in
  let w' := snd (getCoveoTokenDirect env k w) in
  (exists n, (n <= 2)%nat
     /\ requests w' = (requests w ++ GetSearchToken k :: repeat (PostCoveoToken k) n)%list)
  /\ (de_searchToken env = Aborted ->
      r = Throws fetchTimedOut /\ requests w' = (requests w ++ [GetSearchToken k])%list)
  /\ (forall response e,
        de_searchToken env = Responds response -> dr_ok response = false ->
        de_coveoToken env (length (posts w)) = Rejects e ->
        r = fst (getCoveoTokenFromDirectSearch env k
                   (emit (PostCoveoToken k) (emit (GetSearchToken k) w)))
        /\ requests w'
           = (requests w ++ [GetSearchToken k; PostCoveoToken k; PostCoveoToken k])%list).
Proof.
  cbv zeta. split; [|split].
  - unfold getCoveoTokenDirect.
    destruct (de_searchToken env) as [response| |t]; cbv beta iota zeta.
    + destruct (if dr_ok response then _ else None) as [[tok|[|t]]|]; cbv beta iota;
        try rewrite fallback_world.
      * exists 0%nat. split; [lia | reflexivity].
      * exists 0%nat. split; [lia | reflexivity].
      * exists 1%nat. split; [lia|]. cbn. rewrite <- app_assoc. reflexivity.
      * pose proof (fallback_world env k (emit (GetSearchToken k) w)) as H.
        destruct (getCoveoTokenFromDirectSearch env k (emit (GetSearchToken k) w))
          as [[tok|t] w2]; cbn [snd] in H; subst w2; cbv beta iota;
          try rewrite fallback_world.
        -- exists 1%nat. split; [lia|]. cbn. rewrite <- app_assoc. reflexivity.
        -- exists 2%nat. split; [lia|]. cbn. rewrite <- !app_assoc. reflexivity.
    + exists 0%nat. split; [lia | reflexivity].
    + exists 1%nat. split; [lia|]. rewrite fallback_world. cbn. rewrite <- app_assoc.
      reflexivity.
  - intros H. unfold getCoveoTokenDirect. rewrite H. split; reflexivity.
  - intros response e Hresp Hok Hpost. unfold getCoveoTokenDirect.
    rewrite Hresp. cbv beta iota zeta. rewrite Hok. cbv beta iota.
    assert (Hfirst : getCoveoTokenFromDirectSearch env k (emit (GetSearchToken k) w)
                     = (Throws e, emit (PostCoveoToken k) (emit (GetSearchToken k) w))).
    { unfold getCoveoTokenFromDirectSearch. rewrite posts_emit_get, Hpost. reflexivity. }
    rewrite Hfirst. cbv beta iota. split; [reflexivity|].
    rewrite fallback_world. cbn. rewrite <- !app_assoc. reflexivity.
Qed.

Lemma startsWith_prefix p s : startsWith p (p ++ s) = true.
Proof.
  induction p as [|c p IH]; [reflexivity|].
  change (String c p ++ s)%string with (String c (p ++ s)).
  cbn [startsWith]. rewrite Ascii.eqb_refl. exact IH.
Qed.

Lemma dropChars_prefix p s : dropChars (String.length p) (p ++ s) = s.
Proof. induction p as [|c p IH]; [reflexivity | exact IH]. Qed.

Lemma removeFirst_prefix p s : removeFirst p (p ++ s) = s.
Proof.
  pose proof (startsWith_prefix p s) as Hs. pose proof (dropChars_prefix p s) as Hd.
  destruct p as [|c p]; [destruct s; reflexivity|].
  change (String c p ++ s)%string with (String c (p ++ s)) in *.
  cbn [removeFirst]. rewrite Hs. exact Hd.
Qed.

Lemma direct_fetch_requests_witness :
  de_searchToken allEndpointsFail
  = Responds {| dr_ok := false; dr_coveoAuthToken := None; dr_authorization := None;
                dr_json := Returns JNull |}
  /\ de_coveoToken allEndpointsFail (length (posts noRequests))
     = Rejects (Exn ClsLibraryError "fetch failed")
  /\ requests (snd (getCoveoTokenDirect allEndpointsFail "a=b" noRequests))
     = (requests noRequests
        ++ [GetSearchToken "a=b"; PostCoveoToken "a=b"; PostCoveoToken "a=b"])%list.
Proof.
  split; [reflexivity|]. split; [reflexivity|].
  exact (proj2 (proj2 (proj2 (direct_fetch_requests allEndpointsFail "a=b" noRequests))
                  _ _ eq_refl eq_refl eq_refl)).
Defined.

(** Extra X30. When the answer to the POST carries a token in its
    [x-coveo-auth-token] header, or has no such header and carries one in
    [authorization], [getCoveoTokenFromDirectSearch] returns that header
    without its [Bearer] prefix, whatever the status and the body of the
    answer are. *)
Theorem header_token_wins env k w response bearer :
  de_coveoToken env (length (posts w)) = Responds response ->
  bearer <> "" ->
  dr_coveoAuthToken response = Some ("Bearer " ++ bearer)
  \/ (header (dr_coveoAuthToken response) = None
      /\ dr_authorization response = Some ("Bearer " ++ bearer)) ->
  getCoveoTokenFromDirectSearch env k w = (Returns (JStr bearer), emit (PostCoveoToken k) w).
Proof.
  intros Hresp Hb Hheader. unfold getCoveoTokenFromDirectSearch. rewrite Hresp.
  cbv beta iota zeta.
  assert (Hh : match header (dr_coveoAuthToken response) with
               | Some h => Some h
               | None => header (dr_authorization response)
               end = Some ("Bearer " ++ bearer)).
  { destruct Hheader as [H | [H1 H2]].
    - rewrite H. reflexivity.
    - rewrite H1, H2. reflexivity. }
  rewrite Hh. rewrite (removeFirst_prefix "Bearer " bearer). reflexivity.
Qed.
Lemma header_token_wins_witness :
  de_coveoToken headerNamesToken (length (posts noRequests))
  = Responds {| dr_ok := false; dr_coveoAuthToken := None;
                dr_authorization := Some "Bearer abc"; dr_json := Returns JNull |}
  /\ "abc" <> ""
  /\ getCoveoTokenFromDirectSearch headerNamesToken "a=b" noRequests
     = (Returns (JStr "abc"), emit (PostCoveoToken "a=b") noRequests).
Proof.
  assert (Hb : "abc" <> "") by discriminate.
  split; [reflexivity|]. split; [exact Hb|].
  exact (header_token_wins headerNamesToken "a=b" noRequests _ "abc" eq_refl Hb
           (or_intror (conj eq_refl eq_refl))).
Defined.
End DirectFacts.
